(** * ObsidianNotes / devopsnotes: the Q&A transcript cleaning scripts

    A shallow embedding of the five Python scripts

      - [clean_db_final.py]
      - [process_db_qa.py]
      - [process_db_qa_improved.py]
      - [reorder_questions.py]
      - [simple_clean.py]

    Python [str] values are sequences of Unicode code points; they are
    modelled as [list N].  The part of the [re] module the scripts use is
    embedded as a backtracking matcher over a small regular-expression
    syntax (every quantifier in the scripts is applied to a one-character
    atom).  File input and output and [print] are left out: each script is
    a function from the text read to the text written and the counts
    printed. *)

From Stdlib Require Import String Ascii.
From Stdlib Require Import List NArith Bool Arith Lia.
From Stdlib Require Import Permutation Sorted.
From Stdlib Require DecimalNat DecimalFacts.
Import ListNotations.

Set Implicit Arguments.

(** ** Characters and strings *)

Definition char := N.
Definition str := list char.

(** A Rocq string literal (ASCII) as a Python string. *)
Definition of_string (s : string) : str :=
  map N_of_ascii (list_ascii_of_string s).

Module Unicode.

Local Open Scope N_scope.

Definition between (lo hi c : char) : bool := ((lo <=? c) && (c <=? hi))%N.

(** [str.isspace] of one character, which is also what [\s] matches in a
    [str] pattern (CPython 3.11, Unicode 14.0.0). *)
Definition isspace (c : char) : bool :=
  between 9 13 c || between 28 32 c || (c =? 133)%N || (c =? 160)%N
  || (c =? 5760)%N || between 8192 8202 c || (c =? 8232)%N || (c =? 8233)%N
  || (c =? 8239)%N || (c =? 8287)%N || (c =? 12288)%N.

(** The characters of category Nd, which [\d] matches in a [str] pattern
    and [int] accepts: blocks of ten consecutive code points, the digit
    [0] first (the block at 0x1D7CE holds five such runs). *)
Definition nd_blocks : list (N * N) :=
  map (fun b => (b, 10%N))
    [0x30; 0x660; 0x6f0; 0x7c0; 0x966; 0x9e6; 0xa66; 0xae6; 0xb66; 0xbe6;
     0xc66; 0xce6; 0xd66; 0xde6; 0xe50; 0xed0; 0xf20; 0x1040; 0x1090;
     0x17e0; 0x1810; 0x1946; 0x19d0; 0x1a80; 0x1a90; 0x1b50; 0x1bb0;
     0x1c40; 0x1c50; 0xa620; 0xa8d0; 0xa900; 0xa9d0; 0xa9f0; 0xaa50;
     0xabf0; 0xff10; 0x104a0; 0x10d30; 0x11066; 0x110f0; 0x11136;
     0x111d0; 0x112f0; 0x11450; 0x114d0; 0x11650; 0x116c0; 0x11730;
     0x118e0; 0x11950; 0x11c50; 0x11d50; 0x11da0; 0x16a60; 0x16ac0;
     0x16b50]%N
  ++ [(0x1d7ce, 50)]%N
  ++ map (fun b => (b, 10%N)) [0x1e140; 0x1e2f0; 0x1e950; 0x1fbf0]%N.

Definition in_block (c : char) (b : N * N) : bool :=
  ((fst b <=? c) && (c <? fst b + snd b))%N.

Definition decimal (c : char) : option N :=
  match find (in_block c) nd_blocks with
  | Some b => Some ((c - fst b) mod 10)%N
  | None => None
  end.

Definition isdecimal (c : char) : bool :=
  match decimal c with Some _ => true | None => false end.

Definition is_ascii_digit (c : char) : bool := between 48 57 c.
Definition is_upper_ascii (c : char) : bool := between 65 90 c.
Definition is_lower_ascii (c : char) : bool := between 97 122 c.

(** Matching a pattern literal [p] against a text character [c] under
    [re.IGNORECASE].  Every pattern the scripts compile with that flag is
    ASCII: an ASCII letter matches its two cases and the characters
    whose simple lower-casing or case-fixing reaches it (U+0130 and U+0131
    for i, U+212A for k, U+017F for s); any other ASCII character matches
    itself only. *)
Definition ieq (p c : char) : bool :=
  let lo := if is_upper_ascii p then (p + 32)%N else p in
  if is_lower_ascii lo then
    (c =? lo)%N || (c =? lo - 32)%N
    || ((lo =? 105)%N && ((c =? 304)%N || (c =? 305)%N))
    || ((lo =? 107)%N && (c =? 8490)%N)
    || ((lo =? 115)%N && (c =? 383)%N)
  else (c =? p)%N.

End Unicode.

Module Str.

Definition NL : char := 10%N.
Definition SP : char := 32%N.

Fixpoint lstrip (s : str) : str :=
  match s with
  | c :: s' => if Unicode.isspace c then lstrip s' else s
  | [] => []
  end.

Definition rstrip (s : str) : str := rev (lstrip (rev s)).

(** [s.strip()] *)
Definition strip (s : str) : str := rstrip (lstrip s).

(** [s.startswith(p)] *)
Fixpoint startswith (p s : str) : bool :=
  match p, s with
  | [], _ => true
  | a :: p', b :: s' => (a =? b)%N && startswith p' s'
  | _ :: _, [] => false
  end.

(** [s.split(sep)] for a one-character separator: never the empty list. *)
Fixpoint split (sep : char) (s : str) : list str :=
  match s with
  | [] => [[]]
  | c :: s' =>
      if (c =? sep)%N then [] :: split sep s'
      else match split sep s' with
           | h :: t => (c :: h) :: t
           | [] => [[c]]
           end
  end.

(** [sep.join(l)] *)
Fixpoint join (sep : str) (l : list str) : str :=
  match l with
  | [] => []
  | [x] => x
  | x :: l' => x ++ sep ++ join sep l'
  end.

(** [c in s] *)
Definition contains (c : char) (s : str) : bool := existsb (N.eqb c) s.

(** [bool(s)]: a string is true when it is not empty. *)
Definition nonempty (s : str) : bool :=
  match s with [] => false | _ :: _ => true end.

Fixpoint uint_chars (u : Decimal.uint) : str :=
  match u with
  | Decimal.Nil => []
  | Decimal.D0 u' => 48%N :: uint_chars u'
  | Decimal.D1 u' => 49%N :: uint_chars u'
  | Decimal.D2 u' => 50%N :: uint_chars u'
  | Decimal.D3 u' => 51%N :: uint_chars u'
  | Decimal.D4 u' => 52%N :: uint_chars u'
  | Decimal.D5 u' => 53%N :: uint_chars u'
  | Decimal.D6 u' => 54%N :: uint_chars u'
  | Decimal.D7 u' => 55%N :: uint_chars u'
  | Decimal.D8 u' => 56%N :: uint_chars u'
  | Decimal.D9 u' => 57%N :: uint_chars u'
  end.

(** [f"{n}"] for a non-negative integer. *)
Definition show (n : nat) : str := uint_chars (Nat.to_uint n).

(** The limit of [int] on the number of digits of a string,
    [sys.int_max_str_digits], which is 4300 unless it is set otherwise. *)
Definition int_max_str_digits : nat := 4300.

Fixpoint int_acc (acc : N) (s : str) : option N :=
  match s with
  | [] => Some acc
  | c :: s' =>
      match Unicode.decimal c with
      | Some d => int_acc (10 * acc + d)%N s'
      | None => None
      end
  end.

(** [int(s)] on a run of decimal digits; [None] stands for the
    [ValueError], which [int] raises on the empty string, on a character
    that is no decimal digit, and on a string of more than
    [int_max_str_digits] digits. *)
Definition int (s : str) : option N :=
  if (int_max_str_digits <? List.length s)%nat then None
  else match s with [] => None | _ => int_acc 0 s end.

End Str.

(** ** The fragment of [re] the scripts use *)

Module Re.

Inductive regex : Type :=
| Empty
| Lit (c : char)                       (* a literal character *)
| LitI (c : char)                      (* a literal under IGNORECASE *)
| Cls (p : char -> bool)               (* a class: \s, \d, [..], . *)
| Star (greedy : bool) (p : char -> bool)   (* p* and p*? *)
| Cat (r1 r2 : regex)
| Alt (r1 r2 : regex)
| Grp (i : nat) (r : regex)            (* capturing group number i *)
| Ahead (r : regex)                    (* (?=r) *)
| Bos                                  (* ^ without MULTILINE *)
| Eol                                  (* $ without MULTILINE *)
| Eos.                                 (* \Z *)

(** [p+] and [p+?] *)
Definition Plus (greedy : bool) (p : char -> bool) : regex :=
  Cat (Cls p) (Star greedy p).

Definition seqs (l : list regex) : regex := fold_right Cat Empty l.

Definition lits (s : string) : regex := seqs (map Lit (of_string s)).
Definition litsI (s : string) : regex := seqs (map LitI (of_string s)).

(** [.] under DOTALL and without it. *)
Definition any : char -> bool := fun _ => true.
Definition not_nl : char -> bool := fun c => negb (c =? Str.NL)%N.
Definition only (a : char) : char -> bool := fun c => (c =? a)%N.
Definition except (a : char) : char -> bool := fun c => negb (c =? a)%N.

Definition caps := list (nat * str).

Definition set_cap (i : nat) (v : str) (cs : caps) : caps :=
  (i, v) :: filter (fun e => negb (fst e =? i)) cs.

(** [m.group(i)] of a group that took part in the match. *)
Definition group (i : nat) (cs : caps) : option str :=
  match find (fun e => fst e =? i) cs with
  | Some e => Some (snd e)
  | None => None
  end.

(** The matcher is written in continuation-passing style.  A position is
    the flag "at the start of the string", the text that is left, and the
    groups captured so far; [k] is tried at each candidate end position in
    the order in which the backtracking engine would try them. *)
Definition cont := bool -> str -> caps -> option (str * caps).

Fixpoint rep_greedy (p : char -> bool) (k : cont) (bos : bool) (s : str)
    (cs : caps) {struct s} : option (str * caps) :=
  match s with
  | c :: s' =>
      if p c then
        match rep_greedy p k false s' cs with
        | Some r => Some r
        | None => k bos s cs
        end
      else k bos s cs
  | [] => k bos s cs
  end.

Fixpoint rep_lazy (p : char -> bool) (k : cont) (bos : bool) (s : str)
    (cs : caps) {struct s} : option (str * caps) :=
  match k bos s cs with
  | Some r => Some r
  | None =>
      match s with
      | c :: s' => if p c then rep_lazy p k false s' cs else None
      | [] => None
      end
  end.

Definition one (p : char -> bool) (k : cont) (s : str) (cs : caps)
    : option (str * caps) :=
  match s with
  | c :: s' => if p c then k false s' cs else None
  | [] => None
  end.

Fixpoint exec (r : regex) (k : cont) (bos : bool) (s : str) (cs : caps)
    {struct r} : option (str * caps) :=
  match r with
  | Empty => k bos s cs
  | Lit a => one (fun c => (c =? a)%N) k s cs
  | LitI a => one (Unicode.ieq a) k s cs
  | Cls p => one p k s cs
  | Star true p => rep_greedy p k bos s cs
  | Star false p => rep_lazy p k bos s cs
  | Cat r1 r2 => exec r1 (exec r2 k) bos s cs
  | Alt r1 r2 =>
      match exec r1 k bos s cs with
      | Some x => Some x
      | None => exec r2 k bos s cs
      end
  | Grp i r1 =>
      exec r1
        (fun bos' s' cs' =>
           k bos' s' (set_cap i (firstn (length s - length s') s) cs'))
        bos s cs
  | Ahead r1 =>
      match exec r1 (fun _ s' cs' => Some (s', cs')) bos s cs with
      | Some (_, cs') => k bos s cs'
      | None => None
      end
  | Bos => if bos then k bos s cs else None
  | Eol =>
      match s with
      | [] => k bos s cs
      | [c] => if (c =? Str.NL)%N then k bos s cs else None
      | _ => None
      end
  | Eos => match s with [] => k bos s cs | _ => None end
  end.

Definition accept : cont := fun _ s cs => Some (s, cs).

(** A match starting exactly at the current position: the text left after
    it and its groups. *)
Definition match_at (r : regex) (bos : bool) (s : str) : option (str * caps) :=
  exec r accept bos s [].

(** [re.match(r, s)] *)
Definition re_match (r : regex) (s : str) : option (str * caps) :=
  match_at r true s.

Definition matches (r : regex) (s : str) : bool :=
  match re_match r s with Some _ => true | None => false end.

(** [re.search(r, s)]: the leftmost match. *)
Fixpoint search_from (r : regex) (bos : bool) (s : str) : option (str * caps) :=
  match match_at r bos s with
  | Some x => Some x
  | None =>
      match s with
      | _ :: s' => search_from r false s'
      | [] => None
      end
  end.

Definition re_search (r : regex) (s : str) : option (str * caps) :=
  search_from r true s.

(** [re.sub(r, repl, s)] for a literal replacement: the matches are found
    left to right and do not overlap; [skip] counts the characters of the
    current match that are still to be dropped. *)
Fixpoint sub_from (r : regex) (repl : str) (bos : bool) (skip : nat) (s : str)
    {struct s} : str :=
  match skip with
  | S n =>
      match s with
      | _ :: s' => sub_from r repl false n s'
      | [] => []
      end
  | O =>
      match match_at r bos s with
      | Some (rest, _) =>
          match length s - length rest with
          | S n =>
              repl ++ match s with
                      | _ :: s' => sub_from r repl false n s'
                      | [] => []
                      end
          | O =>
              repl ++ match s with
                      | c :: s' => c :: sub_from r repl false 0 s'
                      | [] => []
                      end
          end
      | None =>
          match s with
          | c :: s' => c :: sub_from r repl false 0 s'
          | [] => []
          end
      end
  end.

Definition re_sub (r : regex) (repl : str) (s : str) : str :=
  sub_from r repl true 0 s.

(** [re.split(r, s)] for a pattern that is one capturing group and never
    matches the empty string: the pieces between the matches, with the
    matched text after each piece.  [cur] is the piece being collected, in
    reverse. *)
Fixpoint split_from (r : regex) (bos : bool) (skip : nat) (cur : str) (s : str)
    {struct s} : list str :=
  match skip with
  | S n =>
      match s with
      | _ :: s' => split_from r false n cur s'
      | [] => [rev cur]
      end
  | O =>
      match match_at r bos s with
      | Some (rest, _) =>
          match length s - length rest with
          | S n =>
              rev cur :: firstn (S n) s ::
              match s with
              | _ :: s' => split_from r false n [] s'
              | [] => [[]]
              end
          | O =>
              match s with
              | c :: s' => split_from r false 0 (c :: cur) s'
              | [] => [rev cur]
              end
          end
      | None =>
          match s with
          | c :: s' => split_from r false 0 (c :: cur) s'
          | [] => [rev cur]
          end
      end
  end.

Definition re_split (r : regex) (s : str) : list str :=
  split_from r true 0 [] s.

End Re.

(** ** The output document *)

Module Doc.

(** What a script appends to [processed_lines], by the statement that
    appends it. *)
Inductive entry : Type :=
| Topic (line : str)                  (* the heading of a topic *)
| Blank                               (* [""] *)
| Question (n : nat) (text : str)     (* [f"{n}. Q: {text}"] *)
| Answer (text : str)                 (* [f"A: {text}"] *)
| Other (line : str).                 (* a line passed through *)

(** The string appended; [topic_fmt] is the script's format of a
    heading. *)
Definition render (topic_fmt : str -> str) (e : entry) : str :=
  match e with
  | Topic line => topic_fmt line
  | Blank => []
  | Question n text => Str.show n ++ of_string ". Q: " ++ text
  | Answer text => of_string "A: " ++ text
  | Other line => line
  end.

(** [^\d+\.\s*Q:], by which the scripts count the questions. *)
Definition numbered_q_re : Re.regex :=
  Re.seqs [Re.Bos; Re.Plus true Unicode.isdecimal; Re.lits ".";
           Re.Star true Unicode.isspace; Re.lits "Q:"].

Definition count (f : str -> bool) (l : list str) : nat :=
  List.length (filter f l).

(** The three counts a cleaning script prints, taken over the strings of
    [processed_lines]. *)
Definition counts (processed_lines : list str) : nat * nat * nat :=
  (count (Str.startswith (of_string "## ")) processed_lines,
   count (Re.matches numbered_q_re) processed_lines,
   count (Str.startswith (of_string "A:")) processed_lines).

(** [f.write('\n'.join(processed_lines))] *)
Definition written (processed_lines : list str) : str :=
  Str.join [Str.NL] processed_lines.

(** [\s+] *)
Definition ws_re : Re.regex := Re.Plus true Unicode.isspace.

Definition is_nil {A : Type} (l : list A) : bool :=
  match l with [] => true | _ :: _ => false end.

End Doc.

(** ** clean_db_final.py *)

Module CleanDbFinal.
Import Re Doc.

Definition major_fluff : list regex :=
  [ seqs [litsI "If you want, I can expand this into a "; LitI 34%N;
          litsI "200+ practical DevOps DB Q&A list"; LitI 34%N;
          Star false any; litsI "Do you want me to do that next?"];
    seqs [litsI "You said:"; Star true Unicode.isspace; litsI "Proceed";
          Star true Unicode.isspace; litsI "ChatGPT said:";
          Star true Unicode.isspace; litsI "Perfect."; Star false any;
          litsI "Here's a comprehensive"; Star false any;
          litsI "migrations."];
    seqs [litsI "Perfect. Here's a comprehensive"; Star false any;
          litsI "migrations."];
    litsI "Here's a comprehensive, practical DevOps database Q&A list, continuing from what we've covered. I'll focus on RDBMS, NoSQL, cloud-managed DBs, operations, monitoring, security, scaling, and migrations.";
    litsI "Comprehensive Practical DevOps DB Q&A" ].

(** The loop of [re.sub(pattern, '', cleaned_content, flags=re.DOTALL |
    re.IGNORECASE)] over the patterns. *)
Definition remove_fluff (content : str) : str :=
  fold_left (fun cleaned_content pattern => re_sub pattern [] cleaned_content)
    major_fluff content.

(** [^(\d+)\.\s+([A-Z][a-zA-Z\s&/]+)$] *)
Definition topic_re : regex :=
  seqs [Bos; Grp 1 (Plus true Unicode.isdecimal); lits ".";
        Plus true Unicode.isspace;
        Grp 2 (Cat (Cls Unicode.is_upper_ascii)
                 (Plus true (fun c => Unicode.is_lower_ascii c
                                      || Unicode.is_upper_ascii c
                                      || Unicode.isspace c
                                      || (c =? 38)%N || (c =? 47)%N)));
        Eol].

Definition is_topic (line : str) : bool :=
  matches topic_re line
  && (15 <? List.length line)
  && negb (Str.startswith (of_string "Q:") line)
  && negb (Str.contains 63%N line)
  && negb (matches numbered_q_re line).

Definition topic_fmt (line : str) : str := Str.NL :: of_string "## " ++ line.

Definition clean_answer (next_line : str) : str :=
  re_sub ws_re [Str.SP] (Str.strip (skipn 2 next_line)).

(** The [while i < len(lines)] loop, on the lines from index [i] on; the
    inner [fix] is the loop that looks for the answer, which hands the
    position back to the outer loop where it stops. *)
Fixpoint scan (lines : list str) (question_number : nat)
    (processed_lines : list entry) {struct lines} : list entry :=
  match lines with
  | [] => processed_lines
  | raw :: rest =>
      let line := Str.strip raw in
      if negb (Str.nonempty line) && is_nil processed_lines then
        scan rest question_number processed_lines
      else if is_topic line then
        scan rest 1 (processed_lines ++ [Topic line; Blank])
      else if Str.startswith (of_string "Q:") line then
        let question_text := Str.strip (skipn 2 line) in
        let processed_lines :=
          processed_lines ++ [Question question_number question_text] in
        let question_number := S question_number in
        (fix look (l : list str) {struct l} : list entry :=
           match l with
           | [] => processed_lines
           | raw' :: rest' =>
               let next_line := Str.strip raw' in
               if Str.startswith (of_string "A:") next_line then
                 let answer_text := clean_answer next_line in
                 scan rest' question_number
                   (if Str.nonempty answer_text
                    then processed_lines ++ [Answer answer_text; Blank]
                    else processed_lines)
               else if Str.nonempty next_line
                       && negb (Str.startswith (of_string "Q:") next_line)
               then look rest'
               else scan l question_number processed_lines
           end) rest
      else scan rest question_number processed_lines
  end.

Definition entries (content : str) : list entry :=
  scan (Str.split Str.NL (remove_fluff content)) 1 [].

Definition processed_lines (content : str) : list str :=
  map (render topic_fmt) (entries content).

(** The text written to the output file and the counts printed. *)
Definition clean_db_final (content : str) : str * (nat * nat * nat) :=
  (written (processed_lines content), counts (processed_lines content)).

End CleanDbFinal.

(** ** process_db_qa.py *)

Module ProcessDbQa.
Import Re Doc.

Definition fluff_patterns : list regex :=
  [ seqs [litsI "If you want, I can expand this"; Star false any;
          litsI "Do you want me to do that next?"];
    seqs [litsI "You said:"; Star true Unicode.isspace; litsI "Proceed";
          Star true Unicode.isspace; litsI "ChatGPT said:";
          Star true Unicode.isspace; litsI "Perfect."];
    seqs [litsI "Perfect. Here's a comprehensive"; Star false any];
    seqs [litsI "Do you want me to"; Star false any];
    seqs [litsI "I can expand"; Star false any];
    seqs [litsI "continuing from what we've covered"; Star false any];
    seqs [litsI "covering"; Star false any;
          litsI "cloud operations specifically."];
    litsI "Comprehensive Practical DevOps DB Q&A";
    seqs [litsI "Here's a comprehensive"; Star false any;
          litsI "migrations."] ].

Definition remove_fluff (content : str) : str :=
  fold_left (fun cleaned_content pattern => re_sub pattern [] cleaned_content)
    fluff_patterns content.

(** [^(\d+)\.\s+(.+)$] *)
Definition topic_re : regex :=
  seqs [Bos; Grp 1 (Plus true Unicode.isdecimal); lits ".";
        Plus true Unicode.isspace; Grp 2 (Plus true not_nl); Eol].

Definition is_topic (line : str) : bool :=
  matches topic_re line
  && negb (Str.startswith (of_string "Q:") line)
  && (30 <? List.length line).

Definition topic_fmt (line : str) : str :=
  Str.NL :: of_string "## " ++ line ++ [Str.NL].

(** The arrow notation, written in the source as the three characters
    U+00E2 U+2020 U+2019, up to the next white space:
    [<arrow>.*?(?=\s|$)], compiled without flags. *)
Definition arrow_re : regex :=
  seqs [Lit 226%N; Lit 8224%N; Lit 8217%N; Star false not_nl;
        Ahead (Alt (Cls Unicode.isspace) Eol)].

Definition clean_answer (line : str) : str :=
  let answer_text := Str.strip (skipn 2 line) in
  let answer_text := re_sub arrow_re [] answer_text in
  let answer_text := re_sub ws_re [Str.SP] answer_text in
  Str.strip answer_text.

(** The skip patterns, each tried with [re.match(pattern, line,
    re.IGNORECASE)]. *)
Definition skip_patterns : list regex :=
  [ seqs [Bos; litsI "Perfect."];
    seqs [Bos; litsI "You said:"];
    seqs [Bos; litsI "ChatGPT said:"];
    seqs [Bos; litsI "If you want"];
    seqs [Bos; litsI "Do you want"];
    seqs [Bos; litsI "Here's a"];
    seqs [Bos; Plus true Unicode.isdecimal; litsI "+"; Star true not_nl;
          litsI "practical"];
    seqs [Bos; litsI "covering"; Star true not_nl; litsI "specifically"] ].

Definition should_skip (line : str) : bool :=
  existsb (fun pattern => matches pattern line) skip_patterns.

(** One turn of [for line in lines]; the state is [question_number] and
    [processed_lines] ([current_topic] is written and never read). *)
Definition step (st : nat * list entry) (raw : str) : nat * list entry :=
  let '(question_number, processed_lines) := st in
  let line := Str.strip raw in
  if negb (Str.nonempty line) && is_nil processed_lines then st
  else if is_topic line then (1, processed_lines ++ [Topic line])
  else if Str.startswith (of_string "Q:") line then
    let question_text := Str.strip (skipn 2 line) in
    (S question_number,
     processed_lines ++ [Question question_number question_text])
  else if Str.startswith (of_string "A:") line then
    let answer_text := clean_answer line in
    if Str.nonempty answer_text
    then (question_number, processed_lines ++ [Answer answer_text; Blank])
    else st
  else if should_skip line then st
  else if Str.nonempty line && (3 <? List.length line)
  then (question_number, processed_lines ++ [Other line])
  else st.

Definition scan (lines : list str) (st : nat * list entry) : list entry :=
  snd (fold_left step lines st).

Definition entries (content : str) : list entry :=
  scan (Str.split Str.NL (remove_fluff content)) (1, []).

Definition processed_lines (content : str) : list str :=
  map (render topic_fmt) (entries content).

(** The text written, and the counts printed and returned. *)
Definition process_db_qa (content : str) : str * (nat * nat * nat) :=
  (written (processed_lines content), counts (processed_lines content)).

End ProcessDbQa.

(** ** process_db_qa_improved.py *)

Module ProcessDbQaImproved.
Import Re Doc.

Definition fluff_patterns : list regex :=
  [ seqs [litsI "If you want, I can expand this"; Star false any;
          litsI "Do you want me to do that next?"];
    seqs [litsI "You said:"; Star true Unicode.isspace; litsI "Proceed";
          Star true Unicode.isspace; litsI "ChatGPT said:";
          Star true Unicode.isspace; litsI "Perfect."];
    seqs [litsI "Perfect. Here's a comprehensive"; Star false any;
          litsI "migrations."];
    seqs [litsI "Do you want me to"; Star false any];
    seqs [litsI "I can expand"; Star false any; litsI "specifically."];
    seqs [litsI "continuing from what we've covered"; Star false any];
    seqs [litsI "covering"; Star false any;
          litsI "cloud operations specifically."];
    litsI "Comprehensive Practical DevOps DB Q&A";
    seqs [litsI "Here's a comprehensive"; Star false any] ].

Definition remove_fluff (content : str) : str :=
  fold_left (fun cleaned_content pattern => re_sub pattern [] cleaned_content)
    fluff_patterns content.

(** [^(\d+)\.\s+[A-Z][a-zA-Z\s&]+$] *)
Definition topic_re : regex :=
  seqs [Bos; Grp 1 (Plus true Unicode.isdecimal); lits ".";
        Plus true Unicode.isspace; Cls Unicode.is_upper_ascii;
        Plus true (fun c => Unicode.is_lower_ascii c
                            || Unicode.is_upper_ascii c
                            || Unicode.isspace c || (c =? 38)%N);
        Eol].

Definition is_topic (line : str) : bool :=
  matches topic_re line
  && (20 <? List.length line)
  && negb (Str.startswith (of_string "Q:") line)
  && negb (Str.contains 63%N line).

Definition topic_fmt (line : str) : str :=
  Str.NL :: of_string "## " ++ line ++ [Str.NL].

Definition clean_answer (next_line : str) : str :=
  re_sub ws_re [Str.SP] (Str.strip (skipn 2 next_line)).

Definition skip_patterns : list regex :=
  [ seqs [Bos; litsI "Perfect."];
    seqs [Bos; litsI "You said:"];
    seqs [Bos; litsI "ChatGPT said:"];
    seqs [Bos; litsI "If you want"];
    seqs [Bos; litsI "Do you want"];
    seqs [Bos; litsI "Here's a"];
    seqs [Bos; Plus true Unicode.isdecimal; litsI "+"; Star true not_nl;
          litsI "practical"];
    seqs [Bos; litsI "covering"; Star true not_nl; litsI "specifically"];
    seqs [Bos; litsI "I can expand"];
    seqs [Bos; litsI "continuing from"] ].

Definition should_skip (line : str) : bool :=
  existsb (fun pattern => matches pattern line) skip_patterns.

(** The [while i < len(lines)] loop on the lines from index [i] on, with
    the loop that looks for the answer as the inner [fix]
    ([global_question_counter] and [current_topic] are written and never
    read). *)
Fixpoint scan (lines : list str) (question_counter : nat)
    (processed_lines : list entry) {struct lines} : list entry :=
  match lines with
  | [] => processed_lines
  | raw :: rest =>
      let line := Str.strip raw in
      if negb (Str.nonempty line) && is_nil processed_lines then
        scan rest question_counter processed_lines
      else if is_topic line then
        scan rest 1 (processed_lines ++ [Topic line])
      else if Str.startswith (of_string "Q:") line then
        let question_text := Str.strip (skipn 2 line) in
        let processed_lines :=
          processed_lines ++ [Question question_counter question_text] in
        let question_counter := S question_counter in
        (fix look (l : list str) {struct l} : list entry :=
           match l with
           | [] => processed_lines
           | raw' :: rest' =>
               let next_line := Str.strip raw' in
               if Str.startswith (of_string "A:") next_line then
                 let answer_text := clean_answer next_line in
                 scan rest' question_counter
                   (if Str.nonempty answer_text
                    then processed_lines ++ [Answer answer_text; Blank]
                    else processed_lines)
               else if negb (Str.nonempty next_line) then look rest'
               else scan l question_counter processed_lines
           end) rest
      else if should_skip line then
        scan rest question_counter processed_lines
      else scan rest question_counter processed_lines
  end.

Definition entries (content : str) : list entry :=
  scan (Str.split Str.NL (remove_fluff content)) 1 [].

Definition processed_lines (content : str) : list str :=
  map (render topic_fmt) (entries content).

Definition process_db_qa_improved (content : str) : str * (nat * nat * nat) :=
  (written (processed_lines content), counts (processed_lines content)).

End ProcessDbQaImproved.

(** ** reorder_questions.py *)

Module ReorderQuestions.
Import Re.

(** [(\d+\.\s*Q:)], the pattern of [re.split] *)
Definition marker_split_re : regex :=
  Grp 1 (seqs [Plus true Unicode.isdecimal; lits ".";
               Star true Unicode.isspace; lits "Q:"]).

(** [\d+\.\s*Q:] *)
Definition marker_re : regex :=
  seqs [Plus true Unicode.isdecimal; lits ".";
        Star true Unicode.isspace; lits "Q:"].

(** [(\d+)\.\s*Q:\s*([^\n]+)] *)
Definition question_re : regex :=
  seqs [Grp 1 (Plus true Unicode.isdecimal); lits ".";
        Star true Unicode.isspace; lits "Q:"; Star true Unicode.isspace;
        Grp 2 (Plus true not_nl)].

(** [A:\s*([^\n].*?)(?=\n\d+\.\s*Q:|\Z)] with DOTALL *)
Definition answer_re : regex :=
  seqs [lits "A:"; Star true Unicode.isspace;
        Grp 1 (Cat (Cls not_nl) (Star false any));
        Ahead (Alt (Cat (Lit Str.NL) marker_re) Eos)].

(** One turn of [for i, part in enumerate(parts)]; the state is
    [qa_pairs] and [current_qa]. *)
Definition collect (st : list str * str) (part : str) : list str * str :=
  let '(qa_pairs, current_qa) := st in
  if matches marker_re part then
    (if Str.nonempty (Str.strip current_qa)
     then qa_pairs ++ [Str.strip current_qa] else qa_pairs,
     part)
  else if Str.nonempty (Str.strip part) then (qa_pairs, current_qa ++ part)
  else st.

Definition qa_pairs (content : str) : list str :=
  let '(qa_pairs, current_qa) :=
    fold_left collect (re_split marker_split_re content) ([], []) in
  if Str.nonempty (Str.strip current_qa)
  then qa_pairs ++ [Str.strip current_qa] else qa_pairs.

Record pair : Type := mkPair {
  original_num : N;
  question : str;
  answer : str
}.

(** The [for line in lines] loop of the second way to find the answer;
    the state is [found_answer] and [answer_lines], [None] after
    [break]. *)
Fixpoint answer_scan (lines : list str) (found_answer : bool)
    (answer_lines : list str) : list str :=
  match lines with
  | [] => answer_lines
  | line :: rest =>
      if Str.startswith (of_string "A:") (Str.strip line) then
        answer_scan rest true
          (answer_lines ++ [Str.strip (skipn 2 (Str.strip line))])
      else if found_answer && Str.nonempty (Str.strip line)
              && negb (matches marker_re line) then
        answer_scan rest found_answer (answer_lines ++ [Str.strip line])
      else if found_answer && matches marker_re line then answer_lines
      else answer_scan rest found_answer answer_lines
  end.

Definition extract_answer (qa : str) : str :=
  match re_search answer_re qa with
  | Some (_, cs) =>
      match group 1 cs with
      | Some g => Str.strip g
      | None => []
      end
  | None =>
      Str.strip (Str.join [Str.SP] (answer_scan (Str.split Str.NL qa) false []))
  end.

(** What one turn of [for qa in qa_pairs] does: it appends a pair, it
    appends nothing, or [int] raises [ValueError], which nothing catches. *)
Inductive turn : Type :=
| Appended (p : pair)
| Nothing
| Raised.

(** The body of [for qa in qa_pairs].  The label is converted before the
    question text and the answer are looked at. *)
Definition structure (qa : str) : turn :=
  match re_match question_re qa with
  | Some (_, cs) =>
      match group 1 cs with
      | Some g1 =>
          match Str.int g1 with
          | Some n =>
              match group 2 cs with
              | Some g2 =>
                  let answer_text := extract_answer qa in
                  if Str.nonempty answer_text
                  then Appended (mkPair n (Str.strip g2) answer_text)
                  else Nothing
              | None => Nothing
              end
          | None => Raised
          end
      | None => Nothing
      end
  | None => Nothing
  end.

(** The loop over [qa_pairs]; [None] when a turn raises: the run ends
    there, before the output file is opened. *)
Fixpoint structured_pairs_of (qas : list str) : option (list pair) :=
  match qas with
  | [] => Some []
  | qa :: rest =>
      match structure qa with
      | Appended p =>
          match structured_pairs_of rest with
          | Some pairs => Some (p :: pairs)
          | None => None
          end
      | Nothing => structured_pairs_of rest
      | Raised => None
      end
  end.

Definition structured_pairs (content : str) : option (list pair) :=
  structured_pairs_of (qa_pairs content).

(** [list.sort(key=...)] is a stable sort by the key; it is modelled by a
    stable insertion sort. *)
Section Sort.
Variable A : Type.
Variable key : A -> N.

Fixpoint insert (x : A) (l : list A) : list A :=
  match l with
  | [] => [x]
  | y :: l' =>
      if (key x <=? key y)%N then x :: l else y :: insert x l'
  end.

Definition sort (l : list A) : list A := fold_right insert [] l.
End Sort.

Definition sorted_pairs (content : str) : option (list pair) :=
  option_map (sort original_num) (structured_pairs content).

(** [for i, pair in enumerate(structured_pairs, 1)] *)
Fixpoint emit (i : nat) (pairs : list pair) : list str :=
  match pairs with
  | [] => []
  | p :: rest =>
      (Str.show i ++ of_string ". Q: " ++ question p)
      :: (of_string "A: " ++ answer p)
      :: [] :: emit (S i) rest
  end.

Definition output_lines (content : str) : option (list str) :=
  option_map (emit 1) (sorted_pairs content).

(** The text written to the output file; [None] when the run has ended
    with the [ValueError] and nothing is written. *)
Definition reorder_questions (content : str) : option str :=
  option_map (Str.join [Str.NL]) (output_lines content).

End ReorderQuestions.

(** ** simple_clean.py *)

Module SimpleClean.
Import Re.

Definition not_dot : char -> bool := except 46%N.

Definition fluff_patterns : list regex :=
  [ seqs [litsI " I can keep going and expand this all the way to 100+ questions";
          Star true not_dot; litsI "."];
    seqs [litsI " Do you want me to continue to #100?"; Star true not_dot;
          litsI "."];
    seqs [litsI " You said:"; Star true Unicode.isspace; litsI "Proceed";
          Star true Unicode.isspace; litsI "ChatGPT said:";
          Star true Unicode.isspace; litsI "Perfect."; Star true not_dot;
          litsI "."];
    seqs [litsI " If you want, I can continue"; Star true not_dot; litsI "."];
    litsI " Do you want me to proceed with that?";
    litsI " Do you want me to continue with that?";
    litsI " Do you want me to make that next?";
    seqs [litsI " I can also create"; Star true not_dot; litsI "."];
    seqs [litsI " This brings us to "; Plus true Unicode.isdecimal;
          Star true not_dot; litsI "."];
    seqs [litsI " We've now covered"; Star true not_dot; litsI "."];
    seqs [litsI " At this point"; Star true not_dot; litsI "."];
    litsI " to #100? Perfect. Let's continue expanding your practical CI/CD interview Q&A from #66 onward, keeping it highly realistic, scenario-driven, and DevOps-focused.";
    seqs [litsI " Perfect. Let's continue"; Star true not_dot;
          litsI "DevOps-focused."];
    seqs [litsI " continuing from #"; Plus true Unicode.isdecimal;
          litsI " onward"; Star true not_dot; litsI "."];
    seqs [litsI " from #"; Plus true Unicode.isdecimal;
          litsI " all the way to"; Star true not_dot; litsI "."];
    seqs [litsI " going into extreme"; Star true not_dot; litsI "."];
    seqs [litsI " covering"; Star true not_dot; litsI "interview";
          Star true not_dot; litsI "."];
    seqs [litsI " giving you a"; Star true not_dot; litsI "Q&A";
          Star true not_dot; litsI "."];
    seqs [litsI " create a"; Star true not_dot; litsI "master-level";
          Star true not_dot; litsI "."];
    seqs [litsI " DevOps interview"; Star true not_dot; litsI "."];
    litsI " me to continue.";
    litsI " me to proceed." ].

Definition remove_fluff (content : str) : str :=
  fold_left (fun cleaned_content pattern => re_sub pattern [] cleaned_content)
    fluff_patterns content.

(** Two spaces and more: [  +] *)
Definition spaces_re : regex :=
  seqs [Lit Str.SP; Plus true (only Str.SP)].

(** [\.+] *)
Definition dots_re : regex := Plus true (only 46%N).

(** The text written to the output file. *)
Definition simple_clean (content : str) : str :=
  let cleaned_content := remove_fluff content in
  let cleaned_content := re_sub spaces_re [Str.SP] cleaned_content in
  re_sub dots_re [46%N] cleaned_content.

End SimpleClean.

(** ** Vocabulary of the properties *)

Module ReorderSpec.
Import Re ReorderQuestions.

(** What [structure] extracts from a piece, when [int] does not raise,
    before it looks whether the answer is empty. *)
Definition parse (qa : str) : option pair :=
  match re_match question_re qa with
  | Some (_, cs) =>
      match group 1 cs with
      | Some g1 =>
          match Str.int g1 with
          | Some n =>
              match group 2 cs with
              | Some g2 => Some (mkPair n (Str.strip g2) (extract_answer qa))
              | None => None
              end
          | None => None
          end
      | None => None
      end
  | None => None
  end.

(** The label of a piece that starts with a question marker: the digits
    before the period. *)
Definition label (qa : str) : option str :=
  match re_match question_re qa with
  | Some (_, cs) => group 1 cs
  | None => None
  end.

(** The label of the piece, when it has one, is not too long for [int]. *)
Definition fits (qa : str) : bool :=
  match label qa with
  | Some g1 => (List.length g1 <=? Str.int_max_str_digits)%nat
  | None => true
  end.

(** No piece of the document has a label of more than
    [Str.int_max_str_digits] digits. *)
Definition labels_fit (content : str) : bool :=
  forallb fits (qa_pairs content).

Fixpoint parsed_pairs_of (qas : list str) : list pair :=
  match qas with
  | [] => []
  | qa :: rest =>
      match parse qa with
      | Some p => p :: parsed_pairs_of rest
      | None => parsed_pairs_of rest
      end
  end.

Definition parsed_pairs (content : str) : list pair :=
  parsed_pairs_of (qa_pairs content).

Definition has_answer (p : pair) : bool := Str.nonempty (answer p).

(** The pairs with the numbers 1, 2, ... in front. *)
Definition numbered (pairs : list pair) : list (nat * pair) :=
  combine (seq 1 (List.length pairs)) pairs.

(** The three lines the script writes for the pair numbered [i]. *)
Definition pair_lines (ip : nat * pair) : list str :=
  [Str.show (fst ip) ++ of_string ". Q: " ++ question (snd ip);
   of_string "A: " ++ answer (snd ip);
   []].

Definition by_original_num (p q : pair) : Prop :=
  (original_num p <= original_num q)%N.

Definition with_num (k : N) (p : pair) : bool := (original_num p =? k)%N.

(** A document of four pairs with the original numbers 5, 2, 2, 9. *)
Definition doc_5229 : str :=
  of_string "5. Q: e?
A: ae
2. Q: b?
A: ab
2. Q: c?
A: ac
9. Q: i?
A: ai
".

(** A label of 4301 digits. *)
Definition long_label : str := repeat 49%N 4301.

(** A document of one pair whose label has 4301 digits. *)
Definition doc_long : str :=
  long_label ++ of_string ". Q: a?
A: x
".

(** A document of two pairs numbered 2 and a third pair whose label has
    4301 digits. *)
Definition doc_22_long : str :=
  of_string "2. Q: b?
A: ab
2. Q: c?
A: ac
" ++ long_label ++ of_string ". Q: z?
A: az
".

End ReorderSpec.

Module Cleaner.
Import Doc.

(** What differs between the three cleaning scripts in how an entry is
    made: the test for a heading, the entries of a heading, the cleaning
    of an answer, and the lines that are passed through. *)
Record variant : Type := mkVariant {
  v_is_topic : str -> bool;
  v_topic : str -> list entry;
  v_clean_answer : str -> str;
  v_passes : str -> bool
}.

Definition clean_db_final_v : variant :=
  mkVariant CleanDbFinal.is_topic (fun line => [Topic line; Blank])
    CleanDbFinal.clean_answer (fun _ => false).

Definition process_db_qa_v : variant :=
  mkVariant ProcessDbQa.is_topic (fun line => [Topic line])
    ProcessDbQa.clean_answer
    (fun line => negb (Str.startswith (of_string "Q:") line)
                 && negb (Str.startswith (of_string "A:") line)
                 && negb (ProcessDbQa.should_skip line)
                 && (3 <? List.length line)).

Definition process_db_qa_improved_v : variant :=
  mkVariant ProcessDbQaImproved.is_topic (fun line => [Topic line])
    ProcessDbQaImproved.clean_answer (fun _ => false).

(** The states (question counter, entries appended so far) a cleaning
    script can be in while it reads [lines]: each rule is one of the
    places where a script appends to [processed_lines]. *)
Inductive reach (v : variant) (lines : list str) : nat -> list entry -> Prop :=
| reach_start : reach v lines 1 []
| reach_topic qn acc raw :
    reach v lines qn acc -> In raw lines ->
    v_is_topic v (Str.strip raw) = true ->
    reach v lines 1 (acc ++ v_topic v (Str.strip raw))
| reach_question qn acc raw :
    reach v lines qn acc -> In raw lines ->
    Str.startswith (of_string "Q:") (Str.strip raw) = true ->
    reach v lines (S qn)
      (acc ++ [Question qn (Str.strip (skipn 2 (Str.strip raw)))])
| reach_answer qn acc raw :
    reach v lines qn acc -> In raw lines ->
    Str.startswith (of_string "A:") (Str.strip raw) = true ->
    Str.nonempty (v_clean_answer v (Str.strip raw)) = true ->
    reach v lines qn
      (acc ++ [Answer (v_clean_answer v (Str.strip raw)); Blank])
| reach_other qn acc raw :
    reach v lines qn acc -> In raw lines ->
    v_passes v (Str.strip raw) = true ->
    reach v lines qn (acc ++ [Other (Str.strip raw)]).

(** The result of the loop that looks for the answer of a question: the
    answer line and the lines after it, or the lines at which the outer
    loop goes on when there is no answer. *)
Inductive lookup : Type :=
| Found (next_line : str) (rest : list str)
| NotFound (rest : list str).

Fixpoint find_answer (skippable : str -> bool) (l : list str) : lookup :=
  match l with
  | [] => NotFound []
  | raw' :: rest' =>
      let next_line := Str.strip raw' in
      if Str.startswith (of_string "A:") next_line then Found next_line rest'
      else if skippable next_line then find_answer skippable rest'
      else NotFound l
  end.

(** The lines the answer search of [clean_db_final] steps over, and
    those the search of [process_db_qa_improved] steps over. *)
Definition skippable_final (next_line : str) : bool :=
  Str.nonempty next_line && negb (Str.startswith (of_string "Q:") next_line).

Definition skippable_improved (next_line : str) : bool :=
  negb (Str.nonempty next_line).

(** Kinds of input lines, after stripping. *)
Definition is_blank (raw : str) : bool := negb (Str.nonempty (Str.strip raw)).
Definition is_question (raw : str) : bool :=
  Str.startswith (of_string "Q:") (Str.strip raw).
Definition is_answer (raw : str) : bool :=
  Str.startswith (of_string "A:") (Str.strip raw).

(** A line that is not blank and starts with neither marker. *)
Definition is_plain (raw : str) : bool :=
  Str.nonempty (Str.strip raw) && negb (is_question raw)
  && negb (is_answer raw).

(** Where the answer search of [process_db_qa_improved] gives up: at the
    end of the input or at a line that is neither blank nor an answer. *)
Definition stops_improved (rest : list str) : bool :=
  match rest with
  | [] => true
  | x :: _ => negb (is_blank x) && negb (is_answer x)
  end.

(** Where the answer search of [clean_db_final] gives up: at the end of
    the input, at a blank line or at a question. *)
Definition stops_final (rest : list str) : bool :=
  match rest with
  | [] => true
  | x :: _ => is_blank x || is_question x
  end.

(** The question numbers of the entries, one list for each topic scope:
    the scopes that a later heading has closed, and the scope that is
    open; the first scope is the one before any heading. *)
Definition scope_step (st : list (list nat) * list nat) (e : entry)
    : list (list nat) * list nat :=
  match e with
  | Topic _ => (fst st ++ [snd st], [])
  | Question n _ => (fst st, snd st ++ [n])
  | _ => st
  end.

Definition scopes_of (es : list entry) : list (list nat) * list nat :=
  fold_left scope_step es ([], []).

Definition scopes (es : list entry) : list (list nat) :=
  fst (scopes_of es) ++ [snd (scopes_of es)].

(** A scope is numbered 1, 2, ..., K. *)
Definition contiguous (sc : list nat) : Prop := sc = seq 1 (List.length sc).

(** Where an entry comes from: a line of the input and the branch of
    the loop that appends it. *)
Definition entry_from (v : variant) (lines : list str) (e : entry) : Prop :=
  match e with
  | Topic line =>
      exists raw, In raw lines /\ line = Str.strip raw
                  /\ v_is_topic v line = true
  | Blank => True
  | Question n text =>
      1 <= n
      /\ exists raw, In raw lines
                     /\ Str.startswith (of_string "Q:") (Str.strip raw) = true
                     /\ text = Str.strip (skipn 2 (Str.strip raw))
  | Answer text =>
      text <> []
      /\ exists raw, In raw lines
                     /\ Str.startswith (of_string "A:") (Str.strip raw) = true
                     /\ text = v_clean_answer v (Str.strip raw)
  | Other line =>
      exists raw, In raw lines /\ line = Str.strip raw
                  /\ v_passes v line = true
  end.

(** The two formats of a heading. *)
Definition topic_shape (v : variant) : Prop :=
  forall line, v_topic v line = [Topic line; Blank]
               \/ v_topic v line = [Topic line].

(** A question entry carries a positive number and the stripped rest of
    an input line that starts with the marker; its text is empty exactly
    when that line is the bare marker. *)
Definition question_from (lines : list str) (e : entry) : Prop :=
  match e with
  | Question n text =>
      1 <= n
      /\ exists raw,
           In raw lines
           /\ Str.startswith (of_string "Q:") (Str.strip raw) = true
           /\ text = Str.strip (skipn 2 (Str.strip raw))
           /\ (text = [] <-> Str.strip raw = of_string "Q:")
  | _ => True
  end.

(** The pattern of the claim: a number, [". Q: "], and a text that is
    not empty. *)
Definition full_question_re : Re.regex :=
  Re.seqs [Re.Bos; Re.Plus true Unicode.isdecimal; Re.lits ". Q: ";
           Re.Plus true Re.any; Re.Eos].

(** The counts over the lines of the document that was written. *)
Definition doc_counts (text : str) : nat * nat * nat :=
  counts (Str.split Str.NL text).

Definition doc_topic_question_answer : str :=
  of_string "1. Database Operations & Reliability
Q: a
A: b".

End Cleaner.

Module Text.

(** The text after the longest prefix of characters in [p], and the
    length of that prefix. *)
Fixpoint drop_while (p : char -> bool) (s : str) : str :=
  match s with
  | c :: s' => if p c then drop_while p s' else s
  | [] => []
  end.

Fixpoint run_length (p : char -> bool) (s : str) : nat :=
  match s with
  | c :: s' => if p c then S (run_length p s') else 0
  | [] => 0
  end.

(** Every maximal run of characters in [p] replaced by the one character
    [x]: a character in [p] is dropped when the next one is in [p] too, and
    becomes [x] when it is the last of its run. *)
Fixpoint squeeze (p : char -> bool) (x : char) (s : str) : str :=
  match s with
  | [] => []
  | c :: s' =>
      if p c then
        match s' with
        | d :: _ => if p d then squeeze p x s' else x :: squeeze p x s'
        | [] => [x]
        end
      else c :: squeeze p x s'
  end.

(** No two characters in [p] next to each other. *)
Fixpoint no_run (p : char -> bool) (s : str) : bool :=
  match s with
  | c :: s' =>
      match s' with
      | d :: _ => negb (p c && p d)
      | [] => true
      end && no_run p s'
  | [] => true
  end.

(** White space collapsed: no two white-space characters next to each
    other, and no white-space character but the space. *)
Definition collapsed (s : str) : bool :=
  no_run Unicode.isspace s
  && forallb (fun c => negb (Unicode.isspace c) || (c =? Str.SP)%N) s.


(** No pattern of the list has a match anywhere in the text. *)
Definition no_match (patterns : list Re.regex) (text : str) : bool :=
  forallb (fun pattern =>
             match Re.re_search pattern text with
             | None => true
             | Some _ => false
             end) patterns.

(** Two texts that differ in white space only. *)
Fixpoint eqb (a b : str) : bool :=
  match a, b with
  | [], [] => true
  | c :: a', d :: b' => (c =? d)%N && eqb a' b'
  | _, _ => false
  end.

Definition same_modulo_whitespace (a b : str) : bool :=
  eqb (filter (fun c => negb (Unicode.isspace c)) a)
      (filter (fun c => negb (Unicode.isspace c)) b).

Definition dot : char := 46%N.

End Text.

Module Lines.

(** A string without a newline. *)
Definition nl_free (s : str) : bool :=
  forallb (fun c => negb (c =? Str.NL)%N) s.

(** The lines of the document written. *)
Definition lines_of (text : str) : list str := Str.split Str.NL text.

(** No line of the text is matched by one of the skip patterns. *)
Definition skip_free (should_skip : str -> bool) (text : str) : bool :=
  forallb (fun line => negb (should_skip line)) (lines_of text).

(** What a skip test does on the lines a script writes by itself: the
    empty line, a heading (it starts with [#]), an answer (it starts with
    [A]) and a question (a number and a period). *)
Definition skips_no_own_line (should_skip : str -> bool) : Prop :=
  should_skip [] = false
  /\ (forall s, should_skip (35%N :: s) = false)
  /\ (forall s, should_skip (65%N :: s) = false)
  /\ (forall d ds s,
         Forall (fun c => Unicode.is_ascii_digit c = true) (d :: ds) ->
         should_skip ((d :: ds) ++ 46%N :: s) = false).

Definition filler_lines : str :=
  of_string "Do you want me to continue?
Do you want me to continue with that?".

Definition nested_filler : str :=
  of_string "Comprehensive Practical DevOps DB Comprehensive Practical DevOps DB Q&AQ&A".

End Lines.

Module Samples.

Definition primary_key : str :=
  of_string "Q: What is a primary key?
A: A column that uniquely identifies a row.
".

Definition two_topics : str :=
  of_string "Q: before any heading
A: u
1. Database Operations & Reliability
Q: a
A: x
Q: b
A: y
Q: c
A: z
2. Networking & Load Balancing Basics
Q: d
A: w
Q: e
A: v".

End Samples.

(** ** simple_clean.py: the counts printed *)

Module SimpleCleanCounts.
Import Re.

(** [len(re.findall(r, s, re.MULTILINE))] for a pattern whose only anchor
    is a [^] at its start.  Under MULTILINE that [^] holds at the start of
    the text and after each newline: the flag handed to the matcher says
    whether the position is at the start of a line.  The matches are
    counted from left to right and do not overlap; [skip] counts the
    characters of the current match that are still to be passed. *)
Fixpoint count_from (r : regex) (line_start : bool) (skip : nat) (s : str)
    {struct s} : nat :=
  match skip with
  | S n =>
      match s with
      | c :: s' => count_from r (c =? Str.NL)%N n s'
      | [] => 0
      end
  | O =>
      match match_at r line_start s with
      | Some (rest, _) =>
          match List.length s - List.length rest with
          | S n =>
              S (match s with
                 | c :: s' => count_from r (c =? Str.NL)%N n s'
                 | [] => 0
                 end)
          | O =>
              S (match s with
                 | c :: s' => count_from r (c =? Str.NL)%N 0 s'
                 | [] => 0
                 end)
          end
      | None =>
          match s with
          | c :: s' => count_from r (c =? Str.NL)%N 0 s'
          | [] => 0
          end
      end
  end.

Definition findall_count (r : regex) (s : str) : nat := count_from r true 0 s.

(** [^\d+\.\s*Q:] and [^A:] *)
Definition question_line_re : regex :=
  seqs [Bos; Plus true Unicode.isdecimal; lits ".";
        Star true Unicode.isspace; lits "Q:"].

Definition answer_line_re : regex := seqs [Bos; lits "A:"].

(** [question_count] and [answer_count], taken over the text written. *)
Definition counts (content : str) : nat * nat :=
  let cleaned_content := SimpleClean.simple_clean content in
  (findall_count question_line_re cleaned_content,
   findall_count answer_line_re cleaned_content).

(** A line that starts with [A:], and the number of such lines after the
    first line of a text. *)
Definition sw : str -> bool := Str.startswith (of_string "A:").

Definition later_lines (s : str) : nat :=
  Doc.count sw (tl (Str.split Str.NL s)).

End SimpleCleanCounts.

(** ** More vocabulary *)

Module Lookahead.
Import Doc Cleaner.

(** What differs between the two scripts that look ahead for the answer. *)
Record config : Type := mkConfig {
  c_is_topic : str -> bool;
  c_topic : str -> list entry;
  c_clean : str -> str;
  c_skippable : str -> bool
}.

Definition final_c : config :=
  mkConfig CleanDbFinal.is_topic (fun line => [Topic line; Blank])
    CleanDbFinal.clean_answer skippable_final.

Definition improved_c : config :=
  mkConfig ProcessDbQaImproved.is_topic (fun line => [Topic line])
    ProcessDbQaImproved.clean_answer skippable_improved.

Definition question_text (raw : str) : str :=
  Str.strip (skipn 2 (Str.strip raw)).

Definition asked (qn : nat) (raw : str) (acc : list entry) : list entry :=
  acc ++ [Question qn (question_text raw)].

Definition answered (c : config) (a : str) (acc : list entry) : list entry :=
  if Str.nonempty (c_clean c (Str.strip a))
  then acc ++ [Answer (c_clean c (Str.strip a)); Blank]
  else acc.

(** A line the answer search steps over, and the lines at which it gives
    up. *)
Definition skipped (c : config) (x : str) : Prop :=
  is_answer x = false /\ c_skippable c (Str.strip x) = true.

Definition gives_up (c : config) (rest : list str) : Prop :=
  match rest with
  | [] => True
  | x :: _ => is_answer x = false /\ c_skippable c (Str.strip x) = false
  end.

(** One run of the outer loop, from the lines left, the counter and the
    entries so far to the entries at the end. *)
Inductive run (c : config) : list str -> nat -> list entry -> list entry -> Prop :=
| run_end qn acc : run c [] qn acc acc
| run_lead raw rest qn acc r :
    is_blank raw = true -> acc = [] ->
    run c rest qn acc r -> run c (raw :: rest) qn acc r
| run_topic raw rest qn acc r :
    c_is_topic c (Str.strip raw) = true -> is_question raw = false ->
    is_answer raw = false ->
    run c rest 1 (acc ++ c_topic c (Str.strip raw)) r ->
    run c (raw :: rest) qn acc r
| run_answered raw pre a rest qn acc r :
    is_question raw = true -> Forall (skipped c) pre -> is_answer a = true ->
    run c rest (S qn) (answered c a (asked qn raw acc)) r ->
    run c (raw :: pre ++ a :: rest) qn acc r
| run_unanswered raw pre rest qn acc r :
    is_question raw = true -> Forall (skipped c) pre -> gives_up c rest ->
    run c rest (S qn) (asked qn raw acc) r ->
    run c (raw :: pre ++ rest) qn acc r
| run_drop raw rest qn acc r :
    is_question raw = false -> c_is_topic c (Str.strip raw) = false ->
    run c rest qn acc r -> run c (raw :: rest) qn acc r.

(** A single pass over the lines with one flag, [waiting]: a question has
    been written and its answer is looked for. *)
Definition pass_step (c : config) (st : bool * nat * list entry) (raw : str)
    : bool * nat * list entry :=
  let '(waiting, qn, acc) := st in
  let line := Str.strip raw in
  if waiting && Str.startswith (of_string "A:") line then
    (false, qn, answered c raw acc)
  else if waiting && c_skippable c line then (true, qn, acc)
  else if negb (Str.nonempty line) && is_nil acc then (false, qn, acc)
  else if c_is_topic c line then (false, 1, acc ++ c_topic c line)
  else if Str.startswith (of_string "Q:") line then
    (true, S qn, asked qn raw acc)
  else (false, qn, acc).

Definition pass (c : config) (lines : list str) (st : bool * nat * list entry)
    : list entry :=
  snd (fold_left (pass_step c) lines st).

End Lookahead.

Module Kept.
Import Doc.

(** The texts of the question entries and of the answer entries, in their
    order. *)
Definition question_texts (es : list entry) : list str :=
  flat_map (fun e => match e with Question _ text => [text] | _ => [] end) es.

Definition answer_texts (es : list entry) : list str :=
  flat_map (fun e => match e with Answer text => [text] | _ => [] end) es.

(** The answer text [process_db_qa] makes of an input line. *)
Definition cleaned_answer (raw : str) : str :=
  ProcessDbQa.clean_answer (Str.strip raw).

Definition is_topic_entry (e : entry) : bool :=
  match e with Topic _ => true | _ => false end.
Definition is_question_entry (e : entry) : bool :=
  match e with Question _ _ => true | _ => false end.
Definition is_answer_entry (e : entry) : bool :=
  match e with Answer _ => true | _ => false end.
Definition is_other_entry (e : entry) : bool :=
  match e with Other _ => true | _ => false end.

(** The numbers of headings, questions and answers among the entries. *)
Definition tally (es : list entry) : nat * nat * nat :=
  (List.length (filter is_topic_entry es),
   List.length (filter is_question_entry es),
   List.length (filter is_answer_entry es)).

(** Every answer entry comes directly after a question entry and directly
    before a blank entry; [after_question] says whether the entry before the
    list is a question. *)
Fixpoint answers_placed (after_question : bool) (es : list entry) : bool :=
  match es with
  | [] => true
  | Answer _ :: es' =>
      after_question
      && match es' with Blank :: _ => true | _ => false end
      && answers_placed false es'
  | Question _ _ :: es' => answers_placed true es'
  | _ :: es' => answers_placed false es'
  end.

(** Whether the last entry is a question; [b] is the answer for the empty
    list. *)
Fixpoint last_question (b : bool) (es : list entry) : bool :=
  match es with
  | [] => b
  | e :: es' => last_question (is_question_entry e) es'
  end.

(** [a] is [b] with some characters left out. *)
Inductive subseq (A : Type) : list A -> list A -> Prop :=
| subseq_nil : subseq [] []
| subseq_keep c a b : subseq a b -> subseq (c :: a) (c :: b)
| subseq_drop c a b : subseq a b -> subseq a (c :: b).

Fixpoint nondecreasing (l : list N) : bool :=
  match l with
  | a :: l' =>
      match l' with
      | b :: _ => (a <=? b)%N
      | [] => true
      end && nondecreasing l'
  | [] => true
  end.

(** The lines a script that passes nothing through writes by itself: the
    empty line, a heading (it starts with [#]), an answer (it starts with
    [A]) and a question (a number, a period, a space and the marker). *)
Definition own_line (l : str) : Prop :=
  l = []
  \/ (exists x : str, l = @cons char 35%N x)
  \/ (exists x : str, l = @cons char 65%N x)
  \/ (exists (d : char) (ds x : str),
         Forall (fun c => Unicode.is_ascii_digit c = true) (d :: ds)
         /\ l = (d :: ds) ++ of_string ". Q:" ++ x).

(** No piece at the end of the text is white space only. *)
Definition ends_in_text (s : str) : Prop :=
  forall pre t, s = pre ++ t -> forallb Unicode.isspace t = true -> t = [].

(** A document whose pairs are numbered in order already, with a number
    that occurs twice. *)
Definition doc_1337 : str :=
  of_string "1. Q: a?
A: x
3. Q: b?
A: y
3. Q: c?
A: z
7. Q: d?
A: w
".

(** An entry without its question number. *)
Definition unnumbered (e : entry) : entry :=
  match e with
  | Question _ text => Question 0 text
  | _ => e
  end.

(** What one line gives in [process_db_qa], read by itself: a heading, a
    question (here without its number), an answer and a blank entry, the
    line itself, or nothing. *)
Definition line_entries (raw : str) : list entry :=
  let line := Str.strip raw in
  if ProcessDbQa.is_topic line then [Topic line]
  else if Str.startswith (of_string "Q:") line
  then [Question 0 (Str.strip (skipn 2 line))]
  else if Str.startswith (of_string "A:") line
  then (if Str.nonempty (ProcessDbQa.clean_answer line)
        then [Answer (ProcessDbQa.clean_answer line); Blank] else [])
  else if ProcessDbQa.should_skip line then []
  else if 3 <? List.length line then [Other line]
  else [].

(** The run of the reorder script does not raise and the original
    numbers of the pairs it keeps never decrease. *)
Definition ordered_run (content : str) : bool :=
  match ReorderQuestions.structured_pairs content with
  | Some pairs => nondecreasing (map ReorderQuestions.original_num pairs)
  | None => false
  end.

End Kept.

(** ** The groups of a match *)

Module Groups.
Import Re.

(** The pattern has a group numbered [i]. *)
Fixpoint binds (i : nat) (r : regex) : bool :=
  match r with
  | Cat r1 r2 | Alt r1 r2 => binds i r1 || binds i r2
  | Grp j r1 => (j =? i)%nat || binds i r1
  | Ahead r1 => binds i r1
  | _ => false
  end.

(** A continuation that leaves group [i] as it finds it. *)
Definition keeps (i : nat) (k : cont) : Prop :=
  forall bos s cs x, k bos s cs = Some x -> group i (snd x) = group i cs.

End Groups.

(** * Properties *)

(** ** Strings *)

Module StrFacts.

Lemma uint_chars_digits (u : Decimal.uint) :
  Forall (fun c => Unicode.is_ascii_digit c = true) (Str.uint_chars u).
Proof. induction u; simpl; constructor; auto. Qed.

Lemma show_digits (n : nat) :
  Forall (fun c => Unicode.is_ascii_digit c = true) (Str.show n).
Proof. apply uint_chars_digits. Qed.

Lemma show_nonempty (n : nat) : Str.show n <> [].
Proof.
  unfold Str.show.
  assert (H : Nat.to_uint n <> Decimal.Nil).
  { rewrite <- (DecimalNat.Unsigned.of_to n) at 1.
    rewrite DecimalNat.Unsigned.to_of. apply DecimalFacts.unorm_nonnil. }
  destruct (Nat.to_uint n); simpl; congruence.
Qed.

Lemma show_head (n : nat) :
  exists d ds, Str.show n = d :: ds /\ Unicode.is_ascii_digit d = true
               /\ Forall (fun c => Unicode.is_ascii_digit c = true) ds.
Proof.
  pose proof (show_nonempty n) as Hn. pose proof (show_digits n) as Hd.
  destruct (Str.show n) as [|d ds]; [congruence|].
  inversion Hd; subst. eauto.
Qed.

Lemma ascii_digit_cases (c : char) :
  Unicode.is_ascii_digit c = true ->
  c = 48%N \/ c = 49%N \/ c = 50%N \/ c = 51%N \/ c = 52%N
  \/ c = 53%N \/ c = 54%N \/ c = 55%N \/ c = 56%N \/ c = 57%N.
Proof.
  unfold Unicode.is_ascii_digit, Unicode.between. intro H.
  apply andb_true_iff in H as [H1 H2].
  apply N.leb_le in H1, H2. lia.
Qed.

Lemma ascii_digit_isdecimal (c : char) :
  Unicode.is_ascii_digit c = true -> Unicode.isdecimal c = true.
Proof.
  intro H. apply ascii_digit_cases in H.
  repeat (destruct H as [H|H]; [subst; reflexivity|]). subst. reflexivity.
Qed.

End StrFacts.



(** ** The reorder script *)

Module ReorderFacts.
Import Re ReorderQuestions ReorderSpec.

Section SortFacts.
Variable A : Type.
Variable key : A -> N.

Lemma insert_perm (x : A) (l : list A) :
  Permutation (x :: l) (insert key x l).
Proof.
  induction l as [|y l IH]; simpl; [reflexivity|].
  destruct (key x <=? key y)%N; [reflexivity|].
  rewrite perm_swap. now constructor.
Qed.

Lemma sort_perm (l : list A) : Permutation l (sort key l).
Proof.
  induction l as [|x l IH]; simpl; [constructor|].
  rewrite <- insert_perm. now constructor.
Qed.

Lemma insert_sorted (x : A) (l : list A) :
  StronglySorted (fun a b => (key a <= key b)%N) l ->
  StronglySorted (fun a b => (key a <= key b)%N) (insert key x l).
Proof.
  induction 1 as [|y l Hs IH Hy]; simpl.
  - repeat constructor.
  - destruct (key x <=? key y)%N eqn:E.
    + apply N.leb_le in E. constructor; [now constructor|].
      constructor; [exact E|].
      eapply Forall_impl; [|exact Hy].
      intros z Hz. cbv beta in *. lia.
    + apply N.leb_gt in E. constructor; [exact IH|].
      eapply Permutation_Forall; [apply insert_perm|].
      constructor; [cbv beta; lia | exact Hy].
Qed.

Lemma sort_sorted (l : list A) :
  StronglySorted (fun a b => (key a <= key b)%N) (sort key l).
Proof.
  induction l as [|x l IH]; simpl; [constructor|].
  now apply insert_sorted.
Qed.

(** Stability: the elements of one key keep their order. *)
Lemma insert_filter (k : N) (x : A) (l : list A) :
  filter (fun a => (key a =? k)%N) (insert key x l)
  = filter (fun a => (key a =? k)%N) (x :: l).
Proof.
  induction l as [|y l IH]; [reflexivity|].
  simpl insert. destruct (key x <=? key y)%N eqn:E; [reflexivity|].
  apply N.leb_gt in E.
  simpl. rewrite IH. simpl.
  destruct (key y =? k)%N eqn:Ey, (key x =? k)%N eqn:Ex; try reflexivity.
  apply N.eqb_eq in Ey, Ex. lia.
Qed.

Lemma sort_stable (k : N) (l : list A) :
  filter (fun a => (key a =? k)%N) (sort key l)
  = filter (fun a => (key a =? k)%N) l.
Proof.
  induction l as [|x l IH]; [reflexivity|].
  simpl sort. rewrite insert_filter. simpl. now rewrite IH.
Qed.

Lemma sort_length (l : list A) : List.length (sort key l) = List.length l.
Proof. symmetry. apply Permutation_length, sort_perm. Qed.
End SortFacts.

Lemma emit_numbered (i : nat) (pairs : list pair) :
  emit i pairs
  = flat_map pair_lines (combine (seq i (List.length pairs)) pairs).
Proof.
  revert i. induction pairs as [|p pairs IH]; intro i; [reflexivity|].
  simpl. now rewrite IH.
Qed.

Lemma numbered_fst (i : nat) (pairs : list pair) :
  map fst (combine (seq i (List.length pairs)) pairs)
  = seq i (List.length pairs).
Proof.
  revert i. induction pairs as [|p pairs IH]; intro i; [reflexivity|].
  simpl. now rewrite IH.
Qed.

End ReorderFacts.

(** ** The cleaning scripts as transition systems *)

Module CleanerFacts.
Import Doc Cleaner.

(** *** The loop that looks for the answer *)

Lemma find_answer_found (sk : str -> bool) (l : list str) (a : str)
    (rest' : list str) :
  find_answer sk l = Found a rest' ->
  exists pre raw',
    l = pre ++ raw' :: rest' /\ a = Str.strip raw'
    /\ Str.startswith (of_string "A:") a = true
    /\ Forall (fun x => Str.startswith (of_string "A:") (Str.strip x) = false
                        /\ sk (Str.strip x) = true) pre.
Proof.
  induction l as [|x l IH]; [discriminate|].
  cbn [find_answer].
  destruct (Str.startswith (of_string "A:") (Str.strip x)) eqn:EA.
  - intros [= <- <-]. exists [], x. repeat split; auto.
  - destruct (sk (Str.strip x)) eqn:ES; [|discriminate].
    intro H. destruct (IH H) as (pre & raw' & -> & Ha & HA & Hpre).
    exists (x :: pre), raw'. repeat split; auto.
Qed.

Lemma find_answer_not_found (sk : str -> bool) (l rest' : list str) :
  find_answer sk l = NotFound rest' ->
  exists pre,
    l = pre ++ rest'
    /\ Forall (fun x => Str.startswith (of_string "A:") (Str.strip x) = false
                        /\ sk (Str.strip x) = true) pre
    /\ match rest' with
       | [] => True
       | x :: _ => Str.startswith (of_string "A:") (Str.strip x) = false
                   /\ sk (Str.strip x) = false
       end.
Proof.
  induction l as [|x l IH].
  - intros [= <-]. exists []. repeat split; auto.
  - cbn [find_answer].
    destruct (Str.startswith (of_string "A:") (Str.strip x)) eqn:EA;
      [discriminate|].
    destruct (sk (Str.strip x)) eqn:ES.
    + intro H. destruct (IH H) as (pre & -> & Hpre & Hr).
      exists (x :: pre). repeat split; auto.
    + intros [= <-]. exists []. repeat split; auto.
Qed.

(** The search steps over the lines it may skip and stops at the first
    answer line. *)
Lemma find_answer_skip (sk : str -> bool) (pre : list str) (l : list str) :
  Forall (fun x => Str.startswith (of_string "A:") (Str.strip x) = false
                   /\ sk (Str.strip x) = true) pre ->
  find_answer sk (pre ++ l) = find_answer sk l.
Proof.
  induction 1 as [|x pre [HA HS] _ IH]; [reflexivity|].
  cbn [app find_answer]. now rewrite HA, HS.
Qed.

Lemma find_answer_length (sk : str -> bool) (l : list str) :
  match find_answer sk l with
  | Found _ rest' | NotFound rest' =>
      List.length rest' <= List.length l /\ incl rest' l
  end.
Proof.
  destruct (find_answer sk l) as [a rest'|rest'] eqn:E.
  - apply find_answer_found in E as (pre & raw' & -> & _).
    rewrite length_app. simpl. split; [lia|].
    intros x Hx. apply in_or_app. right. now right.
  - apply find_answer_not_found in E as (pre & -> & _).
    rewrite length_app. split; [lia|].
    intros x Hx. apply in_or_app. now right.
Qed.

(** *** clean_db_final *)

Lemma final_scan_cons (raw : str) (rest : list str) (qn : nat)
    (acc : list entry) :
  let line := Str.strip raw in
  CleanDbFinal.scan (raw :: rest) qn acc
  = if negb (Str.nonempty line) && is_nil acc then
      CleanDbFinal.scan rest qn acc
    else if CleanDbFinal.is_topic line then
      CleanDbFinal.scan rest 1 (acc ++ [Topic line; Blank])
    else if Str.startswith (of_string "Q:") line then
      let acc' := acc ++ [Question qn (Str.strip (skipn 2 line))] in
      match find_answer skippable_final rest with
      | Found next_line rest' =>
          CleanDbFinal.scan rest' (S qn)
            (if Str.nonempty (CleanDbFinal.clean_answer next_line)
             then acc' ++ [Answer (CleanDbFinal.clean_answer next_line); Blank]
             else acc')
      | NotFound rest' => CleanDbFinal.scan rest' (S qn) acc'
      end
    else CleanDbFinal.scan rest qn acc.
Proof.
  intro line. cbn [CleanDbFinal.scan]. fold line.
  destruct (negb (Str.nonempty line) && is_nil acc); [reflexivity|].
  destruct (CleanDbFinal.is_topic line); [reflexivity|].
  destruct (Str.startswith (of_string "Q:") line); [|reflexivity].
  cbv zeta.
  induction rest as [|raw' rest' IH]; [reflexivity|].
  cbn [find_answer].
  destruct (Str.startswith (of_string "A:") (Str.strip raw')); [reflexivity|].
  unfold skippable_final at 1.
  destruct (Str.nonempty (Str.strip raw')
            && negb (Str.startswith (of_string "Q:") (Str.strip raw')));
    [exact IH | reflexivity].
Qed.

Lemma final_scan_reach (lines0 : list str) (n : nat) :
  forall lines qn acc,
    List.length lines <= n -> incl lines lines0 ->
    reach clean_db_final_v lines0 qn acc ->
    exists qn', reach clean_db_final_v lines0 qn'
                  (CleanDbFinal.scan lines qn acc).
Proof.
  induction n as [|n IH]; intros lines qn acc Hlen Hin Hr.
  - destruct lines; [eauto | simpl in Hlen; lia].
  - destruct lines as [|raw rest]; [eauto|].
    simpl in Hlen.
    assert (Hraw : In raw lines0) by (apply Hin; now left).
    assert (Hrest : incl rest lines0)
      by (intros x Hx; apply Hin; now right).
    rewrite final_scan_cons. cbv zeta.
    destruct (negb (Str.nonempty (Str.strip raw)) && is_nil acc);
      [apply IH; auto; lia|].
    destruct (CleanDbFinal.is_topic (Str.strip raw)) eqn:ET.
    { apply IH; [lia | auto |].
      exact (@reach_topic clean_db_final_v lines0 qn acc raw Hr Hraw ET). }
    destruct (Str.startswith (of_string "Q:") (Str.strip raw)) eqn:EQ;
      [|apply IH; auto; lia].
    pose proof (@reach_question _ lines0 qn acc raw Hr Hraw EQ) as Hq.
    pose proof (find_answer_length skippable_final rest) as Hl.
    destruct (find_answer skippable_final rest) as [a rest'|rest'] eqn:EF.
    + destruct Hl as [Hl Hi].
      apply find_answer_found in EF as (pre & raw' & -> & -> & HA & _).
      assert (Hraw' : In raw' lines0).
      { apply Hrest, in_or_app. right. now left. }
      destruct (Str.nonempty (CleanDbFinal.clean_answer (Str.strip raw')))
        eqn:EN.
      * apply IH; [lia | intros x Hx; auto |].
        exact (@reach_answer clean_db_final_v lines0 (S qn) _ raw' Hq Hraw' HA EN).
      * apply IH; [lia | intros x Hx; auto | exact Hq].
    + destruct Hl as [Hl Hi].
      apply IH; [lia | intros x Hx; auto | exact Hq].
Qed.

Lemma final_entries_reach (content : str) :
  exists qn,
    reach clean_db_final_v
      (Str.split Str.NL (CleanDbFinal.remove_fluff content)) qn
      (CleanDbFinal.entries content).
Proof.
  unfold CleanDbFinal.entries.
  eapply final_scan_reach; [apply Nat.le_refl | apply incl_refl | constructor].
Qed.

(** *** process_db_qa_improved *)

Lemma improved_scan_cons (raw : str) (rest : list str) (qn : nat)
    (acc : list entry) :
  let line := Str.strip raw in
  ProcessDbQaImproved.scan (raw :: rest) qn acc
  = if negb (Str.nonempty line) && is_nil acc then
      ProcessDbQaImproved.scan rest qn acc
    else if ProcessDbQaImproved.is_topic line then
      ProcessDbQaImproved.scan rest 1 (acc ++ [Topic line])
    else if Str.startswith (of_string "Q:") line then
      let acc' := acc ++ [Question qn (Str.strip (skipn 2 line))] in
      match find_answer skippable_improved rest with
      | Found next_line rest' =>
          ProcessDbQaImproved.scan rest' (S qn)
            (if Str.nonempty (ProcessDbQaImproved.clean_answer next_line)
             then acc' ++ [Answer (ProcessDbQaImproved.clean_answer next_line);
                           Blank]
             else acc')
      | NotFound rest' => ProcessDbQaImproved.scan rest' (S qn) acc'
      end
    else ProcessDbQaImproved.scan rest qn acc.
Proof.
  intro line. cbn [ProcessDbQaImproved.scan]. fold line.
  destruct (negb (Str.nonempty line) && is_nil acc); [reflexivity|].
  destruct (ProcessDbQaImproved.is_topic line); [reflexivity|].
  destruct (Str.startswith (of_string "Q:") line);
    [|destruct (ProcessDbQaImproved.should_skip line); reflexivity].
  cbv zeta.
  induction rest as [|raw' rest' IH]; [reflexivity|].
  cbn [find_answer].
  destruct (Str.startswith (of_string "A:") (Str.strip raw')); [reflexivity|].
  unfold skippable_improved at 1.
  destruct (negb (Str.nonempty (Str.strip raw')));
    [exact IH | reflexivity].
Qed.

Lemma improved_scan_reach (lines0 : list str) (n : nat) :
  forall lines qn acc,
    List.length lines <= n -> incl lines lines0 ->
    reach process_db_qa_improved_v lines0 qn acc ->
    exists qn', reach process_db_qa_improved_v lines0 qn'
                  (ProcessDbQaImproved.scan lines qn acc).
Proof.
  induction n as [|n IH]; intros lines qn acc Hlen Hin Hr.
  - destruct lines; [eauto | simpl in Hlen; lia].
  - destruct lines as [|raw rest]; [eauto|].
    simpl in Hlen.
    assert (Hraw : In raw lines0) by (apply Hin; now left).
    assert (Hrest : incl rest lines0)
      by (intros x Hx; apply Hin; now right).
    rewrite improved_scan_cons. cbv zeta.
    destruct (negb (Str.nonempty (Str.strip raw)) && is_nil acc);
      [apply IH; auto; lia|].
    destruct (ProcessDbQaImproved.is_topic (Str.strip raw)) eqn:ET.
    { apply IH; [lia | auto |].
      exact (@reach_topic process_db_qa_improved_v lines0 qn acc raw Hr Hraw ET). }
    destruct (Str.startswith (of_string "Q:") (Str.strip raw)) eqn:EQ;
      [|apply IH; auto; lia].
    pose proof (@reach_question _ lines0 qn acc raw Hr Hraw EQ) as Hq.
    pose proof (find_answer_length skippable_improved rest) as Hl.
    destruct (find_answer skippable_improved rest) as [a rest'|rest'] eqn:EF.
    + destruct Hl as [Hl Hi].
      apply find_answer_found in EF as (pre & raw' & -> & -> & HA & _).
      assert (Hraw' : In raw' lines0).
      { apply Hrest, in_or_app. right. now left. }
      destruct (Str.nonempty
                  (ProcessDbQaImproved.clean_answer (Str.strip raw'))) eqn:EN.
      * apply IH; [lia | intros x Hx; auto |].
        exact (@reach_answer process_db_qa_improved_v lines0 (S qn) _ raw' Hq Hraw' HA EN).
      * apply IH; [lia | intros x Hx; auto | exact Hq].
    + destruct Hl as [Hl Hi].
      apply IH; [lia | intros x Hx; auto | exact Hq].
Qed.

Lemma improved_entries_reach (content : str) :
  exists qn,
    reach process_db_qa_improved_v
      (Str.split Str.NL (ProcessDbQaImproved.remove_fluff content)) qn
      (ProcessDbQaImproved.entries content).
Proof.
  unfold ProcessDbQaImproved.entries.
  eapply improved_scan_reach;
    [apply Nat.le_refl | apply incl_refl | constructor].
Qed.

(** *** process_db_qa *)

Lemma qa_step_reach (lines0 : list str) (raw : str) (st : nat * list entry) :
  In raw lines0 ->
  reach process_db_qa_v lines0 (fst st) (snd st) ->
  reach process_db_qa_v lines0 (fst (ProcessDbQa.step st raw))
    (snd (ProcessDbQa.step st raw)).
Proof.
  destruct st as [qn acc]. intros Hraw Hr. unfold ProcessDbQa.step.
  destruct (negb (Str.nonempty (Str.strip raw)) && is_nil acc); [exact Hr|].
  destruct (ProcessDbQa.is_topic (Str.strip raw)) eqn:ET.
  { exact (@reach_topic process_db_qa_v lines0 qn acc raw Hr Hraw ET). }
  destruct (Str.startswith (of_string "Q:") (Str.strip raw)) eqn:EQ.
  { exact (@reach_question _ lines0 qn acc raw Hr Hraw EQ). }
  destruct (Str.startswith (of_string "A:") (Str.strip raw)) eqn:EA.
  { destruct (Str.nonempty (ProcessDbQa.clean_answer (Str.strip raw))) eqn:EN;
      [|exact Hr].
    exact (@reach_answer process_db_qa_v lines0 qn acc raw Hr Hraw EA EN). }
  destruct (ProcessDbQa.should_skip (Str.strip raw)) eqn:ES; [exact Hr|].
  destruct (Str.nonempty (Str.strip raw) && (3 <? List.length (Str.strip raw)))
    eqn:EL; [|exact Hr].
  apply andb_true_iff in EL as [_ EL].
  apply (@reach_other process_db_qa_v lines0 qn acc raw Hr Hraw).
  cbn [v_passes process_db_qa_v]. now rewrite EQ, EA, ES, EL.
Qed.

Lemma qa_fold_reach (lines0 lines : list str) (st : nat * list entry) :
  incl lines lines0 ->
  reach process_db_qa_v lines0 (fst st) (snd st) ->
  reach process_db_qa_v lines0 (fst (fold_left ProcessDbQa.step lines st))
    (snd (fold_left ProcessDbQa.step lines st)).
Proof.
  revert st. induction lines as [|raw rest IH]; intros st Hin Hr; [exact Hr|].
  cbn [fold_left]. apply IH.
  - intros x Hx. apply Hin. now right.
  - apply qa_step_reach; [apply Hin; now left | exact Hr].
Qed.

Lemma qa_entries_reach (content : str) :
  exists qn,
    reach process_db_qa_v
      (Str.split Str.NL (ProcessDbQa.remove_fluff content)) qn
      (ProcessDbQa.entries content).
Proof.
  unfold ProcessDbQa.entries, ProcessDbQa.scan.
  eexists. apply (@qa_fold_reach _ _ (1, [])); [apply incl_refl|].
  constructor.
Qed.

End CleanerFacts.

(** ** [strip] *)

Module StripFacts.

Lemma lstrip_head (s : str) (c : char) (t : str) :
  Str.lstrip s = c :: t -> Unicode.isspace c = false.
Proof.
  induction s as [|a s IH]; [discriminate|].
  simpl. destruct (Unicode.isspace a) eqn:E; [exact IH|].
  intros [= <- <-]. exact E.
Qed.

Lemma lstrip_nil (s : str) :
  Str.lstrip s = [] -> forallb Unicode.isspace s = true.
Proof.
  induction s as [|a s IH]; [reflexivity|].
  simpl. destruct (Unicode.isspace a); [exact IH | discriminate].
Qed.

Lemma lstrip_suffix (s : str) :
  exists p, s = p ++ Str.lstrip s /\ forallb Unicode.isspace p = true.
Proof.
  induction s as [|a s [p [IH1 IH2]]]; [now exists []|].
  simpl. destruct (Unicode.isspace a) eqn:E.
  - exists (a :: p). simpl. rewrite E, IH2. split; [congruence | reflexivity].
  - now exists [].
Qed.

Lemma rstrip_prefix (s : str) :
  exists q, s = Str.rstrip s ++ q /\ forallb Unicode.isspace q = true.
Proof.
  unfold Str.rstrip.
  destruct (lstrip_suffix (rev s)) as [p [H1 H2]].
  exists (rev p). split.
  - rewrite <- rev_app_distr, <- H1. now rewrite rev_involutive.
  - rewrite forallb_forall in *. intros x Hx. apply H2. now apply in_rev.
Qed.

Lemma rstrip_last (s t : str) (c : char) :
  Str.rstrip s = t ++ [c] -> Unicode.isspace c = false.
Proof.
  unfold Str.rstrip. intro H.
  apply (f_equal (@rev char)) in H.
  rewrite rev_involutive, rev_app_distr in H. simpl in H.
  now apply lstrip_head in H.
Qed.

Lemma strip_last (s t : str) (c : char) :
  Str.strip s = t ++ [c] -> Unicode.isspace c = false.
Proof. apply rstrip_last. Qed.

(** The stripped string is a piece of the string. *)
Lemma strip_infix (s : str) :
  exists p q, s = p ++ Str.strip s ++ q.
Proof.
  destruct (lstrip_suffix s) as [p [Hp _]].
  destruct (rstrip_prefix (Str.lstrip s)) as [q [Hq _]].
  exists p, q. unfold Str.strip. now rewrite <- Hq.
Qed.

Lemma strip_nil (s : str) :
  Str.strip s = [] -> forallb Unicode.isspace s = true.
Proof.
  unfold Str.strip. intro H.
  destruct (rstrip_prefix (Str.lstrip s)) as [q [Hq Hs]].
  rewrite H in Hq. simpl in Hq.
  destruct (Str.lstrip s) as [|c t] eqn:E.
  - now apply lstrip_nil.
  - apply lstrip_head in E. subst q. simpl in Hs. now rewrite E in Hs.
Qed.

Lemma strip_Forall (P : char -> Prop) (s : str) :
  Forall P s -> Forall P (Str.strip s).
Proof.
  intro H. destruct (strip_infix s) as (p & q & E).
  rewrite E in H. apply Forall_app in H as [_ H].
  now apply Forall_app in H as [H _].
Qed.

Lemma startswith_app (p s : str) :
  Str.startswith p s = true -> exists r, s = p ++ r.
Proof.
  revert s. induction p as [|a p IH]; intro s; [now exists s|].
  destruct s as [|b s]; [discriminate|]. simpl.
  intro H. apply andb_true_iff in H as [H1 H2].
  apply N.eqb_eq in H1. subst b.
  destruct (IH _ H2) as [r ->]. now exists r.
Qed.

(** After the marker of a stripped line there is no text exactly when
    the line is the bare marker. *)
Lemma bare_marker (m raw : str) :
  Str.startswith m (Str.strip raw) = true ->
  Str.strip (skipn (List.length m) (Str.strip raw)) = []
  <-> Str.strip raw = m.
Proof.
  intro H. apply startswith_app in H as [r Hr]. rewrite Hr.
  rewrite skipn_app, skipn_all, Nat.sub_diag. simpl.
  split.
  - intro E. apply strip_nil in E.
    destruct r as [|a r0]; [now rewrite app_nil_r|].
    destruct (@exists_last _ (a :: r0)) as [t [c Ht]]; [discriminate|].
    assert (Hc : Unicode.isspace c = false).
    { apply (@strip_last raw (m ++ t) c). rewrite Hr, Ht.
      now rewrite app_assoc. }
    rewrite forallb_forall in E.
    rewrite E in Hc; [discriminate|].
    rewrite Ht. apply in_or_app. right. now left.
  - intro E. apply (f_equal (@List.length char)) in E.
    rewrite length_app in E.
    destruct r; [reflexivity | simpl in E; lia].
Qed.

End StripFacts.

(** ** Invariants of the cleaning scripts *)

Module Invariants.
Import Doc Cleaner CleanerFacts.

Lemma final_topic_shape : topic_shape clean_db_final_v.
Proof. intro line. now left. Qed.

Lemma qa_topic_shape : topic_shape process_db_qa_v.
Proof. intro line. now right. Qed.

Lemma improved_topic_shape : topic_shape process_db_qa_improved_v.
Proof. intro line. now right. Qed.

(** The counter is positive and every entry has its origin in the
    input. *)
Lemma reach_entry_from (v : variant) (lines : list str) (qn : nat)
    (acc : list entry) :
  topic_shape v -> reach v lines qn acc ->
  1 <= qn /\ Forall (entry_from v lines) acc.
Proof.
  intros Hv. induction 1 as [|qn acc raw Hr [IH1 IH2] Hraw HT
                             |qn acc raw Hr [IH1 IH2] Hraw HQ
                             |qn acc raw Hr [IH1 IH2] Hraw HA HN
                             |qn acc raw Hr [IH1 IH2] Hraw HP].
  - split; [lia | constructor].
  - split; [lia|]. apply Forall_app. split; [exact IH2|].
    assert (Ht : entry_from v lines (Topic (Str.strip raw)))
      by (simpl; eauto).
    destruct (Hv (Str.strip raw)) as [-> | ->]; repeat constructor; exact Ht.
  - split; [lia|]. apply Forall_app. split; [exact IH2|].
    repeat constructor; simpl; eauto.
  - split; [exact IH1|]. apply Forall_app. split; [exact IH2|].
    repeat constructor; simpl; eauto.
    destruct (v_clean_answer v (Str.strip raw)); [discriminate|congruence].
  - split; [exact IH1|]. apply Forall_app. split; [exact IH2|].
    repeat constructor; simpl; eauto.
Qed.

Lemma entry_question_from (v : variant) (lines : list str) (e : entry) :
  entry_from v lines e -> question_from lines e.
Proof.
  destruct e as [line| |n text|text|line]; simpl; auto.
  intros [Hn (raw & Hraw & HQ & Ht)]. split; [exact Hn|].
  exists raw. repeat split; auto.
  - intro E. rewrite Ht in E.
    now apply (StripFacts.bare_marker (of_string "Q:") raw HQ).
  - intro E. rewrite Ht.
    now apply (StripFacts.bare_marker (of_string "Q:") raw HQ).
Qed.

Lemma reach_question_from (v : variant) (lines : list str) (qn : nat)
    (acc : list entry) :
  topic_shape v -> reach v lines qn acc -> Forall (question_from lines) acc.
Proof.
  intros Hv Hr. apply (reach_entry_from Hv) in Hr as [_ Hr].
  eapply Forall_impl; [|exact Hr]. apply entry_question_from.
Qed.

(** *** Topic scopes *)

Lemma scopes_of_app (a b : list entry) :
  scopes_of (a ++ b) = fold_left scope_step b (scopes_of a).
Proof. apply fold_left_app. Qed.

Lemma contiguous_snoc (sc : list nat) :
  contiguous sc -> contiguous (sc ++ [S (List.length sc)]).
Proof.
  unfold contiguous. intro H.
  rewrite length_app. simpl. rewrite Nat.add_1_r, seq_S.
  now rewrite <- H.
Qed.

(** The closed scopes and the open one are numbered 1, 2, ...; the
    counter is one more than the size of the open scope. *)
Lemma reach_scopes (v : variant) (lines : list str) (qn : nat)
    (acc : list entry) :
  topic_shape v -> reach v lines qn acc ->
  Forall contiguous (fst (scopes_of acc))
  /\ contiguous (snd (scopes_of acc))
  /\ qn = S (List.length (snd (scopes_of acc))).
Proof.
  intros Hv. induction 1 as [|qn acc raw Hr (IH1 & IH2 & IH3) Hraw HT
                             |qn acc raw Hr (IH1 & IH2 & IH3) Hraw HQ
                             |qn acc raw Hr (IH1 & IH2 & IH3) Hraw HA HN
                             |qn acc raw Hr (IH1 & IH2 & IH3) Hraw HP].
  - repeat split. constructor.
  - rewrite scopes_of_app.
    assert (E : fold_left scope_step (v_topic v (Str.strip raw)) (scopes_of acc)
                = (fst (scopes_of acc) ++ [snd (scopes_of acc)], [])).
    { destruct (Hv (Str.strip raw)) as [-> | ->]; reflexivity. }
    rewrite E. simpl. repeat split.
    apply Forall_app. split; [exact IH1 | now constructor].
  - rewrite scopes_of_app. simpl. repeat split; [exact IH1| |].
    + rewrite IH3. now apply contiguous_snoc.
    + rewrite length_app. simpl. lia.
  - rewrite scopes_of_app. simpl. auto.
  - rewrite scopes_of_app. simpl. auto.
Qed.

Lemma reach_contiguous (v : variant) (lines : list str) (qn : nat)
    (acc : list entry) :
  topic_shape v -> reach v lines qn acc -> Forall contiguous (scopes acc).
Proof.
  intros Hv Hr. destruct (reach_scopes Hv Hr) as (H1 & H2 & _).
  unfold scopes. apply Forall_app. split; [exact H1 | now constructor].
Qed.

End Invariants.

(** C1 (as stated it fails). On the input that is the bare marker [Q:]
    each of the three cleaning scripts writes the question line ["1. Q: "],
    with no text after the marker; the line does not match the pattern
    "number, [. Q: ], non-empty text". *)
Lemma C1_counterexample :
  CleanDbFinal.processed_lines (of_string "Q:") = [of_string "1. Q: "]
  /\ ProcessDbQa.processed_lines (of_string "Q:") = [of_string "1. Q: "]
  /\ ProcessDbQaImproved.processed_lines (of_string "Q:") = [of_string "1. Q: "]
  /\ CleanDbFinal.entries (of_string "Q:") = [Doc.Question 1 []]
  /\ Re.matches Cleaner.full_question_re (of_string "1. Q: ") = false
  /\ Re.matches Cleaner.full_question_re (of_string "1. Q: x") = true.
Proof. repeat split; vm_compute; reflexivity. Qed.

(** C1 (amended). For every input text, every question entry a cleaning
    script appends is rendered as [f"{n}. Q: {text}"] with [n] at least 1,
    where [text] is the stripped rest, after the marker [Q:], of a stripped
    line of the text left by the fluff patterns; [text] is empty exactly
    when that stripped line is the bare marker. *)
Theorem C1_question_lines (content : str) :
  Forall (Cleaner.question_from
            (Str.split Str.NL (CleanDbFinal.remove_fluff content)))
    (CleanDbFinal.entries content)
  /\ Forall (Cleaner.question_from
               (Str.split Str.NL (ProcessDbQa.remove_fluff content)))
       (ProcessDbQa.entries content)
  /\ Forall (Cleaner.question_from
               (Str.split Str.NL (ProcessDbQaImproved.remove_fluff content)))
       (ProcessDbQaImproved.entries content).
Proof.
  split; [|split].
  - destruct (CleanerFacts.final_entries_reach content) as [qn H].
    exact (Invariants.reach_question_from Invariants.final_topic_shape H).
  - destruct (CleanerFacts.qa_entries_reach content) as [qn H].
    exact (Invariants.reach_question_from Invariants.qa_topic_shape H).
  - destruct (CleanerFacts.improved_entries_reach content) as [qn H].
    exact (Invariants.reach_question_from Invariants.improved_topic_shape H).
Qed.

(** C2. For every input text and each cleaning script, the numbers of the
    question entries of every topic scope (the entries before the first
    heading, and the entries from one heading to the next) are 1, 2, ..., K
    with K the number of questions of the scope: each heading starts the
    numbering again at 1. *)
Theorem C2_numbers_contiguous_per_topic (content : str) :
  Forall Cleaner.contiguous (Cleaner.scopes (CleanDbFinal.entries content))
  /\ Forall Cleaner.contiguous (Cleaner.scopes (ProcessDbQa.entries content))
  /\ Forall Cleaner.contiguous
       (Cleaner.scopes (ProcessDbQaImproved.entries content)).
Proof.
  split; [|split].
  - destruct (CleanerFacts.final_entries_reach content) as [qn H].
    exact (Invariants.reach_contiguous Invariants.final_topic_shape H).
  - destruct (CleanerFacts.qa_entries_reach content) as [qn H].
    exact (Invariants.reach_contiguous Invariants.qa_topic_shape H).
  - destruct (CleanerFacts.improved_entries_reach content) as [qn H].
    exact (Invariants.reach_contiguous Invariants.improved_topic_shape H).
Qed.

(** ** The counts printed *)

Module CountFacts.
Import Doc Cleaner CleanerFacts.

Lemma count_zero (f : str -> bool) (l : list str) :
  Forall (fun x => f x = false) l -> count f l = 0.
Proof.
  unfold count. induction 1 as [|x l Hx _ IH]; [reflexivity|].
  simpl. now rewrite Hx.
Qed.

(** A string appended by a script that passes no line through never
    starts with ["## "]: the string of a heading starts with a newline. *)
Lemma render_not_heading (v : variant) (lines : list str)
    (fmt : str -> str) (e : entry) :
  (forall line, v_passes v line = false) ->
  (forall line, exists r, fmt line = Str.NL :: r) ->
  entry_from v lines e ->
  Str.startswith (of_string "## ") (render fmt e) = false.
Proof.
  intros Hp Hf. destruct e as [line| |n text|text|line]; simpl.
  - intros _. destruct (Hf line) as [r ->]. reflexivity.
  - reflexivity.
  - intros _. destruct (StrFacts.show_head n) as (d & ds & -> & Hd & _).
    apply StrFacts.ascii_digit_cases in Hd.
    repeat (destruct Hd as [Hd|Hd]; [subst; reflexivity|]).
    subst. reflexivity.
  - reflexivity.
  - intros (raw & _ & _ & H). now rewrite Hp in H.
Qed.

Lemma no_heading_counted (v : variant) (lines : list str)
    (fmt : str -> str) (qn : nat) (acc : list entry) :
  topic_shape v ->
  (forall line, v_passes v line = false) ->
  (forall line, exists r, fmt line = Str.NL :: r) ->
  reach v lines qn acc ->
  count (Str.startswith (of_string "## ")) (map (render fmt) acc) = 0.
Proof.
  intros Hv Hp Hf Hr. apply count_zero.
  apply Forall_map.
  apply (Invariants.reach_entry_from Hv) in Hr as [_ Hr].
  eapply Forall_impl; [|exact Hr].
  intros e He. eapply render_not_heading; eauto.
Qed.

End CountFacts.

(** C7 (the code misses it). The count of topics is taken over the
    strings of [processed_lines], and the string of a heading starts with a
    newline, not with ["## "].  So [clean_db_final] and
    [process_db_qa_improved] print 0 topics for every input, whatever the
    number of heading lines in the document written; on the input of one
    heading, one question and one answer, [clean_db_final] and
    [process_db_qa] print the counts (0, 1, 1) while the document written
    has one heading line, one question line and one answer line. *)
Theorem C7_topic_count_misses_headings :
  (forall content,
      fst (fst (snd (CleanDbFinal.clean_db_final content))) = 0)
  /\ (forall content,
         fst (fst (snd (ProcessDbQaImproved.process_db_qa_improved content))) = 0)
  /\ snd (CleanDbFinal.clean_db_final Cleaner.doc_topic_question_answer)
     = (0, 1, 1)
  /\ Cleaner.doc_counts
       (fst (CleanDbFinal.clean_db_final Cleaner.doc_topic_question_answer))
     = (1, 1, 1)
  /\ snd (ProcessDbQa.process_db_qa Cleaner.doc_topic_question_answer)
     = (0, 1, 1)
  /\ Cleaner.doc_counts
       (fst (ProcessDbQa.process_db_qa Cleaner.doc_topic_question_answer))
     = (1, 1, 1).
Proof.
  split; [|split; [|repeat split; vm_compute; reflexivity]].
  - intro content. simpl.
    destruct (CleanerFacts.final_entries_reach content) as [qn H].
    eapply (@CountFacts.no_heading_counted Cleaner.clean_db_final_v);
      [| |  | exact H]; auto.
    + apply Invariants.final_topic_shape.
    + intro line. eexists. reflexivity.
  - intro content. simpl.
    destruct (CleanerFacts.improved_entries_reach content) as [qn H].
    eapply (@CountFacts.no_heading_counted Cleaner.process_db_qa_improved_v);
      [| |  | exact H]; auto.
    + apply Invariants.improved_topic_shape.
    + intro line. eexists. reflexivity.
Qed.

(** ** The search for the answer of a question *)

Module AnswerFacts.
Import Doc Cleaner CleanerFacts.

Lemma question_nonempty (raw : str) :
  is_question raw = true -> Str.nonempty (Str.strip raw) = true.
Proof.
  unfold is_question. destruct (Str.strip raw); [discriminate | reflexivity].
Qed.

Lemma question_not_answer (raw : str) :
  is_question raw = true -> is_answer raw = false.
Proof.
  unfold is_question, is_answer.
  change (of_string "Q:") with [81%N; 58%N].
  change (of_string "A:") with [65%N; 58%N].
  destruct (Str.strip raw) as [|c s]; [reflexivity|].
  cbn [Str.startswith].
  destruct (81 =? c)%N eqn:E; [|intro H; discriminate H].
  apply N.eqb_eq in E. subst c. reflexivity.
Qed.

Lemma final_question_not_topic (raw : str) :
  is_question raw = true -> CleanDbFinal.is_topic (Str.strip raw) = false.
Proof.
  unfold is_question, CleanDbFinal.is_topic. intros ->.
  cbn [negb]. now rewrite !andb_false_r.
Qed.

Lemma improved_question_not_topic (raw : str) :
  is_question raw = true ->
  ProcessDbQaImproved.is_topic (Str.strip raw) = false.
Proof.
  unfold is_question, ProcessDbQaImproved.is_topic. intros ->.
  cbn [negb]. now rewrite !andb_false_r.
Qed.

Lemma blanks_skipped (blanks : list str) :
  forallb is_blank blanks = true ->
  Forall (fun x => Str.startswith (of_string "A:") (Str.strip x) = false
                   /\ skippable_improved (Str.strip x) = true) blanks.
Proof.
  rewrite forallb_forall, Forall_forall. intros H x Hx.
  specialize (H x Hx). unfold is_blank in H. unfold skippable_improved.
  split; [|exact H].
  destruct (Str.strip x); [reflexivity | discriminate].
Qed.

Lemma plains_skipped (junk : list str) :
  forallb is_plain junk = true ->
  Forall (fun x => Str.startswith (of_string "A:") (Str.strip x) = false
                   /\ skippable_final (Str.strip x) = true) junk.
Proof.
  rewrite forallb_forall, Forall_forall. intros H x Hx.
  specialize (H x Hx). unfold is_plain, is_question, is_answer in H.
  apply andb_true_iff in H as [H HA].
  apply andb_true_iff in H as [HN HQ].
  unfold skippable_final. rewrite HN, HQ.
  split; [|reflexivity]. now apply negb_true_iff.
Qed.

Lemma improved_stop (rest : list str) :
  stops_improved rest = true ->
  find_answer skippable_improved rest = NotFound rest.
Proof.
  destruct rest as [|x rest]; [reflexivity|].
  unfold stops_improved, is_blank, is_answer. intro H.
  apply andb_true_iff in H as [HB HA].
  apply negb_true_iff in HA. rewrite negb_involutive in HB.
  cbn [find_answer]. rewrite HA. unfold skippable_improved.
  now rewrite HB.
Qed.

Lemma final_stop (rest : list str) :
  stops_final rest = true ->
  find_answer skippable_final rest = NotFound rest.
Proof.
  destruct rest as [|x rest]; [reflexivity|].
  unfold stops_final. intro H. cbn [find_answer].
  assert (HA : Str.startswith (of_string "A:") (Str.strip x) = false).
  { apply orb_true_iff in H as [H|H].
    - unfold is_blank in H. destruct (Str.strip x); [reflexivity|discriminate].
    - now apply question_not_answer. }
  rewrite HA. unfold skippable_final.
  apply orb_true_iff in H as [H|H].
  - unfold is_blank in H. apply negb_true_iff in H. now rewrite H.
  - unfold is_question in H. rewrite H. now rewrite andb_false_r.
Qed.

End AnswerFacts.

(** C9 (as stated it fails). With a blank line between the question and
    its answer, [clean_db_final] keeps the question without the answer: its
    search stops at the blank line, and the answer line is dropped by the
    outer loop.  [process_db_qa_improved] steps over the blank line. *)
Lemma C9_counterexample :
  CleanDbFinal.entries (of_string "Q: a

A: b") = [Doc.Question 1 (of_string "a")]
  /\ fst (CleanDbFinal.clean_db_final (of_string "Q: a

A: b")) = of_string "1. Q: a"
  /\ ProcessDbQaImproved.entries (of_string "Q: a

A: b") = [Doc.Question 1 (of_string "a"); Doc.Answer (of_string "b"); Doc.Blank].
Proof. repeat split; vm_compute; reflexivity. Qed.

(** C9 (amended). After a question, [process_db_qa_improved] steps over
    blank lines and takes the next line if it starts with [A:] as the answer;
    at a line that is neither blank nor an answer, or at the end of the
    input, the question stays without an answer and the outer loop goes on
    at that line.  [clean_db_final] steps over the lines that are not blank
    and start with neither marker, and takes the first line starting with
    [A:] as the answer; at a blank line, at a question or at the end of the
    input the question stays without an answer and the outer loop goes on at
    that line.  In both, an answer that is empty after cleaning is not
    written. *)
Theorem C9_answer_search (raw a : str) (blanks plains rest rest_i rest_f : list str)
    (qn : nat) (acc : list Doc.entry) :
  Cleaner.is_question raw = true ->
  Cleaner.is_answer a = true ->
  forallb Cleaner.is_blank blanks = true ->
  forallb Cleaner.is_plain plains = true ->
  Cleaner.stops_improved rest_i = true ->
  Cleaner.stops_final rest_f = true ->
  let asked := acc ++ [Doc.Question qn (Str.strip (skipn 2 (Str.strip raw)))] in
  let answered clean :=
    if Str.nonempty (clean (Str.strip a))
    then asked ++ [Doc.Answer (clean (Str.strip a)); Doc.Blank] else asked in
  ProcessDbQaImproved.scan (raw :: blanks ++ a :: rest) qn acc
  = ProcessDbQaImproved.scan rest (S qn)
      (answered ProcessDbQaImproved.clean_answer)
  /\ ProcessDbQaImproved.scan (raw :: blanks ++ rest_i) qn acc
     = ProcessDbQaImproved.scan rest_i (S qn) asked
  /\ CleanDbFinal.scan (raw :: plains ++ a :: rest) qn acc
     = CleanDbFinal.scan rest (S qn) (answered CleanDbFinal.clean_answer)
  /\ CleanDbFinal.scan (raw :: plains ++ rest_f) qn acc
     = CleanDbFinal.scan rest_f (S qn) asked.
Proof.
  intros HQ HA HB HP HSi HSf asked answered.
  pose proof (@AnswerFacts.question_nonempty raw HQ) as HN.
  assert (Hfound : forall sk, Cleaner.find_answer sk (a :: rest)
                              = Cleaner.Found (Str.strip a) rest).
  { intro sk. cbn [Cleaner.find_answer].
    unfold Cleaner.is_answer in HA. now rewrite HA. }
  unfold Cleaner.is_question in HQ.
  repeat split.
  - rewrite CleanerFacts.improved_scan_cons. cbv zeta.
    rewrite HN, (@AnswerFacts.improved_question_not_topic raw HQ), HQ.
    cbn [negb andb].
    rewrite (@CleanerFacts.find_answer_skip _ blanks _ (@AnswerFacts.blanks_skipped blanks HB)).
    now rewrite Hfound.
  - rewrite CleanerFacts.improved_scan_cons. cbv zeta.
    rewrite HN, (@AnswerFacts.improved_question_not_topic raw HQ), HQ.
    cbn [negb andb].
    rewrite (@CleanerFacts.find_answer_skip _ blanks _ (@AnswerFacts.blanks_skipped blanks HB)).
    now rewrite (@AnswerFacts.improved_stop rest_i HSi).
  - rewrite CleanerFacts.final_scan_cons. cbv zeta.
    rewrite HN, (@AnswerFacts.final_question_not_topic raw HQ), HQ.
    cbn [negb andb].
    rewrite (@CleanerFacts.find_answer_skip _ plains _ (@AnswerFacts.plains_skipped plains HP)).
    now rewrite Hfound.
  - rewrite CleanerFacts.final_scan_cons. cbv zeta.
    rewrite HN, (@AnswerFacts.final_question_not_topic raw HQ), HQ.
    cbn [negb andb].
    rewrite (@CleanerFacts.find_answer_skip _ plains _ (@AnswerFacts.plains_skipped plains HP)).
    now rewrite (@AnswerFacts.final_stop rest_f HSf).
Qed.

Lemma C9_answer_search_witness :
  let raw := of_string "Q: a" in
  let a := of_string "A: b" in
  let blanks := [[]; of_string "  "] in
  let plains := [of_string "note"] in
  let rest_i := [of_string "note"] in
  let rest_f := [[]; of_string "A: late"] in
  let asked := [Doc.Question 1 (of_string "a")] in
  let answered := asked ++ [Doc.Answer (of_string "b"); Doc.Blank] in
  ProcessDbQaImproved.scan (raw :: blanks ++ a :: []) 1 []
  = ProcessDbQaImproved.scan [] 2 answered
  /\ ProcessDbQaImproved.scan (raw :: blanks ++ rest_i) 1 []
     = ProcessDbQaImproved.scan rest_i 2 asked
  /\ CleanDbFinal.scan (raw :: plains ++ a :: []) 1 []
     = CleanDbFinal.scan [] 2 answered
  /\ CleanDbFinal.scan (raw :: plains ++ rest_f) 1 []
     = CleanDbFinal.scan rest_f 2 asked.
Proof.
  intros raw a blanks plains rest_i rest_f asked answered.
  apply (C9_answer_search raw a blanks plains [] rest_i rest_f 1 []);
    vm_compute; reflexivity.
Defined.

(** ** The matcher *)

Module ReFacts.
Import Re Text.

(** *** A pattern without a match *)

Lemma search_none_cons (r : regex) (bos : bool) (c : char) (s : str) :
  search_from r bos (c :: s) = None ->
  match_at r bos (c :: s) = None /\ search_from r false s = None.
Proof.
  cbn [search_from].
  destruct (match_at r bos (c :: s)); [discriminate | auto].
Qed.

Lemma sub_from_no_match (r : regex) (repl : str) (s : str) :
  forall bos, search_from r bos s = None -> sub_from r repl bos 0 s = s.
Proof.
  induction s as [|c s IH]; intros bos H.
  - cbn [search_from] in H. cbn [sub_from].
    destruct (match_at r bos []); [discriminate | reflexivity].
  - apply search_none_cons in H as [H1 H2].
    cbn [sub_from]. rewrite H1. f_equal. now apply IH.
Qed.

Lemma re_sub_no_match (r : regex) (repl : str) (s : str) :
  re_search r s = None -> re_sub r repl s = s.
Proof. apply sub_from_no_match. Qed.

(** The loop over the patterns leaves a text without a match as it is. *)
Lemma remove_no_match (patterns : list regex) (text : str) :
  no_match patterns text = true ->
  fold_left (fun cleaned pattern => re_sub pattern [] cleaned) patterns text
  = text.
Proof.
  unfold no_match.
  induction patterns as [|r patterns IH]; [reflexivity|].
  cbn [forallb fold_left]. intro H.
  apply andb_true_iff in H as [H1 H2].
  destruct (re_search r text) eqn:E; [discriminate|].
  rewrite (@re_sub_no_match r [] text E). now apply IH.
Qed.

(** *** Runs of one class *)

Lemma drop_while_length (p : char -> bool) (s : str) :
  List.length s = run_length p s + List.length (drop_while p s).
Proof.
  induction s as [|c s IH]; [reflexivity|].
  simpl. destruct (p c); simpl; lia.
Qed.

Lemma skipn_run (p : char -> bool) (s : str) :
  skipn (run_length p s) s = drop_while p s.
Proof.
  induction s as [|c s IH]; [reflexivity|].
  simpl. destruct (p c); [exact IH | reflexivity].
Qed.

Lemma rep_greedy_accept (p : char -> bool) (s : str) :
  forall bos cs, rep_greedy p accept bos s cs = Some (drop_while p s, cs).
Proof.
  induction s as [|c s IH]; intros bos cs; [reflexivity|].
  cbn [rep_greedy drop_while]. destruct (p c); [|reflexivity].
  now rewrite IH.
Qed.

(** [p+] takes the whole run, which must not be empty. *)
Lemma match_plus (p : char -> bool) (bos : bool) (s : str) :
  match_at (Plus true p) bos s
  = if 1 <=? run_length p s then Some (drop_while p s, []) else None.
Proof.
  unfold match_at, Plus. cbn [exec]. unfold one.
  destruct s as [|c s]; [reflexivity|].
  cbn [run_length drop_while]. destruct (p c); [|reflexivity].
  cbn [Nat.leb]. apply rep_greedy_accept.
Qed.

(** [aa+] takes the whole run, which must have two characters at least. *)
Lemma match_two_plus (a : char) (bos : bool) (s : str) :
  match_at (seqs [Lit a; Plus true (only a)]) bos s
  = if 2 <=? run_length (only a) s
    then Some (drop_while (only a) s, []) else None.
Proof.
  unfold match_at, seqs, Plus. cbn [fold_right exec]. unfold one, only.
  destruct s as [|c s]; [reflexivity|].
  cbn [run_length drop_while]. destruct (c =? a)%N; [|reflexivity].
  destruct s as [|d s]; [reflexivity|].
  cbn [run_length drop_while]. destruct (d =? a)%N; [|reflexivity].
  cbn [Nat.leb].
  change (rep_greedy (fun c0 => (c0 =? a)%N) (exec Empty accept) false s [])
    with (rep_greedy (fun c0 => (c0 =? a)%N) accept false s []).
  apply rep_greedy_accept.
Qed.

Lemma squeeze_eq (p : char -> bool) (x c : char) (s : str) :
  squeeze p x (c :: s)
  = if p c then
      match s with
      | d :: _ => if p d then squeeze p x s else x :: squeeze p x s
      | [] => [x]
      end
    else c :: squeeze p x s.
Proof. reflexivity. Qed.

Lemma squeeze_run (p : char -> bool) (x c : char) (s : str) :
  p c = true -> squeeze p x (c :: s) = x :: squeeze p x (drop_while p s).
Proof.
  revert c. induction s as [|d s IH]; intros c Hc.
  - rewrite squeeze_eq, Hc. reflexivity.
  - rewrite squeeze_eq, Hc. cbn [drop_while].
    destruct (p d) eqn:Hd; [|reflexivity].
    now apply IH.
Qed.

(** Replacing by [x] every match of a pattern that takes a whole run of
    [p] of [min] characters at least is [squeeze], for [min] 1, and for
    [min] 2 when [x] is the only character in [p]. *)
Lemma sub_run (r : regex) (p : char -> bool) (x : char) (min : nat) :
  (forall bos s,
      match_at r bos s
      = if min <=? run_length p s then Some (drop_while p s, []) else None) ->
  min = 1 \/ (min = 2 /\ forall c, p c = true -> c = x) ->
  forall s n bos,
    n <= run_length p s ->
    sub_from r [x] bos n s = squeeze p x (skipn n s).
Proof.
  intros Hm Hmin. induction s as [|c s IH]; intros n bos Hn.
  - cbn [run_length] in Hn. assert (n = 0) by lia. subst n.
    cbn [sub_from skipn squeeze]. rewrite Hm. cbn [run_length].
    destruct Hmin as [-> | [-> _]]; reflexivity.
  - destruct n as [|n].
    + cbn [sub_from skipn]. rewrite Hm.
      destruct (min <=? run_length p (c :: s)) eqn:E.
      * assert (Hc : p c = true).
        { cbn [run_length] in E. destruct (p c); [reflexivity|].
          apply Nat.leb_le in E. destruct Hmin as [-> | [-> _]]; lia. }
        pose proof (drop_while_length p (c :: s)) as Hl.
        replace (List.length (c :: s)
                 - List.length (drop_while p (c :: s)))
          with (S (run_length p s))
          by (cbn [run_length] in Hl; rewrite Hc in Hl; lia).
        cbn [app]. rewrite IH by lia. rewrite skipn_run.
        now rewrite squeeze_run.
      * rewrite (IH 0 false) by lia. cbn [skipn].
        rewrite squeeze_eq. destruct (p c) eqn:Hc; [|reflexivity].
        cbn [run_length] in E. rewrite Hc in E. apply Nat.leb_gt in E.
        destruct Hmin as [-> | [-> Hx]]; [lia|].
        destruct s as [|d s]; [now rewrite (Hx c Hc)|].
        cbn [run_length] in E. destruct (p d); [lia|].
        now rewrite (Hx c Hc).
    + cbn [run_length] in Hn. destruct (p c) eqn:Hc; [|lia].
      cbn [sub_from skipn]. apply IH. lia.
Qed.

End ReFacts.

(** ** Collapsed runs *)

Module SqueezeFacts.
Import Re Text ReFacts.

Lemma no_run_eq (p : char -> bool) (c : char) (s : str) :
  no_run p (c :: s)
  = match s with
    | d :: _ => negb (p c && p d)
    | [] => true
    end && no_run p s.
Proof. reflexivity. Qed.

Lemma squeeze_head (p : char -> bool) (x d : char) (s : str) :
  exists t, squeeze p x (d :: s) = (if p d then x else d) :: t.
Proof.
  destruct (p d) eqn:Hd.
  - rewrite squeeze_run by exact Hd. eauto.
  - rewrite squeeze_eq, Hd. eauto.
Qed.

Lemma squeeze_chars (p : char -> bool) (x : char) (s : str) :
  Forall (fun c => p c = true -> c = x) (squeeze p x s).
Proof.
  induction s as [|c s IH]; [constructor|].
  rewrite squeeze_eq. destruct (p c) eqn:Hc.
  - destruct s as [|d s]; [repeat constructor|].
    destruct (p d); [exact IH | now constructor].
  - constructor; [congruence | exact IH].
Qed.

Lemma squeeze_no_run (p : char -> bool) (x : char) (s : str) :
  no_run p (squeeze p x s) = true.
Proof.
  induction s as [|c s IH]; [reflexivity|].
  rewrite squeeze_eq. destruct (p c) eqn:Hc.
  - destruct s as [|d s]; [reflexivity|].
    destruct (p d) eqn:Hd; [exact IH|].
    rewrite no_run_eq, IH.
    destruct (squeeze_head p x d s) as [t Ht]. rewrite Ht, Hd, Hd.
    now rewrite andb_false_r.
  - rewrite no_run_eq, IH, Hc. now destruct (squeeze p x s).
Qed.

(** A text without a run, whose characters in [p] are all [x], is left as
    it is. *)
Lemma squeeze_fixed (p : char -> bool) (x : char) (s : str) :
  no_run p s = true -> Forall (fun c => p c = true -> c = x) s ->
  squeeze p x s = s.
Proof.
  induction s as [|c s IH]; [reflexivity|].
  rewrite no_run_eq. intros Hn Hx.
  apply andb_true_iff in Hn as [Hn1 Hn2].
  inversion Hx as [|? ? Hc Hs]; subst.
  rewrite squeeze_eq, (IH Hn2 Hs).
  destruct (p c) eqn:Ec; [|reflexivity].
  rewrite (Hc eq_refl).
  destruct s as [|d s]; [reflexivity|].
  destruct (p d); [discriminate Hn1 | reflexivity].
Qed.

(** Squeezing the runs of [p] makes no run of [q] when no character is in
    both and [x] is not in [q]. *)
Lemma squeeze_keeps_no_run (p q : char -> bool) (x : char) (s : str) :
  (forall c, q c = true -> p c = false) -> q x = false ->
  no_run q s = true -> no_run q (squeeze p x s) = true.
Proof.
  intros Hpq Hx. induction s as [|c s IH]; [reflexivity|].
  rewrite no_run_eq. intro Hn.
  apply andb_true_iff in Hn as [Hn1 Hn2]. specialize (IH Hn2).
  rewrite squeeze_eq. destruct (p c) eqn:Hc.
  - destruct s as [|d s]; [cbn [no_run]; now rewrite andb_true_r|].
    destruct (p d) eqn:Hd; [exact IH|].
    rewrite no_run_eq, IH, Hx.
    now destruct (squeeze p x (d :: s)).
  - rewrite no_run_eq, IH, andb_true_r.
    destruct s as [|d s]; [reflexivity|].
    destruct (squeeze_head p x d s) as [t ->].
    destruct (p d) eqn:Hd.
    + rewrite Hx. now rewrite andb_false_r.
    + exact Hn1.
Qed.

Lemma no_run_app (p : char -> bool) (a b : str) :
  no_run p (a ++ b) = true -> no_run p a = true /\ no_run p b = true.
Proof.
  induction a as [|c a IH]; [auto|].
  cbn [app]. rewrite !no_run_eq. intro H.
  apply andb_true_iff in H as [H1 H2].
  destruct (IH H2) as [Ha Hb]. split; [|exact Hb].
  rewrite Ha, andb_true_r.
  destruct a as [|d a]; [reflexivity | exact H1].
Qed.

Lemma collapsed_infix (a s b : str) :
  collapsed (a ++ s ++ b) = true -> collapsed s = true.
Proof.
  unfold collapsed. intro H. apply andb_true_iff in H as [H1 H2].
  apply no_run_app in H1 as [_ H1]. apply no_run_app in H1 as [H1 _].
  rewrite !forallb_app in H2.
  apply andb_true_iff in H2 as [_ H2]. apply andb_true_iff in H2 as [H2 _].
  now rewrite H1, H2.
Qed.

Lemma collapsed_strip (s : str) :
  collapsed s = true -> collapsed (Str.strip s) = true.
Proof.
  destruct (StripFacts.strip_infix s) as (a & b & E).
  intro H. rewrite E in H. exact (collapsed_infix _ _ _ H).
Qed.

(** [re.sub(r'\s+', ' ', s)] *)
Lemma sub_ws (s : str) :
  re_sub Doc.ws_re [Str.SP] s = squeeze Unicode.isspace Str.SP s.
Proof.
  unfold re_sub, Doc.ws_re.
  rewrite (@sub_run (Plus true Unicode.isspace) Unicode.isspace Str.SP 1);
    [reflexivity | | now left | lia].
  intros bos t. apply match_plus.
Qed.

Lemma sub_ws_collapsed (s : str) :
  collapsed (re_sub Doc.ws_re [Str.SP] s) = true.
Proof.
  rewrite sub_ws. unfold collapsed. rewrite squeeze_no_run. cbn [andb].
  apply forallb_forall. intros c Hc.
  pose proof (squeeze_chars Unicode.isspace Str.SP s) as H.
  rewrite Forall_forall in H. specialize (H c Hc).
  destruct (Unicode.isspace c); [|reflexivity].
  rewrite (H eq_refl). reflexivity.
Qed.

(** [re.sub(r'  +', ' ', s)] and [re.sub(r'\.+', '.', s)] *)
Lemma sub_spaces (s : str) :
  re_sub SimpleClean.spaces_re [Str.SP] s = squeeze (only Str.SP) Str.SP s.
Proof.
  unfold re_sub, SimpleClean.spaces_re.
  rewrite (@sub_run (seqs [Lit Str.SP; Plus true (only Str.SP)])
             (only Str.SP) Str.SP 2);
    [reflexivity | | right | lia].
  - intros bos t. apply match_two_plus.
  - split; [reflexivity|]. intros c Hc. now apply N.eqb_eq in Hc.
Qed.

Lemma sub_dots (s : str) :
  re_sub SimpleClean.dots_re [dot] s = squeeze (only dot) dot s.
Proof.
  unfold re_sub, SimpleClean.dots_re.
  rewrite (@sub_run (Plus true (only dot)) (only dot) dot 1);
    [reflexivity | | now left | lia].
  intros bos t. apply match_plus.
Qed.

End SqueezeFacts.

(** ** The text of an answer *)

Module AnswerTextFacts.
Import Doc Cleaner Text.

Lemma final_clean_collapsed (line : str) :
  collapsed (CleanDbFinal.clean_answer line) = true.
Proof. apply SqueezeFacts.sub_ws_collapsed. Qed.

Lemma improved_clean_collapsed (line : str) :
  collapsed (ProcessDbQaImproved.clean_answer line) = true.
Proof. apply SqueezeFacts.sub_ws_collapsed. Qed.

Lemma qa_clean_collapsed (line : str) :
  collapsed (ProcessDbQa.clean_answer line) = true.
Proof.
  unfold ProcessDbQa.clean_answer.
  apply SqueezeFacts.collapsed_strip, SqueezeFacts.sub_ws_collapsed.
Qed.


End AnswerTextFacts.


(** ** The fluff remover on a text without filler *)

Module FluffFacts.
Import Re Text.

Lemma simple_clean_squeeze (content : str) :
  SimpleClean.simple_clean content
  = squeeze (only dot) dot
      (squeeze (only Str.SP) Str.SP (SimpleClean.remove_fluff content)).
Proof.
  unfold SimpleClean.simple_clean.
  rewrite SqueezeFacts.sub_spaces. apply SqueezeFacts.sub_dots.
Qed.

Lemma only_chars (a : char) (s : str) :
  Forall (fun c => only a c = true -> c = a) s.
Proof.
  apply Forall_forall. intros c _ H. now apply N.eqb_eq in H.
Qed.

(** What [simple_clean] writes has no two spaces and no two periods next
    to each other. *)
Lemma simple_clean_no_runs (content : str) :
  no_run (only Str.SP) (SimpleClean.simple_clean content) = true
  /\ no_run (only dot) (SimpleClean.simple_clean content) = true.
Proof.
  rewrite simple_clean_squeeze. split.
  - apply SqueezeFacts.squeeze_keeps_no_run.
    + intros c Hc. apply N.eqb_eq in Hc. subst c. reflexivity.
    + reflexivity.
    + apply SqueezeFacts.squeeze_no_run.
  - apply SqueezeFacts.squeeze_no_run.
Qed.

End FluffFacts.

(** C5 (as stated it fails). No filler pattern of [simple_clean] has a
    match in the text [a..b], and [simple_clean] writes [a.b]: the two texts
    do not differ in white space only. *)
Lemma C5_counterexample :
  Text.no_match SimpleClean.fluff_patterns (of_string "a..b") = true
  /\ SimpleClean.simple_clean (of_string "a..b") = of_string "a.b"
  /\ Text.same_modulo_whitespace (of_string "a..b") (of_string "a.b") = false.
Proof. repeat split; vm_compute; reflexivity. Qed.

(** C5 (amended). Each script by itself: on a text in which none of the
    patterns of [clean_db_final] has a match, its loop over the patterns
    returns the text as it is; on a text in which none of the patterns of
    [simple_clean] has a match, its loop returns the text as it is, and
    [simple_clean] then replaces every run of two or more spaces by one
    space and every run of periods by one period.  Nothing is raised.  So
    running [simple_clean] again on a text it has written, when none of its
    patterns has a match in that text, changes nothing. *)
Theorem C5_fluff_removal_without_filler (text written_before : str) :
  (Text.no_match CleanDbFinal.major_fluff text = true ->
   CleanDbFinal.remove_fluff text = text)
  /\ (Text.no_match SimpleClean.fluff_patterns text = true ->
      SimpleClean.remove_fluff text = text
      /\ SimpleClean.simple_clean text
         = Text.squeeze (Re.only Text.dot) Text.dot
             (Text.squeeze (Re.only Str.SP) Str.SP text))
  /\ (Text.no_match SimpleClean.fluff_patterns
        (SimpleClean.simple_clean written_before) = true ->
      SimpleClean.simple_clean (SimpleClean.simple_clean written_before)
      = SimpleClean.simple_clean written_before).
Proof.
  split; [|split].
  - intro H1. exact (ReFacts.remove_no_match _ _ H1).
  - intro H2. split; [exact (ReFacts.remove_no_match _ _ H2)|].
    rewrite FluffFacts.simple_clean_squeeze.
    unfold SimpleClean.remove_fluff.
    now rewrite (ReFacts.remove_no_match _ _ H2).
  - intro H3.
    destruct (FluffFacts.simple_clean_no_runs written_before) as [Hs Hd].
    set (w := SimpleClean.simple_clean written_before) in *.
    rewrite FluffFacts.simple_clean_squeeze.
    unfold SimpleClean.remove_fluff. rewrite (ReFacts.remove_no_match _ _ H3).
    rewrite (SqueezeFacts.squeeze_fixed _ Hs (FluffFacts.only_chars _ _)).
    apply (SqueezeFacts.squeeze_fixed _ Hd (FluffFacts.only_chars _ _)).
Qed.

(** The first text has a match of a pattern of [simple_clean] and none of
    [clean_db_final]; the second has no match of a pattern of
    [simple_clean]. *)
Lemma C5_fluff_removal_without_filler_witness :
  let kept := of_string "Back up first. I can also create a runbook." in
  let text := of_string "Wait...  what.   Use a  backup." in
  let written_before :=
    of_string "It works..  Do you want me to continue with that? Yes." in
  Text.no_match SimpleClean.fluff_patterns kept = false
  /\ CleanDbFinal.remove_fluff kept = kept
  /\ (SimpleClean.remove_fluff text = text
      /\ SimpleClean.simple_clean text
         = Text.squeeze (Re.only Text.dot) Text.dot
             (Text.squeeze (Re.only Str.SP) Str.SP text))
  /\ SimpleClean.simple_clean (SimpleClean.simple_clean written_before)
     = SimpleClean.simple_clean written_before.
Proof.
  intros kept text written_before.
  split; [vm_compute; reflexivity|].
  split.
  { apply (proj1 (C5_fluff_removal_without_filler kept [])).
    vm_compute. reflexivity. }
  split.
  { apply (proj1 (proj2 (C5_fluff_removal_without_filler text []))).
    vm_compute. reflexivity. }
  apply (proj2 (proj2 (C5_fluff_removal_without_filler [] written_before))).
  vm_compute. reflexivity.
Defined.

(** ** The lines of the document written *)

Module LineFacts.
Import Re Doc Cleaner Text Lines.

Lemma split_eq (sep c : char) (s : str) :
  Str.split sep (c :: s)
  = if (c =? sep)%N then [] :: Str.split sep s
    else match Str.split sep s with
         | h :: t => (c :: h) :: t
         | [] => [[c]]
         end.
Proof. reflexivity. Qed.

Lemma split_nonempty (sep : char) (s : str) : Str.split sep s <> [].
Proof.
  induction s as [|c s IH]; [discriminate|].
  rewrite split_eq. destruct (c =? sep)%N; [discriminate|].
  destruct (Str.split sep s); discriminate.
Qed.

Lemma split_app_sep (sep : char) (a b : str) :
  Str.split sep (a ++ sep :: b) = Str.split sep a ++ Str.split sep b.
Proof.
  induction a as [|c a IH].
  - cbn [app]. rewrite split_eq, N.eqb_refl. reflexivity.
  - cbn [app]. rewrite !split_eq, IH.
    destruct (c =? sep)%N; [reflexivity|].
    pose proof (split_nonempty sep a) as Hn.
    destruct (Str.split sep a); [congruence | reflexivity].
Qed.

Lemma split_free (s : str) : nl_free s = true -> Str.split Str.NL s = [s].
Proof.
  induction s as [|c s IH]; [reflexivity|].
  cbn [nl_free forallb]. intro H. apply andb_true_iff in H as [H1 H2].
  apply negb_true_iff in H1. rewrite split_eq, H1, (IH H2). reflexivity.
Qed.

Lemma split_lines_free (s : str) :
  Forall (fun l => nl_free l = true) (Str.split Str.NL s).
Proof.
  induction s as [|c s IH]; [repeat constructor|].
  rewrite split_eq. destruct (c =? Str.NL)%N eqn:E.
  - constructor; [reflexivity | exact IH].
  - destruct (Str.split Str.NL s) as [|h t]; [repeat constructor; cbn; now rewrite E|].
    inversion IH; subst. constructor; [|assumption].
    cbn [nl_free forallb]. rewrite E. assumption.
Qed.

Lemma split_join (l : list str) :
  l <> [] ->
  Str.split Str.NL (Str.join [Str.NL] l) = flat_map (Str.split Str.NL) l.
Proof.
  induction l as [|x l IH]; [congruence|]. intros _.
  destruct l as [|y l].
  - cbn [Str.join flat_map]. now rewrite app_nil_r.
  - change (Str.join [Str.NL] (x :: y :: l))
      with (x ++ Str.NL :: Str.join [Str.NL] (y :: l)).
    rewrite split_app_sep, IH by discriminate. reflexivity.
Qed.

Lemma nl_free_app (a b : str) : nl_free (a ++ b) = nl_free a && nl_free b.
Proof. apply forallb_app. Qed.

Lemma nl_free_strip (s : str) : nl_free s = true -> nl_free (Str.strip s) = true.
Proof.
  destruct (StripFacts.strip_infix s) as (a & b & E). intro H.
  rewrite E, !nl_free_app in H.
  apply andb_true_iff in H as [_ H]. now apply andb_true_iff in H as [H _].
Qed.

Lemma nl_free_skipn (n : nat) (s : str) :
  nl_free s = true -> nl_free (skipn n s) = true.
Proof.
  intro H. rewrite <- (firstn_skipn n s), nl_free_app in H.
  now apply andb_true_iff in H as [_ H].
Qed.

Lemma collapsed_nl_free (s : str) : collapsed s = true -> nl_free s = true.
Proof.
  unfold collapsed, nl_free. intro H. apply andb_true_iff in H as [_ H].
  rewrite forallb_forall in *. intros c Hc. specialize (H c Hc).
  destruct (c =? Str.NL)%N eqn:E; [|reflexivity].
  apply N.eqb_eq in E. subst c. discriminate H.
Qed.

Lemma digits_nl_free (ds : str) :
  Forall (fun c => Unicode.is_ascii_digit c = true) ds -> nl_free ds = true.
Proof.
  intro H. apply forallb_forall. rewrite Forall_forall in H.
  intros c Hc. specialize (H c Hc).
  apply StrFacts.ascii_digit_cases in H.
  repeat (destruct H as [H|H]; [subst; reflexivity|]). subst. reflexivity.
Qed.

(** *** The skip patterns on the lines a script writes by itself *)

Lemma rep_greedy_dead (p : char -> bool) (K : cont) (ds t : str) :
  (forall bos c u cs, c <> 43%N -> K bos (c :: u) cs = None) ->
  p 46%N = false ->
  Forall (fun c => c <> 43%N) ds ->
  forall bos cs, rep_greedy p K bos (ds ++ 46%N :: t) cs = None.
Proof.
  intros HK Hp. induction 1 as [|c ds Hc _ IH]; intros bos cs.
  - cbn [app rep_greedy]. rewrite Hp. apply HK. discriminate.
  - cbn [app rep_greedy]. rewrite IH, HK by exact Hc.
    now destruct (p c).
Qed.

Lemma digit_not_plus (c : char) :
  Unicode.is_ascii_digit c = true -> c <> 43%N.
Proof.
  intros H ->. discriminate H.
Qed.

(** [^\d+\+...] does not match a number followed by a period. *)
Lemma number_plus_fails (rest : list regex) (d : char) (ds s : str) :
  Forall (fun c => Unicode.is_ascii_digit c = true) (d :: ds) ->
  matches (seqs (Bos :: Plus true Unicode.isdecimal :: litsI "+" :: rest))
    (d :: ds ++ 46%N :: s) = false.
Proof.
  intro Hd. inversion Hd as [|? ? Hd0 Hds]; subst.
  unfold matches, re_match, match_at, seqs, Plus, litsI.
  change (of_string "+") with [43%N].
  cbn [map fold_right exec]. unfold one at 1.
  destruct (Unicode.isdecimal d); [|reflexivity].
  rewrite rep_greedy_dead; [reflexivity | | reflexivity |].
  - intros bos c u cs Hc. unfold seqs. cbn [fold_right exec]. unfold one.
    change (Unicode.ieq 43%N c) with (c =? 43)%N.
    apply N.eqb_neq in Hc. now rewrite Hc.
  - eapply Forall_impl; [|exact Hds]. apply digit_not_plus.
Qed.

Lemma qa_skips_no_own_line : skips_no_own_line ProcessDbQa.should_skip.
Proof.
  unfold skips_no_own_line.
  split; [vm_compute; reflexivity|].
  split; [intro s; vm_compute; reflexivity|].
  split; [intro s; vm_compute; reflexivity|].
  intros d ds s Hd.
  unfold ProcessDbQa.should_skip, ProcessDbQa.skip_patterns.
  cbn [existsb app]. rewrite (@number_plus_fails _ d ds s Hd).
  inversion Hd as [|? ? Hd0 _]; subst.
  apply StrFacts.ascii_digit_cases in Hd0.
  repeat (destruct Hd0 as [Hd0|Hd0]; [subst; vm_compute; reflexivity|]).
  subst. vm_compute. reflexivity.
Qed.

Lemma improved_skips_no_own_line :
  skips_no_own_line ProcessDbQaImproved.should_skip.
Proof.
  unfold skips_no_own_line.
  split; [vm_compute; reflexivity|].
  split; [intro s; vm_compute; reflexivity|].
  split; [intro s; vm_compute; reflexivity|].
  intros d ds s Hd.
  unfold ProcessDbQaImproved.should_skip, ProcessDbQaImproved.skip_patterns.
  cbn [existsb app]. rewrite (@number_plus_fails _ d ds s Hd).
  inversion Hd as [|? ? Hd0 _]; subst.
  apply StrFacts.ascii_digit_cases in Hd0.
  repeat (destruct Hd0 as [Hd0|Hd0]; [subst; vm_compute; reflexivity|]).
  subst. vm_compute. reflexivity.
Qed.

End LineFacts.

(** ** No line written matches a skip pattern *)

Module SkipFacts.
Import Re Doc Cleaner Text Lines LineFacts.

Lemma forallb_flat_map (A B : Type) (f : B -> bool) (g : A -> list B)
    (l : list A) :
  forallb f (flat_map g l) = forallb (fun x => forallb f (g x)) l.
Proof.
  induction l as [|x l IH]; [reflexivity|].
  cbn [flat_map forallb]. now rewrite forallb_app, IH.
Qed.

Lemma forallb_map_comp (A B : Type) (f : B -> bool) (g : A -> B) (l : list A) :
  forallb f (map g l) = forallb (fun x => f (g x)) l.
Proof.
  induction l as [|x l IH]; [reflexivity|].
  cbn [map forallb]. now rewrite IH.
Qed.

Lemma from_line_free (lines0 : list str) (raw : str) :
  Forall (fun l => nl_free l = true) lines0 -> In raw lines0 ->
  nl_free (Str.strip raw) = true.
Proof.
  intros H Hin. rewrite Forall_forall in H. apply nl_free_strip. now apply H.
Qed.

(** The lines of the string of one entry. *)
Lemma entry_lines_skip_free (v : variant) (fmt : str -> str)
    (skip : str -> bool) (lines0 : list str) (e : entry) :
  skips_no_own_line skip ->
  (forall line, fmt line = Str.NL :: of_string "## " ++ line
                \/ fmt line = Str.NL :: of_string "## " ++ line ++ [Str.NL]) ->
  (forall line, v_passes v line = true -> skip line = false) ->
  (forall line, collapsed (v_clean_answer v line) = true) ->
  Forall (fun l => nl_free l = true) lines0 ->
  entry_from v lines0 e ->
  forallb (fun line => negb (skip line)) (Str.split Str.NL (render fmt e))
  = true.
Proof.
  intros (S0 & S1 & S2 & S3) Hfmt Hpass Hclean Hfree.
  assert (Hhead : forall line, nl_free line = true ->
                    Str.split Str.NL (of_string "## " ++ line)
                    = [35%N :: 35%N :: 32%N :: line]).
  { intros line Hl. apply split_free.
    change (nl_free (of_string "## " ++ line) = true).
    rewrite nl_free_app, Hl. reflexivity. }
  destruct e as [line| |n text|text|line]; cbn [entry_from render].
  - intros (raw & Hin & -> & _).
    pose proof (@from_line_free lines0 raw Hfree Hin) as Hl.
    destruct (Hfmt (Str.strip raw)) as [-> | ->].
    + rewrite split_eq. cbn [N.eqb Str.NL Pos.eqb].
      rewrite (Hhead _ Hl). cbn [forallb]. now rewrite S0, S1.
    + rewrite split_eq. cbn [N.eqb Str.NL Pos.eqb].
      rewrite app_assoc.
      change [Str.NL] with (Str.NL :: []).
      rewrite split_app_sep, (Hhead _ Hl). cbn [app Str.split forallb].
      now rewrite S0, S1.
  - intros _. cbn [Str.split forallb]. now rewrite S0.
  - intros [_ (raw & Hin & _ & ->)].
    destruct (StrFacts.show_head n) as (d & ds & -> & Hd & Hds).
    assert (Hdd : Forall (fun c => Unicode.is_ascii_digit c = true) (d :: ds))
      by now constructor.
    change (of_string ". Q: ") with (46%N :: of_string " Q: ").
    change ((d :: ds) ++ (46%N :: of_string " Q: ")
            ++ Str.strip (skipn 2 (Str.strip raw)))
      with ((d :: ds) ++ 46%N :: of_string " Q: "
            ++ Str.strip (skipn 2 (Str.strip raw))).
    rewrite split_free.
    + cbn [forallb]. now rewrite (S3 d ds _ Hdd).
    + rewrite nl_free_app, (@digits_nl_free (d :: ds) Hdd).
      change (46%N :: of_string " Q: " ++ Str.strip (skipn 2 (Str.strip raw)))
        with (of_string ". Q: " ++ Str.strip (skipn 2 (Str.strip raw))).
      rewrite nl_free_app.
      rewrite (@nl_free_strip _ (@nl_free_skipn 2 _ (@from_line_free lines0 raw Hfree Hin))).
      reflexivity.
  - intros [_ (raw & Hin & _ & ->)].
    rewrite split_free.
    + cbn [forallb]. change (of_string "A: ") with [65%N; 58%N; 32%N].
      cbn [app]. now rewrite S2.
    + rewrite nl_free_app, (@collapsed_nl_free _ (Hclean _)). reflexivity.
  - intros (raw & Hin & -> & Hp).
    rewrite (@split_free _ (@from_line_free lines0 raw Hfree Hin)).
    cbn [forallb]. now rewrite (Hpass _ Hp).
Qed.

Lemma written_skip_free (v : variant) (fmt : str -> str)
    (skip : str -> bool) (lines0 : list str) (qn : nat) (acc : list entry) :
  topic_shape v ->
  skips_no_own_line skip ->
  (forall line, fmt line = Str.NL :: of_string "## " ++ line
                \/ fmt line = Str.NL :: of_string "## " ++ line ++ [Str.NL]) ->
  (forall line, v_passes v line = true -> skip line = false) ->
  (forall line, collapsed (v_clean_answer v line) = true) ->
  Forall (fun l => nl_free l = true) lines0 ->
  reach v lines0 qn acc ->
  skip_free skip (written (map (render fmt) acc)) = true.
Proof.
  intros Hv Hs Hfmt Hpass Hclean Hfree Hr.
  apply (Invariants.reach_entry_from Hv) in Hr as [_ Hr].
  unfold skip_free, lines_of, written.
  destruct acc as [|e acc].
  - cbn [map Str.join Str.split forallb]. destruct Hs as [S0 _]. now rewrite S0.
  - rewrite split_join by discriminate.
    rewrite forallb_flat_map, forallb_map_comp.
    apply forallb_forall. rewrite Forall_forall in Hr.
    intros e' He'.
    exact (@entry_lines_skip_free v fmt skip lines0 e' Hs Hfmt Hpass Hclean
             Hfree (Hr e' He')).
Qed.

Lemma qa_passes_not_skipped (line : str) :
  v_passes process_db_qa_v line = true -> ProcessDbQa.should_skip line = false.
Proof.
  cbn [v_passes process_db_qa_v]. intro H.
  apply andb_true_iff in H as [H _]. apply andb_true_iff in H as [_ H].
  now apply negb_true_iff.
Qed.

End SkipFacts.

(** C8 (as stated it fails). [simple_clean] writes a text of two lines
    that are filler phrases as it is: its patterns begin with a space, which
    a phrase at the start of a line does not have.  [process_db_qa] writes
    the phrase of its eighth fluff pattern when the removal of one match
    brings the pieces of another together. *)
Lemma C8_counterexample :
  SimpleClean.simple_clean Lines.filler_lines = Lines.filler_lines
  /\ In (of_string "Do you want me to continue?")
       (Lines.lines_of (SimpleClean.simple_clean Lines.filler_lines))
  /\ In (of_string "Do you want me to continue with that?")
       (Lines.lines_of (SimpleClean.simple_clean Lines.filler_lines))
  /\ Lines.lines_of (fst (ProcessDbQa.process_db_qa Lines.nested_filler))
     = [of_string "Comprehensive Practical DevOps DB Q&A"].
Proof.
  split; [vm_compute; reflexivity|].
  split; [vm_compute; left; reflexivity|].
  split; [vm_compute; right; left; reflexivity|].
  vm_compute. reflexivity.
Qed.

(** C8 (amended). For every input text, no line of the document written
    by [process_db_qa] is matched by one of its skip patterns, and no line
    of the document written by [clean_db_final] or by
    [process_db_qa_improved] is matched by one of the skip patterns of
    [process_db_qa_improved]: a line that starts, in any letter case, with
    one of the filler openings (such as "Do you want") is never written. *)
Theorem C8_no_skipped_line_written (content : str) :
  Lines.skip_free ProcessDbQa.should_skip
    (fst (ProcessDbQa.process_db_qa content)) = true
  /\ Lines.skip_free ProcessDbQaImproved.should_skip
       (fst (CleanDbFinal.clean_db_final content)) = true
  /\ Lines.skip_free ProcessDbQaImproved.should_skip
       (fst (ProcessDbQaImproved.process_db_qa_improved content)) = true.
Proof.
  split; [|split].
  - destruct (CleanerFacts.qa_entries_reach content) as [qn H].
    unfold ProcessDbQa.process_db_qa, ProcessDbQa.processed_lines. cbn [fst].
    eapply (@SkipFacts.written_skip_free Cleaner.process_db_qa_v);
      [exact Invariants.qa_topic_shape
      |exact LineFacts.qa_skips_no_own_line
      |intro line; now right
      |exact SkipFacts.qa_passes_not_skipped
      |exact AnswerTextFacts.qa_clean_collapsed
      |apply LineFacts.split_lines_free
      |exact H].
  - destruct (CleanerFacts.final_entries_reach content) as [qn H].
    unfold CleanDbFinal.clean_db_final, CleanDbFinal.processed_lines. cbn [fst].
    eapply (@SkipFacts.written_skip_free Cleaner.clean_db_final_v);
      [exact Invariants.final_topic_shape
      |exact LineFacts.improved_skips_no_own_line
      |intro line; now left
      |intros line Hp; discriminate Hp
      |exact AnswerTextFacts.final_clean_collapsed
      |apply LineFacts.split_lines_free
      |exact H].
  - destruct (CleanerFacts.improved_entries_reach content) as [qn H].
    unfold ProcessDbQaImproved.process_db_qa_improved,
      ProcessDbQaImproved.processed_lines. cbn [fst].
    eapply (@SkipFacts.written_skip_free Cleaner.process_db_qa_improved_v);
      [exact Invariants.improved_topic_shape
      |exact LineFacts.improved_skips_no_own_line
      |intro line; now right
      |intros line Hp; discriminate Hp
      |exact AnswerTextFacts.improved_clean_collapsed
      |apply LineFacts.split_lines_free
      |exact H].
Qed.

(** ** The scripts on sample documents *)

Module Examples.

Example primary_key_final :
  fst (CleanDbFinal.clean_db_final Samples.primary_key)
  = of_string "1. Q: What is a primary key?
A: A column that uniquely identifies a row.
".
Proof. vm_compute. reflexivity. Qed.

Example primary_key_qa :
  ProcessDbQa.process_db_qa Samples.primary_key
  = (of_string "1. Q: What is a primary key?
A: A column that uniquely identifies a row.
", (0, 1, 1)).
Proof. vm_compute. reflexivity. Qed.

Example primary_key_improved :
  fst (ProcessDbQaImproved.process_db_qa_improved Samples.primary_key)
  = of_string "1. Q: What is a primary key?
A: A column that uniquely identifies a row.
".
Proof. vm_compute. reflexivity. Qed.

(** The counter starts again at 1 under each heading. *)
Example two_topics_scopes :
  Cleaner.scopes (CleanDbFinal.entries Samples.two_topics)
  = [[1]; [1; 2; 3]; [1; 2]]
  /\ Cleaner.scopes (ProcessDbQa.entries Samples.two_topics)
     = [[1]; [1; 2; 3]; [1; 2]]
  /\ Cleaner.scopes (ProcessDbQaImproved.entries Samples.two_topics)
     = [[1]; [1; 2; 3]; [1; 2]].
Proof. repeat split; vm_compute; reflexivity. Qed.

Example answer_collapsed_tab :
  CleanDbFinal.entries (of_string "Q: a
A: It   is	y.")
  = [Doc.Question 1 (of_string "a"); Doc.Answer (of_string "It is y.");
     Doc.Blank].
Proof. vm_compute. reflexivity. Qed.

Example fluff_removed :
  Re.re_sub (Re.seqs [Re.litsI "Do you want me to"; Re.Star false Re.any]) []
    (of_string "x Do You want ME to continue?")
  = of_string "x  continue?".
Proof. vm_compute. reflexivity. Qed.

Example split_markers :
  Re.re_split ReorderQuestions.marker_split_re (of_string "pre 5. Q: a 2.Q: b")
  = map of_string ["pre "; "5. Q:"; " a "; "2.Q:"; " b"]%string.
Proof. vm_compute. reflexivity. Qed.

End Examples.

(** ** The runs of the two scripts that look ahead *)

Module RunFacts.
Import Doc Cleaner CleanerFacts Lookahead.

Lemma final_topic_not_answer (raw : str) :
  CleanDbFinal.is_topic (Str.strip raw) = true -> is_answer raw = false.
Proof.
  unfold is_answer. change (of_string "A:") with [65%N; 58%N].
  destruct (Str.strip raw) as [|c s]; [reflexivity|].
  cbn [Str.startswith]. destruct (65 =? c)%N eqn:E; [|reflexivity].
  apply N.eqb_eq in E. subst c. unfold CleanDbFinal.is_topic.
  replace (Re.matches CleanDbFinal.topic_re (65%N :: s)) with false
    by (vm_compute; reflexivity).
  discriminate.
Qed.

Lemma improved_topic_not_answer (raw : str) :
  ProcessDbQaImproved.is_topic (Str.strip raw) = true -> is_answer raw = false.
Proof.
  unfold is_answer. change (of_string "A:") with [65%N; 58%N].
  destruct (Str.strip raw) as [|c s]; [reflexivity|].
  cbn [Str.startswith]. destruct (65 =? c)%N eqn:E; [|reflexivity].
  apply N.eqb_eq in E. subst c. unfold ProcessDbQaImproved.is_topic.
  replace (Re.matches ProcessDbQaImproved.topic_re (65%N :: s)) with false
    by (vm_compute; reflexivity).
  discriminate.
Qed.

Lemma final_topic_not_question (raw : str) :
  CleanDbFinal.is_topic (Str.strip raw) = true -> is_question raw = false.
Proof.
  intro H. destruct (is_question raw) eqn:E; [|reflexivity].
  rewrite (@AnswerFacts.final_question_not_topic raw E) in H. discriminate.
Qed.

Lemma improved_topic_not_question (raw : str) :
  ProcessDbQaImproved.is_topic (Str.strip raw) = true -> is_question raw = false.
Proof.
  intro H. destruct (is_question raw) eqn:E; [|reflexivity].
  rewrite (@AnswerFacts.improved_question_not_topic raw E) in H. discriminate.
Qed.

Lemma final_run (n : nat) :
  forall lines qn acc,
    List.length lines <= n ->
    run final_c lines qn acc (CleanDbFinal.scan lines qn acc).
Proof.
  induction n as [|n IH]; intros lines qn acc Hlen.
  - destruct lines; [constructor | simpl in Hlen; lia].
  - destruct lines as [|raw rest]; [constructor|].
    simpl in Hlen. rewrite final_scan_cons. cbv zeta.
    destruct (negb (Str.nonempty (Str.strip raw)) && is_nil acc) eqn:EL.
    { apply andb_true_iff in EL as [EB EN].
      apply run_lead; [exact EB | now destruct acc | apply IH; lia]. }
    destruct (CleanDbFinal.is_topic (Str.strip raw)) eqn:ET.
    { apply (@run_topic final_c raw rest qn acc _ ET
               (@final_topic_not_question raw ET)
               (@final_topic_not_answer raw ET)).
      apply IH. lia. }
    destruct (Str.startswith (of_string "Q:") (Str.strip raw)) eqn:EQ;
      [|apply run_drop; [exact EQ | exact ET | apply IH; lia]].
    pose proof (find_answer_length skippable_final rest) as Hl.
    destruct (find_answer skippable_final rest) as [a rest'|rest'] eqn:EF.
    + destruct Hl as [Hl _].
      apply find_answer_found in EF as (pre & raw' & -> & -> & HA & Hpre).
      apply (@run_answered final_c raw pre raw' rest' qn acc _ EQ Hpre HA).
      apply IH. lia.
    + destruct Hl as [Hl _].
      apply find_answer_not_found in EF as (pre & -> & Hpre & Hstop).
      apply (@run_unanswered final_c raw pre rest' qn acc _ EQ Hpre Hstop).
      apply IH. lia.
Qed.

Lemma improved_run (n : nat) :
  forall lines qn acc,
    List.length lines <= n ->
    run improved_c lines qn acc (ProcessDbQaImproved.scan lines qn acc).
Proof.
  induction n as [|n IH]; intros lines qn acc Hlen.
  - destruct lines; [constructor | simpl in Hlen; lia].
  - destruct lines as [|raw rest]; [constructor|].
    simpl in Hlen. rewrite improved_scan_cons. cbv zeta.
    destruct (negb (Str.nonempty (Str.strip raw)) && is_nil acc) eqn:EL.
    { apply andb_true_iff in EL as [EB EN].
      apply run_lead; [exact EB | now destruct acc | apply IH; lia]. }
    destruct (ProcessDbQaImproved.is_topic (Str.strip raw)) eqn:ET.
    { apply (@run_topic improved_c raw rest qn acc _ ET
               (@improved_topic_not_question raw ET)
               (@improved_topic_not_answer raw ET)).
      apply IH. lia. }
    destruct (Str.startswith (of_string "Q:") (Str.strip raw)) eqn:EQ;
      [|apply run_drop; [exact EQ | exact ET | apply IH; lia]].
    pose proof (find_answer_length skippable_improved rest) as Hl.
    destruct (find_answer skippable_improved rest) as [a rest'|rest'] eqn:EF.
    + destruct Hl as [Hl _].
      apply find_answer_found in EF as (pre & raw' & -> & -> & HA & Hpre).
      apply (@run_answered improved_c raw pre raw' rest' qn acc _ EQ Hpre HA).
      apply IH. lia.
    + destruct Hl as [Hl _].
      apply find_answer_not_found in EF as (pre & -> & Hpre & Hstop).
      apply (@run_unanswered improved_c raw pre rest' qn acc _ EQ Hpre Hstop).
      apply IH. lia.
Qed.

Lemma final_entries_run (content : str) :
  run final_c (Str.split Str.NL (CleanDbFinal.remove_fluff content)) 1 []
    (CleanDbFinal.entries content).
Proof. eapply final_run. apply Nat.le_refl. Qed.

Lemma improved_entries_run (content : str) :
  run improved_c (Str.split Str.NL (ProcessDbQaImproved.remove_fluff content))
    1 [] (ProcessDbQaImproved.entries content).
Proof. eapply improved_run. apply Nat.le_refl. Qed.

End RunFacts.

(** ** What the cleaning scripts keep *)

Module KeptFacts.
Import Doc Cleaner CleanerFacts Lookahead Kept.

Lemma question_texts_app (a b : list entry) :
  question_texts (a ++ b) = question_texts a ++ question_texts b.
Proof. apply flat_map_app. Qed.

Lemma answer_texts_app (a b : list entry) :
  answer_texts (a ++ b) = answer_texts a ++ answer_texts b.
Proof. apply flat_map_app. Qed.

Lemma blank_not_question (raw : str) :
  is_blank raw = true -> is_question raw = false.
Proof.
  unfold is_blank, is_question. destruct (Str.strip raw); [reflexivity|].
  discriminate.
Qed.

Lemma blank_not_answer (raw : str) :
  is_blank raw = true -> is_answer raw = false.
Proof.
  unfold is_blank, is_answer. destruct (Str.strip raw); [reflexivity|].
  discriminate.
Qed.

Lemma answer_not_question (raw : str) :
  is_answer raw = true -> is_question raw = false.
Proof.
  intro H. destruct (is_question raw) eqn:E; [|reflexivity].
  rewrite (@AnswerFacts.question_not_answer raw E) in H. discriminate.
Qed.

Lemma question_texts_answered (c : config) (a : str) (acc : list entry) :
  question_texts (answered c a acc) = question_texts acc.
Proof.
  unfold answered. destruct (Str.nonempty (c_clean c (Str.strip a)));
    [|reflexivity].
  rewrite question_texts_app. apply app_nil_r.
Qed.

Lemma filter_skipped (c : config) (pre : list str) :
  (forall x, c_skippable c (Str.strip x) = true -> is_question x = false) ->
  Forall (skipped c) pre -> filter is_question pre = [].
Proof.
  intros Hc. induction 1 as [|x pre [_ Hx] _ IH]; [reflexivity|].
  cbn [filter]. now rewrite (Hc x Hx).
Qed.

(** The questions of a run are the question lines, in their order. *)
Lemma run_questions (c : config) (lines : list str) (qn : nat)
    (acc r : list entry) :
  (forall line, question_texts (c_topic c line) = []) ->
  (forall x, c_skippable c (Str.strip x) = true -> is_question x = false) ->
  run c lines qn acc r ->
  question_texts r
  = question_texts acc ++ map question_text (filter is_question lines).
Proof.
  intros Ht Hs. induction 1 as [qn acc
                               |raw rest qn acc r HB HA _ IH
                               |raw rest qn acc r HT HQ HA _ IH
                               |raw pre a rest qn acc r HQ Hpre HA _ IH
                               |raw pre rest qn acc r HQ Hpre Hstop _ IH
                               |raw rest qn acc r HQ HT _ IH].
  - cbn [filter map]. now rewrite app_nil_r.
  - cbn [filter]. now rewrite (blank_not_question raw HB).
  - cbn [filter]. rewrite HQ, IH, question_texts_app, Ht. now rewrite app_nil_r.
  - cbn [filter]. rewrite HQ, filter_app, (filter_skipped Hs Hpre).
    cbn [app filter]. rewrite (answer_not_question a HA).
    rewrite IH, question_texts_answered. unfold asked.
    rewrite question_texts_app, <- app_assoc. reflexivity.
  - cbn [filter]. rewrite HQ, filter_app, (filter_skipped Hs Hpre).
    cbn [app]. rewrite IH. unfold asked.
    rewrite question_texts_app, <- app_assoc. reflexivity.
  - cbn [filter]. now rewrite HQ.
Qed.

Lemma final_skippable_not_question (x : str) :
  skippable_final (Str.strip x) = true -> is_question x = false.
Proof.
  unfold skippable_final, is_question. intro H.
  apply andb_true_iff in H as [_ H]. now apply negb_true_iff.
Qed.

Lemma improved_skippable_not_question (x : str) :
  skippable_improved (Str.strip x) = true -> is_question x = false.
Proof. apply blank_not_question. Qed.

(** *** process_db_qa *)

Lemma qa_topic_not_question (raw : str) :
  ProcessDbQa.is_topic (Str.strip raw) = true -> is_question raw = false.
Proof.
  unfold ProcessDbQa.is_topic, is_question. intro H.
  apply andb_true_iff in H as [H _]. apply andb_true_iff in H as [_ H].
  now apply negb_true_iff.
Qed.

Lemma qa_topic_not_answer (raw : str) :
  ProcessDbQa.is_topic (Str.strip raw) = true -> is_answer raw = false.
Proof.
  unfold is_answer. change (of_string "A:") with [65%N; 58%N].
  destruct (Str.strip raw) as [|c s]; [reflexivity|].
  cbn [Str.startswith]. destruct (65 =? c)%N eqn:E; [|reflexivity].
  apply N.eqb_eq in E. subst c. unfold ProcessDbQa.is_topic.
  replace (Re.matches ProcessDbQa.topic_re (65%N :: s)) with false
    by (vm_compute; reflexivity).
  discriminate.
Qed.

Lemma qa_step_questions (st : nat * list entry) (raw : str) :
  question_texts (snd (ProcessDbQa.step st raw))
  = question_texts (snd st)
    ++ (if is_question raw then [question_text raw] else []).
Proof.
  destruct st as [qn acc]. unfold ProcessDbQa.step. cbn [snd].
  destruct (negb (Str.nonempty (Str.strip raw)) && is_nil acc) eqn:EL.
  { apply andb_true_iff in EL as [EB _].
    rewrite (blank_not_question raw EB). now rewrite app_nil_r. }
  destruct (ProcessDbQa.is_topic (Str.strip raw)) eqn:ET.
  { rewrite (qa_topic_not_question raw ET). cbn [snd].
    rewrite question_texts_app. reflexivity. }
  unfold is_question.
  destruct (Str.startswith (of_string "Q:") (Str.strip raw)) eqn:EQ.
  { cbn [snd]. now rewrite question_texts_app. }
  rewrite app_nil_r.
  destruct (Str.startswith (of_string "A:") (Str.strip raw)).
  { destruct (Str.nonempty (ProcessDbQa.clean_answer (Str.strip raw)));
      [|reflexivity].
    cbn [snd]. rewrite question_texts_app. apply app_nil_r. }
  destruct (ProcessDbQa.should_skip (Str.strip raw)); [reflexivity|].
  destruct (Str.nonempty (Str.strip raw) && (3 <? List.length (Str.strip raw)));
    [|reflexivity].
  cbn [snd]. rewrite question_texts_app. apply app_nil_r.
Qed.

Lemma qa_fold_questions (lines : list str) (st : nat * list entry) :
  question_texts (snd (fold_left ProcessDbQa.step lines st))
  = question_texts (snd st) ++ map question_text (filter is_question lines).
Proof.
  revert st. induction lines as [|raw rest IH]; intro st.
  - cbn [fold_left filter map]. now rewrite app_nil_r.
  - cbn [fold_left filter]. rewrite IH, qa_step_questions, <- app_assoc.
    now destruct (is_question raw).
Qed.

Lemma qa_step_answers (st : nat * list entry) (raw : str) :
  answer_texts (snd (ProcessDbQa.step st raw))
  = answer_texts (snd st)
    ++ filter Str.nonempty
         (if is_answer raw then [cleaned_answer raw] else []).
Proof.
  destruct st as [qn acc]. unfold ProcessDbQa.step, cleaned_answer. cbn [snd].
  destruct (negb (Str.nonempty (Str.strip raw)) && is_nil acc) eqn:EL.
  { apply andb_true_iff in EL as [EB _].
    rewrite (blank_not_answer raw EB). now rewrite app_nil_r. }
  destruct (ProcessDbQa.is_topic (Str.strip raw)) eqn:ET.
  { rewrite (qa_topic_not_answer raw ET). cbn [snd filter].
    rewrite answer_texts_app. reflexivity. }
  destruct (Str.startswith (of_string "Q:") (Str.strip raw)) eqn:EQ.
  { rewrite (@AnswerFacts.question_not_answer raw EQ). cbn [snd filter].
    rewrite answer_texts_app. reflexivity. }
  unfold is_answer.
  destruct (Str.startswith (of_string "A:") (Str.strip raw)) eqn:EA.
  { cbn [filter].
    destruct (Str.nonempty (ProcessDbQa.clean_answer (Str.strip raw)));
      [|now rewrite app_nil_r].
    cbn [snd]. now rewrite answer_texts_app. }
  cbn [filter]. rewrite app_nil_r.
  destruct (ProcessDbQa.should_skip (Str.strip raw)); [reflexivity|].
  destruct (Str.nonempty (Str.strip raw) && (3 <? List.length (Str.strip raw)));
    [|reflexivity].
  cbn [snd]. rewrite answer_texts_app. apply app_nil_r.
Qed.

Lemma qa_fold_answers (lines : list str) (st : nat * list entry) :
  answer_texts (snd (fold_left ProcessDbQa.step lines st))
  = answer_texts (snd st)
    ++ filter Str.nonempty (map cleaned_answer (filter is_answer lines)).
Proof.
  revert st. induction lines as [|raw rest IH]; intro st.
  - cbn [fold_left filter map]. now rewrite app_nil_r.
  - cbn [fold_left filter]. rewrite IH, qa_step_answers, <- app_assoc.
    destruct (is_answer raw); cbn [map filter app]; [|reflexivity].
    now destruct (Str.nonempty (cleaned_answer raw)).
Qed.

End KeptFacts.

(** X1. Every cleaning script keeps every question of the text left by
    the fluff patterns, in the order of the lines: the texts of the question
    entries are the stripped rests of the lines that start with [Q:]. *)
Theorem X1_questions_kept (content : str) :
  Kept.question_texts (CleanDbFinal.entries content)
  = map Lookahead.question_text
      (filter Cleaner.is_question
         (Str.split Str.NL (CleanDbFinal.remove_fluff content)))
  /\ Kept.question_texts (ProcessDbQa.entries content)
     = map Lookahead.question_text
         (filter Cleaner.is_question
            (Str.split Str.NL (ProcessDbQa.remove_fluff content)))
  /\ Kept.question_texts (ProcessDbQaImproved.entries content)
     = map Lookahead.question_text
         (filter Cleaner.is_question
            (Str.split Str.NL (ProcessDbQaImproved.remove_fluff content))).
Proof.
  split; [|split].
  - apply (@KeptFacts.run_questions Lookahead.final_c _ 1 []);
      [reflexivity | apply KeptFacts.final_skippable_not_question
      | apply RunFacts.final_entries_run].
  - unfold ProcessDbQa.entries, ProcessDbQa.scan.
    apply (KeptFacts.qa_fold_questions _ (1, [])).
  - apply (@KeptFacts.run_questions Lookahead.improved_c _ 1 []);
      [reflexivity | apply KeptFacts.improved_skippable_not_question
      | apply RunFacts.improved_entries_run].
Qed.

(** X2. [process_db_qa] keeps every answer line whose cleaned text is not
    empty, in the order of the lines, wherever the line stands: the texts of
    its answer entries are the non-empty cleaned texts of the lines that
    start with [A:]. *)
Theorem X2_process_db_qa_answers_kept (content : str) :
  Kept.answer_texts (ProcessDbQa.entries content)
  = filter Str.nonempty
      (map Kept.cleaned_answer
         (filter Cleaner.is_answer
            (Str.split Str.NL (ProcessDbQa.remove_fluff content)))).
Proof.
  unfold ProcessDbQa.entries, ProcessDbQa.scan.
  apply (KeptFacts.qa_fold_answers _ (1, [])).
Qed.

(** ** The two loops as one pass *)

Module PassFacts.
Import Doc Cleaner CleanerFacts Lookahead Kept.

Lemma pass_cons (c : config) (raw : str) (rest : list str)
    (st : bool * nat * list entry) :
  pass c (raw :: rest) st = pass c rest (pass_step c st raw).
Proof. reflexivity. Qed.

Lemma pass_skipped (c : config) (pre rest : list str) (qn : nat)
    (acc : list entry) :
  Forall (skipped c) pre ->
  pass c (pre ++ rest) (true, qn, acc) = pass c rest (true, qn, acc).
Proof.
  induction 1 as [|x pre [HA HS] _ IH]; [reflexivity|].
  cbn [app]. rewrite pass_cons. unfold pass_step at 1.
  unfold is_answer in HA. rewrite HA, HS. cbn [andb]. exact IH.
Qed.

Lemma pass_gives_up (c : config) (rest : list str) (qn : nat)
    (acc : list entry) :
  gives_up c rest ->
  pass c rest (true, qn, acc) = pass c rest (false, qn, acc).
Proof.
  destruct rest as [|x rest]; [reflexivity|].
  intros [HA HS]. rewrite !pass_cons. unfold pass_step.
  unfold is_answer in HA. rewrite HA, HS. reflexivity.
Qed.

Lemma pass_question (c : config) (raw : str) (rest : list str) (qn : nat)
    (acc : list entry) :
  (forall x, is_question x = true -> c_is_topic c (Str.strip x) = false) ->
  is_question raw = true ->
  pass c (raw :: rest) (false, qn, acc)
  = pass c rest (true, S qn, asked qn raw acc).
Proof.
  intros Hqt HQ. rewrite pass_cons. unfold pass_step.
  rewrite (@AnswerFacts.question_nonempty raw HQ), (Hqt raw HQ).
  unfold is_question in HQ. rewrite HQ. reflexivity.
Qed.

(** A run of the nested loops ends where the single pass ends. *)
Lemma run_pass (c : config) (lines : list str) (qn : nat)
    (acc r : list entry) :
  c_is_topic c [] = false ->
  (forall x, is_question x = true -> c_is_topic c (Str.strip x) = false) ->
  run c lines qn acc r -> pass c lines (false, qn, acc) = r.
Proof.
  intros Hnil Hqt. induction 1 as [qn acc
                                  |raw rest qn acc r HB HA _ IH
                                  |raw rest qn acc r HT HQ HA _ IH
                                  |raw pre a rest qn acc r HQ Hpre HA _ IH
                                  |raw pre rest qn acc r HQ Hpre Hstop _ IH
                                  |raw rest qn acc r HQ HT _ IH].
  - reflexivity.
  - rewrite pass_cons. unfold pass_step. subst acc.
    unfold is_blank in HB. rewrite HB. exact IH.
  - rewrite pass_cons. unfold pass_step. cbn [andb].
    assert (HN : Str.nonempty (Str.strip raw) = true).
    { destruct (Str.strip raw); [now rewrite Hnil in HT | reflexivity]. }
    rewrite HN, HT. exact IH.
  - rewrite (@pass_question c raw (pre ++ a :: rest) qn acc Hqt HQ).
    rewrite (@pass_skipped c pre (a :: rest) (S qn) (asked qn raw acc) Hpre).
    rewrite pass_cons. unfold pass_step at 1.
    unfold is_answer in HA. rewrite HA. cbn [andb]. exact IH.
  - rewrite (@pass_question c raw (pre ++ rest) qn acc Hqt HQ).
    rewrite (@pass_skipped c pre rest (S qn) (asked qn raw acc) Hpre).
    rewrite (@pass_gives_up c rest (S qn) (asked qn raw acc) Hstop). exact IH.
  - rewrite pass_cons. unfold pass_step. cbn [andb].
    unfold is_question in HQ. rewrite HT, HQ.
    destruct (negb (Str.nonempty (Str.strip raw)) && is_nil acc); exact IH.
Qed.

(** *** Where the answers stand *)

Lemma last_question_app (b : bool) (a c : list entry) :
  last_question b (a ++ c) = last_question (last_question b a) c.
Proof.
  revert b. induction a as [|e a IH]; intro b; [reflexivity|].
  cbn [app last_question]. apply IH.
Qed.

Lemma placed_app (a c : list entry) :
  forall b, answers_placed b a = true ->
            answers_placed b (a ++ c) = answers_placed (last_question b a) c.
Proof.
  induction a as [|e a IH]; intros b H; [reflexivity|].
  destruct e as [line| |n text|text|line]; cbn [app answers_placed last_question
                                                is_question_entry] in *;
    try (apply IH; exact H).
  apply andb_true_iff in H as [H H2]. apply andb_true_iff in H as [Hb HB].
  rewrite Hb. destruct a as [|[| | | |] a]; try discriminate HB.
  cbn [app andb]. apply IH. exact H2.
Qed.

Lemma placed_asked (qn : nat) (raw : str) (acc : list entry) :
  answers_placed false acc = true ->
  answers_placed false (asked qn raw acc) = true
  /\ last_question false (asked qn raw acc) = true.
Proof.
  intro H. unfold asked.
  rewrite (@placed_app acc _ false H), last_question_app.
  split; reflexivity.
Qed.

Lemma placed_answered (c : config) (qn : nat) (raw a : str)
    (acc : list entry) :
  answers_placed false acc = true ->
  answers_placed false (answered c a (asked qn raw acc)) = true.
Proof.
  intro H. destruct (@placed_asked qn raw acc H) as [H1 H2].
  unfold answered. destruct (Str.nonempty (c_clean c (Str.strip a)));
    [|exact H1].
  rewrite (@placed_app (asked qn raw acc) _ false H1), H2. reflexivity.
Qed.

Lemma run_placed (c : config) (lines : list str) (qn : nat)
    (acc r : list entry) :
  (forall b line, answers_placed b (c_topic c line) = true) ->
  run c lines qn acc r ->
  answers_placed false acc = true -> answers_placed false r = true.
Proof.
  intros Ht. induction 1 as [qn acc
                            |raw rest qn acc r HB HA _ IH
                            |raw rest qn acc r HT HQ HA _ IH
                            |raw pre a rest qn acc r HQ Hpre HA _ IH
                            |raw pre rest qn acc r HQ Hpre Hstop _ IH
                            |raw rest qn acc r HQ HT _ IH]; intro H; auto.
  - apply IH. rewrite (@placed_app acc _ false H). apply Ht.
  - apply IH. now apply placed_answered.
  - apply IH. now apply placed_asked.
Qed.

(** *** A text without questions and headings *)

Lemma run_nothing (c : config) (lines : list str) (qn : nat)
    (acc r : list entry) :
  run c lines qn acc r ->
  forallb (fun raw => negb (is_question raw)
                      && negb (c_is_topic c (Str.strip raw))) lines = true ->
  r = acc.
Proof.
  induction 1 as [qn acc
                 |raw rest qn acc r HB HA _ IH
                 |raw rest qn acc r HT HQ HA _ IH
                 |raw pre a rest qn acc r HQ Hpre HA _ IH
                 |raw pre rest qn acc r HQ Hpre Hstop _ IH
                 |raw rest qn acc r HQ HT _ IH];
    cbn [forallb]; intro H; try reflexivity;
    apply andb_true_iff in H as [H1 H2].
  - now apply IH.
  - rewrite HT in H1. now rewrite andb_false_r in H1.
  - rewrite HQ in H1. discriminate H1.
  - rewrite HQ in H1. discriminate H1.
  - now apply IH.
Qed.

End PassFacts.

(** X3. The nested loops of [clean_db_final] and of
    [process_db_qa_improved], with their stepping back of the index, give
    the entries of a single pass over the lines that carries one flag: a
    question has been written and its answer is looked for. *)
Theorem X3_single_pass (content : str) :
  CleanDbFinal.entries content
  = Lookahead.pass Lookahead.final_c
      (Str.split Str.NL (CleanDbFinal.remove_fluff content)) (false, 1, [])
  /\ ProcessDbQaImproved.entries content
     = Lookahead.pass Lookahead.improved_c
         (Str.split Str.NL (ProcessDbQaImproved.remove_fluff content))
         (false, 1, []).
Proof.
  split; symmetry.
  - apply (@PassFacts.run_pass Lookahead.final_c);
      [vm_compute; reflexivity
      |exact AnswerFacts.final_question_not_topic
      |apply RunFacts.final_entries_run].
  - apply (@PassFacts.run_pass Lookahead.improved_c);
      [vm_compute; reflexivity
      |exact AnswerFacts.improved_question_not_topic
      |apply RunFacts.improved_entries_run].
Qed.

(** X4. In what [clean_db_final] and [process_db_qa_improved] append,
    every answer comes directly after a question and directly before a blank
    entry, so a question has one answer at most and no answer stands alone;
    and no line of the input is passed through as it is. *)
Theorem X4_answers_follow_questions (content : str) :
  Kept.answers_placed false (CleanDbFinal.entries content) = true
  /\ forallb (fun e => negb (Kept.is_other_entry e))
       (CleanDbFinal.entries content) = true
  /\ Kept.answers_placed false (ProcessDbQaImproved.entries content) = true
  /\ forallb (fun e => negb (Kept.is_other_entry e))
       (ProcessDbQaImproved.entries content) = true.
Proof.
  assert (Hno : forall v lines qn acc,
             Cleaner.topic_shape v ->
             (forall line, Cleaner.v_passes v line = false) ->
             Cleaner.reach v lines qn acc ->
             forallb (fun e => negb (Kept.is_other_entry e)) acc = true).
  { intros v lines qn acc Hv Hp Hr.
    apply (Invariants.reach_entry_from Hv) in Hr as [_ Hr].
    apply forallb_forall. rewrite Forall_forall in Hr. intros e He.
    specialize (Hr e He). destruct e; try reflexivity.
    destruct Hr as (raw & _ & _ & H). now rewrite Hp in H. }
  split; [|split; [|split]].
  - eapply (@PassFacts.run_placed Lookahead.final_c);
      [intros b line; reflexivity | apply RunFacts.final_entries_run
      | reflexivity].
  - destruct (CleanerFacts.final_entries_reach content) as [qn H].
    apply (Hno _ _ _ _ Invariants.final_topic_shape (fun _ => eq_refl) H).
  - eapply (@PassFacts.run_placed Lookahead.improved_c);
      [intros b line; reflexivity | apply RunFacts.improved_entries_run
      | reflexivity].
  - destruct (CleanerFacts.improved_entries_reach content) as [qn H].
    apply (Hno _ _ _ _ Invariants.improved_topic_shape (fun _ => eq_refl) H).
Qed.

(** X5. Each script by itself: when no line of the text left by its
    fluff patterns starts with [Q:] or is a heading for it,
    [clean_db_final] writes the empty file and prints the counts 0, 0, 0,
    and so does [process_db_qa_improved]: answers without a question and
    all other text are dropped. *)
Theorem X5_nothing_without_questions (content : str) :
  (forallb (fun raw => negb (Cleaner.is_question raw)
                       && negb (CleanDbFinal.is_topic (Str.strip raw)))
     (Str.split Str.NL (CleanDbFinal.remove_fluff content)) = true ->
   CleanDbFinal.clean_db_final content = ([], (0, 0, 0)))
  /\ (forallb (fun raw => negb (Cleaner.is_question raw)
                          && negb (ProcessDbQaImproved.is_topic (Str.strip raw)))
        (Str.split Str.NL (ProcessDbQaImproved.remove_fluff content)) = true ->
      ProcessDbQaImproved.process_db_qa_improved content = ([], (0, 0, 0))).
Proof.
  split.
  - intro H1.
    pose proof (@PassFacts.run_nothing _ _ _ _ _
                  (RunFacts.final_entries_run content) H1) as E1.
    unfold CleanDbFinal.clean_db_final, CleanDbFinal.processed_lines.
    now rewrite E1.
  - intro H2.
    pose proof (@PassFacts.run_nothing _ _ _ _ _
                  (RunFacts.improved_entries_run content) H2) as E2.
    unfold ProcessDbQaImproved.process_db_qa_improved,
      ProcessDbQaImproved.processed_lines.
    now rewrite E2.
Qed.

(** On the second text the fluff patterns of [clean_db_final] remove the
    question line, while [process_db_qa_improved] keeps the question. *)
Lemma X5_nothing_without_questions_witness :
  let content := of_string "Notes from the call
A: an answer without its question

   
more text" in
  let fluff := of_string "You said: Proceed ChatGPT said: Perfect.
Q: x
Here's a comprehensive migrations." in
  CleanDbFinal.clean_db_final content = ([], (0, 0, 0))
  /\ ProcessDbQaImproved.process_db_qa_improved content = ([], (0, 0, 0))
  /\ CleanDbFinal.clean_db_final fluff = ([], (0, 0, 0))
  /\ snd (ProcessDbQaImproved.process_db_qa_improved fluff) = (0, 1, 0).
Proof.
  intros content fluff.
  split.
  { apply (proj1 (X5_nothing_without_questions content)).
    vm_compute. reflexivity. }
  split.
  { apply (proj2 (X5_nothing_without_questions content)).
    vm_compute. reflexivity. }
  split.
  { apply (proj1 (X5_nothing_without_questions fluff)).
    vm_compute. reflexivity. }
  vm_compute. reflexivity.
Defined.

(** ** The fluff removers only delete *)

Module SubseqFacts.
Import Re Text Kept.

Lemma subseq_refl (A : Type) (l : list A) : subseq l l.
Proof. induction l; constructor; assumption. Qed.

Lemma subseq_trans (A : Type) (a b c : list A) :
  subseq a b -> subseq b c -> subseq a c.
Proof.
  intros Hab Hbc. revert a Hab.
  induction Hbc as [|x b c Hbc IH|x b c Hbc IH]; intros a Hab.
  - exact Hab.
  - inversion Hab; subst.
    + constructor. now apply IH.
    + apply subseq_drop. now apply IH.
  - apply subseq_drop. now apply IH.
Qed.

Lemma subseq_length (A : Type) (a b : list A) :
  subseq a b -> List.length a <= List.length b.
Proof. induction 1; simpl; lia. Qed.

(** [re.sub(r, '', s)] leaves characters out and does nothing else. *)
Lemma sub_from_subseq (r : regex) (s : str) :
  forall bos n, subseq (sub_from r [] bos n s) s.
Proof.
  induction s as [|c s IH]; intros bos n.
  - destruct n as [|n]; cbn [sub_from]; [|constructor].
    destruct (match_at r bos []) as [[rest cs]|]; [|constructor].
    destruct (List.length (@nil char) - List.length rest); constructor.
  - destruct n as [|n]; cbn [sub_from].
    + destruct (match_at r bos (c :: s)) as [[rest cs]|].
      * destruct (List.length (c :: s) - List.length rest); cbn [app].
        -- constructor. apply IH.
        -- apply subseq_drop. apply IH.
      * constructor. apply IH.
    + apply subseq_drop. apply IH.
Qed.

Lemma remove_subseq (patterns : list regex) (text : str) :
  subseq (fold_left (fun cleaned pattern => re_sub pattern [] cleaned)
            patterns text) text.
Proof.
  revert text. induction patterns as [|r patterns IH]; intro text.
  - apply subseq_refl.
  - cbn [fold_left]. eapply subseq_trans; [apply IH|].
    apply sub_from_subseq.
Qed.

Lemma squeeze_subseq (p : char -> bool) (x : char) (s : str) :
  (forall c, p c = true -> c = x) -> subseq (squeeze p x s) s.
Proof.
  intro Hx. induction s as [|c s IH]; [constructor|].
  rewrite ReFacts.squeeze_eq. destruct (p c) eqn:Hc.
  - pose proof (Hx c Hc) as E. subst c.
    destruct s as [|d s]; [repeat constructor|].
    destruct (p d).
    + apply subseq_drop. exact IH.
    + constructor. exact IH.
  - constructor. exact IH.
Qed.

End SubseqFacts.

(** X6. Fluff removal only deletes: in each of the four scripts the text
    left by the loop over the fluff patterns is the input with some
    characters left out, and so is the whole text that [simple_clean] writes
    (its two clean-up substitutions replace a run by one character of the
    run).  No character is added, changed or moved, and the text never gets
    longer. *)
Theorem X6_fluff_removal_only_deletes (content : str) :
  Kept.subseq (CleanDbFinal.remove_fluff content) content
  /\ Kept.subseq (ProcessDbQa.remove_fluff content) content
  /\ Kept.subseq (ProcessDbQaImproved.remove_fluff content) content
  /\ Kept.subseq (SimpleClean.remove_fluff content) content
  /\ Kept.subseq (SimpleClean.simple_clean content) content
  /\ List.length (SimpleClean.simple_clean content) <= List.length content.
Proof.
  assert (H : Kept.subseq (SimpleClean.simple_clean content) content).
  { rewrite FluffFacts.simple_clean_squeeze.
    eapply SubseqFacts.subseq_trans;
      [apply SubseqFacts.squeeze_subseq|].
    { intros c Hc. now apply N.eqb_eq in Hc. }
    eapply SubseqFacts.subseq_trans;
      [apply SubseqFacts.squeeze_subseq|apply SubseqFacts.remove_subseq].
    intros c Hc. now apply N.eqb_eq in Hc. }
  repeat split; try apply SubseqFacts.remove_subseq; [exact H|].
  now apply SubseqFacts.subseq_length.
Qed.

(** X7. Whatever the input, the text [simple_clean] writes has no two
    spaces next to each other and no two periods next to each other. *)
Theorem X7_simple_clean_no_double_space_or_period (content : str) :
  Text.no_run (Re.only Str.SP) (SimpleClean.simple_clean content) = true
  /\ Text.no_run (Re.only Text.dot) (SimpleClean.simple_clean content) = true.
Proof. apply FluffFacts.simple_clean_no_runs. Qed.

(** ** The counts printed and the lines written *)

Module TallyFacts.
Import Re Doc Cleaner Text Lines LineFacts Kept.

Lemma rep_greedy_max (p : char -> bool) (K : cont) (ds : str) (c : char)
    (rest : str) (cs : caps) (r : str * caps) :
  (forall bos, K bos (c :: rest) cs = Some r) ->
  p c = false ->
  Forall (fun d => p d = true) ds ->
  forall bos, rep_greedy p K bos (ds ++ c :: rest) cs = Some r.
Proof.
  intros HK Hp. induction 1 as [|d ds Hd _ IH]; intro bos.
  - cbn [app rep_greedy]. rewrite Hp. apply HK.
  - cbn [app rep_greedy]. now rewrite Hd, IH.
Qed.

(** The string of a question entry is counted as a question. *)
Lemma question_render_matches (n : nat) (text : str) :
  matches numbered_q_re (Str.show n ++ of_string ". Q: " ++ text) = true.
Proof.
  destruct (StrFacts.show_head n) as (d & ds & -> & Hd & Hds).
  unfold matches, re_match, match_at, numbered_q_re, seqs, Plus.
  cbn [fold_right exec]. unfold one at 1. cbn [app].
  rewrite (StrFacts.ascii_digit_isdecimal d Hd).
  change (of_string ". Q: ") with [46%N; 32%N; 81%N; 58%N; 32%N].
  cbn [app].
  erewrite rep_greedy_max; [reflexivity | | reflexivity |].
  - intro bos. vm_compute. reflexivity.
  - eapply Forall_impl; [|exact Hds]. apply StrFacts.ascii_digit_isdecimal.
Qed.

Lemma digit_line_kinds (d : char) (x : str) :
  Unicode.is_ascii_digit d = true ->
  Str.startswith (of_string "## ") (d :: x) = false
  /\ Str.startswith (of_string "A:") (d :: x) = false.
Proof.
  intro H. apply StrFacts.ascii_digit_cases in H.
  repeat (destruct H as [H|H]; [subst; split; reflexivity|]).
  subst. split; reflexivity.
Qed.

(** What the three tests of the counts say of the string of an entry, in a
    script that passes no line through. *)
Lemma render_kinds (v : variant) (lines : list str) (fmt : str -> str)
    (e : entry) :
  (forall line, v_passes v line = false) ->
  (forall line, exists r, fmt line = Str.NL :: r) ->
  entry_from v lines e ->
  Str.startswith (of_string "## ") (render fmt e) = false
  /\ matches numbered_q_re (render fmt e) = is_question_entry e
  /\ Str.startswith (of_string "A:") (render fmt e) = is_answer_entry e.
Proof.
  intros Hp Hf. destruct e as [line| |n text|text|line]; cbn [render
    is_question_entry is_answer_entry].
  - intros _. destruct (Hf line) as [r ->].
    split; [|split]; vm_compute; reflexivity.
  - intros _. split; [|split]; vm_compute; reflexivity.
  - intros _. split; [|split].
    + destruct (StrFacts.show_head n) as (d & ds & -> & Hd & _).
      apply (@digit_line_kinds d _ Hd).
    + apply question_render_matches.
    + destruct (StrFacts.show_head n) as (d & ds & -> & Hd & _).
      apply (@digit_line_kinds d _ Hd).
  - intros _. split; [|split]; vm_compute; reflexivity.
  - intros (raw & _ & _ & H). now rewrite Hp in H.
Qed.

Lemma count_app (f : str -> bool) (a b : list str) :
  count f (a ++ b) = count f a + count f b.
Proof. unfold count. now rewrite filter_app, length_app. Qed.

Lemma count_map_kind (f : str -> bool) (g : entry -> str) (h : entry -> bool)
    (es : list entry) :
  Forall (fun e => f (g e) = h e) es ->
  count f (map g es) = List.length (filter h es).
Proof.
  unfold count. induction 1 as [|e es He _ IH]; [reflexivity|].
  cbn [map filter]. rewrite He. destruct (h e); cbn [List.length]; now rewrite IH.
Qed.

Lemma count_flat_kind (f : str -> bool) (g : entry -> list str)
    (h : entry -> bool) (es : list entry) :
  Forall (fun e => count f (g e) = if h e then 1 else 0) es ->
  count f (flat_map g es) = List.length (filter h es).
Proof.
  induction 1 as [|e es He _ IH]; [reflexivity|].
  cbn [flat_map filter]. rewrite count_app, He, IH.
  now destruct (h e).
Qed.

Lemma flat_map_map (A B C : Type) (f : B -> list C) (g : A -> B)
    (l : list A) :
  flat_map f (map g l) = flat_map (fun x => f (g x)) l.
Proof.
  induction l as [|x l IH]; [reflexivity|].
  cbn [map flat_map]. now rewrite IH.
Qed.

(** The lines of the string of one entry, counted by the three tests. *)
Lemma render_line_counts (v : variant) (fmt : str -> str)
    (lines0 : list str) (e : entry) :
  (forall line, fmt line = Str.NL :: of_string "## " ++ line
                \/ fmt line = Str.NL :: of_string "## " ++ line ++ [Str.NL]) ->
  (forall line, v_passes v line = false) ->
  (forall line, collapsed (v_clean_answer v line) = true) ->
  Forall (fun l => nl_free l = true) lines0 ->
  entry_from v lines0 e ->
  count (Str.startswith (of_string "## ")) (Str.split Str.NL (render fmt e))
  = (if is_topic_entry e then 1 else 0)
  /\ count (matches numbered_q_re) (Str.split Str.NL (render fmt e))
     = (if is_question_entry e then 1 else 0)
  /\ count (Str.startswith (of_string "A:")) (Str.split Str.NL (render fmt e))
     = (if is_answer_entry e then 1 else 0).
Proof.
  intros Hfmt Hpass Hclean Hfree.
  assert (Hhead : forall line, nl_free line = true ->
                    Str.split Str.NL (of_string "## " ++ line)
                    = [35%N :: 35%N :: 32%N :: line]).
  { intros line Hl. apply split_free.
    change (nl_free (of_string "## " ++ line) = true).
    rewrite nl_free_app, Hl. reflexivity. }
  assert (Hq : forall x, matches numbered_q_re (35%N :: x) = false)
    by (intro x; vm_compute; reflexivity).
  destruct e as [line| |n text|text|line];
    cbn [entry_from render is_topic_entry is_question_entry is_answer_entry].
  - intros (raw & Hin & -> & _).
    pose proof (@SkipFacts.from_line_free lines0 raw Hfree Hin) as Hl.
    destruct (Hfmt (Str.strip raw)) as [-> | ->].
    + rewrite split_eq. cbn [N.eqb Str.NL Pos.eqb].
      rewrite (Hhead _ Hl). unfold count. cbn [filter].
      rewrite Hq. split; [|split]; vm_compute; reflexivity.
    + rewrite split_eq. cbn [N.eqb Str.NL Pos.eqb].
      rewrite app_assoc.
      change [Str.NL] with (Str.NL :: []).
      rewrite split_app_sep, (Hhead _ Hl). cbn [app Str.split].
      unfold count. cbn [filter]. rewrite Hq.
      split; [|split]; vm_compute; reflexivity.
  - intros _. split; [|split]; vm_compute; reflexivity.
  - intros [_ (raw & Hin & _ & ->)].
    pose proof (question_render_matches n (Str.strip (skipn 2 (Str.strip raw))))
      as Hm.
    destruct (StrFacts.show_head n) as (d & ds & E & Hd & Hds).
    assert (Hdd : Forall (fun c => Unicode.is_ascii_digit c = true) (d :: ds))
      by now constructor.
    rewrite split_free.
    + unfold count. cbn [filter]. rewrite Hm.
      rewrite E. cbn [app].
      destruct (@digit_line_kinds d
                  (ds ++ of_string ". Q: "
                   ++ Str.strip (skipn 2 (Str.strip raw))) Hd) as [-> ->].
      split; [|split]; reflexivity.
    + rewrite E, nl_free_app, (@digits_nl_free (d :: ds) Hdd), nl_free_app.
      rewrite (@nl_free_strip _ (@nl_free_skipn 2 _
                 (@SkipFacts.from_line_free lines0 raw Hfree Hin))).
      reflexivity.
  - intros [_ (raw & Hin & _ & ->)].
    rewrite split_free.
    + unfold count. cbn [filter].
      replace (matches numbered_q_re
                 (of_string "A: " ++ v_clean_answer v (Str.strip raw)))
        with false by (vm_compute; reflexivity).
      split; [|split]; vm_compute; reflexivity.
    + rewrite nl_free_app, (@collapsed_nl_free _ (Hclean _)). reflexivity.
  - intros (raw & _ & _ & H). now rewrite Hpass in H.
Qed.

(** The counts printed and the counts of the lines written, for the
    entries of a script that passes no line through. *)
Lemma reach_counts (v : variant) (fmt : str -> str) (lines0 : list str)
    (qn : nat) (acc : list entry) :
  topic_shape v ->
  (forall line, fmt line = Str.NL :: of_string "## " ++ line
                \/ fmt line = Str.NL :: of_string "## " ++ line ++ [Str.NL]) ->
  (forall line, v_passes v line = false) ->
  (forall line, collapsed (v_clean_answer v line) = true) ->
  Forall (fun l => nl_free l = true) lines0 ->
  reach v lines0 qn acc ->
  counts (map (render fmt) acc)
  = (0, List.length (filter is_question_entry acc),
     List.length (filter is_answer_entry acc))
  /\ doc_counts (written (map (render fmt) acc)) = tally acc.
Proof.
  intros Hv Hfmt Hpass Hclean Hfree Hr.
  apply (Invariants.reach_entry_from Hv) in Hr as [_ Hr].
  assert (Hf : forall line, exists r, fmt line = Str.NL :: r).
  { intro line. destruct (Hfmt line) as [-> | ->]; eauto. }
  split.
  - unfold counts. f_equal; [f_equal|].
    + apply CountFacts.count_zero, Forall_map.
      eapply Forall_impl; [|exact Hr]. intros e He.
      now destruct (@render_kinds v lines0 fmt e Hpass Hf He).
    + apply count_map_kind. eapply Forall_impl; [|exact Hr]. intros e He.
      now destruct (@render_kinds v lines0 fmt e Hpass Hf He) as (_ & H & _).
    + apply count_map_kind. eapply Forall_impl; [|exact Hr]. intros e He.
      now destruct (@render_kinds v lines0 fmt e Hpass Hf He) as (_ & _ & H).
  - unfold doc_counts, written, tally.
    destruct acc as [|e acc]; [reflexivity|].
    rewrite split_join by discriminate. rewrite flat_map_map.
    unfold counts. f_equal; [f_equal|];
      apply count_flat_kind; (eapply Forall_impl; [|exact Hr]);
      intros e' He';
      destruct (@render_line_counts v fmt lines0 e' Hfmt Hpass Hclean Hfree He')
        as (H1 & H2 & H3); assumption.
Qed.

End TallyFacts.

(** X8. In [clean_db_final] and in [process_db_qa_improved] the numbers
    of questions and of answers printed are the numbers of question and
    answer entries appended, and these are the numbers of question lines and
    answer lines of the file written; the file has one heading line for each
    heading entry, while the number of topics printed is 0. *)
Theorem X8_question_and_answer_counts (content : str) :
  snd (CleanDbFinal.clean_db_final content)
  = (0, List.length (filter Kept.is_question_entry (CleanDbFinal.entries content)),
     List.length (filter Kept.is_answer_entry (CleanDbFinal.entries content)))
  /\ Cleaner.doc_counts (fst (CleanDbFinal.clean_db_final content))
     = Kept.tally (CleanDbFinal.entries content)
  /\ snd (ProcessDbQaImproved.process_db_qa_improved content)
     = (0, List.length (filter Kept.is_question_entry
                          (ProcessDbQaImproved.entries content)),
        List.length (filter Kept.is_answer_entry
                       (ProcessDbQaImproved.entries content)))
  /\ Cleaner.doc_counts (fst (ProcessDbQaImproved.process_db_qa_improved content))
     = Kept.tally (ProcessDbQaImproved.entries content).
Proof.
  destruct (CleanerFacts.final_entries_reach content) as [qn1 H1].
  destruct (CleanerFacts.improved_entries_reach content) as [qn2 H2].
  destruct (@TallyFacts.reach_counts Cleaner.clean_db_final_v
              CleanDbFinal.topic_fmt _ qn1 _ Invariants.final_topic_shape
              (fun line => or_introl eq_refl) (fun _ => eq_refl)
              AnswerTextFacts.final_clean_collapsed
              (LineFacts.split_lines_free _) H1) as [A1 B1].
  destruct (@TallyFacts.reach_counts Cleaner.process_db_qa_improved_v
              ProcessDbQaImproved.topic_fmt _ qn2 _
              Invariants.improved_topic_shape
              (fun line => or_intror eq_refl) (fun _ => eq_refl)
              AnswerTextFacts.improved_clean_collapsed
              (LineFacts.split_lines_free _) H2) as [A2 B2].
  split; [exact A1|]. split; [exact B1|]. split; [exact A2 | exact B2].
Qed.

(** ** simple_clean: the count of answers *)

Module FindallFacts.
Import Re Doc Lines LineFacts SimpleCleanCounts.

Lemma match_answer_line (ls : bool) (s : str) :
  match_at answer_line_re ls s
  = if ls && sw s then Some (skipn 2 s, []) else None.
Proof.
  unfold match_at, answer_line_re, lits, sw.
  change (of_string "A:") with [65%N; 58%N].
  cbv [seqs map fold_right exec one accept]. cbn [Str.startswith].
  destruct ls; [|reflexivity]. cbn [andb].
  destruct s as [|c s]; [reflexivity|].
  rewrite (N.eqb_sym 65 c). destruct (c =? 65)%N; [|reflexivity].
  destruct s as [|d s]; [reflexivity|].
  rewrite (N.eqb_sym 58 d). destruct (d =? 58)%N; reflexivity.
Qed.

Lemma sw_cons (c : char) (s : str) :
  sw (c :: s) = true -> exists s', c = 65%N /\ s = 58%N :: s'.
Proof.
  unfold sw. change (of_string "A:") with [65%N; 58%N].
  cbn [Str.startswith]. intro H.
  apply andb_true_iff in H as [H1 H2]. apply N.eqb_eq in H1.
  destruct s as [|d s]; [discriminate|].
  apply andb_true_iff in H2 as [H2 _]. apply N.eqb_eq in H2.
  subst. eauto.
Qed.

(** The first line starts with the marker when the text does. *)
Lemma first_line_sw (s : str) :
  sw (hd [] (Str.split Str.NL s)) = sw s.
Proof.
  unfold sw. change (of_string "A:") with [65%N; 58%N].
  destruct s as [|c s]; [reflexivity|].
  rewrite split_eq. destruct (c =? Str.NL)%N eqn:E.
  - apply N.eqb_eq in E. subst c. reflexivity.
  - pose proof (split_nonempty Str.NL s) as Hn.
    destruct (Str.split Str.NL s) as [|h t] eqn:Es; [congruence|].
    cbn [hd Str.startswith]. f_equal.
    destruct s as [|d s]; [now inversion Es|].
    rewrite split_eq in Es. destruct (d =? Str.NL)%N eqn:E2.
    + inversion Es; subst. apply N.eqb_eq in E2. subst d. reflexivity.
    + pose proof (split_nonempty Str.NL s) as Hn2.
      destruct (Str.split Str.NL s) as [|h2 t2]; [congruence|].
      inversion Es; subst. reflexivity.
Qed.

Lemma later_lines_cons (c : char) (s : str) :
  later_lines (c :: s)
  = if (c =? Str.NL)%N then (if sw s then 1 else 0) + later_lines s
    else later_lines s.
Proof.
  unfold later_lines. rewrite split_eq.
  pose proof (split_nonempty Str.NL s) as Hn.
  pose proof (first_line_sw s) as Hf.
  destruct (c =? Str.NL)%N.
  - cbn [tl]. destruct (Str.split Str.NL s) as [|h t]; [congruence|].
    cbn [hd] in Hf. unfold count. cbn [filter tl]. rewrite Hf.
    now destruct (sw s).
  - destruct (Str.split Str.NL s) as [|h t]; [congruence|]. reflexivity.
Qed.

Lemma count_from_here (r : regex) (ls : bool) (c : char) (s : str) :
  count_from r ls 0 (c :: s)
  = match match_at r ls (c :: s) with
    | Some (rest, _) =>
        match List.length (c :: s) - List.length rest with
        | S n => S (count_from r (c =? Str.NL)%N n s)
        | O => S (count_from r (c =? Str.NL)%N 0 s)
        end
    | None => count_from r (c =? Str.NL)%N 0 s
    end.
Proof. reflexivity. Qed.

Lemma count_from_skip (r : regex) (ls : bool) (n : nat) (c : char) (s : str) :
  count_from r ls (S n) (c :: s) = count_from r (c =? Str.NL)%N n s.
Proof. reflexivity. Qed.

Lemma count_from_answers (n : nat) :
  forall s ls,
    List.length s <= n ->
    count_from answer_line_re ls 0 s
    = (if ls && sw s then 1 else 0) + later_lines s.
Proof.
  induction n as [|n IH]; intros s ls Hn.
  - destruct s; [|simpl in Hn; lia].
    cbn [count_from]. rewrite match_answer_line.
    now destruct ls.
  - destruct s as [|c s].
    { cbn [count_from]. rewrite match_answer_line. now destruct ls. }
    simpl in Hn. rewrite count_from_here, match_answer_line.
    destruct (ls && sw (c :: s)) eqn:E.
    + apply andb_true_iff in E as [_ E].
      destruct (sw_cons c s E) as (s' & -> & ->).
      cbn [skipn].
      match goal with
      | |- context [?a - ?b] =>
          replace (a - b) with 2 by (cbn [List.length]; lia)
      end.
      cbv beta iota. rewrite count_from_skip.
      rewrite (IH s' (58 =? Str.NL)%N) by (simpl in Hn; lia).
      rewrite !later_lines_cons.
      change (65 =? Str.NL)%N with false. change (58 =? Str.NL)%N with false.
      reflexivity.
    + rewrite (IH s (c =? Str.NL)%N) by lia.
      rewrite later_lines_cons.
      destruct (c =? Str.NL)%N; reflexivity.
Qed.

Lemma findall_answers (s : str) :
  findall_count answer_line_re s = count sw (Str.split Str.NL s).
Proof.
  unfold findall_count.
  rewrite (@count_from_answers (List.length s) s true (Nat.le_refl _)).
  cbn [andb]. unfold later_lines.
  pose proof (split_nonempty Str.NL s) as Hn.
  pose proof (first_line_sw s) as Hf.
  destruct (Str.split Str.NL s) as [|h t]; [congruence|].
  cbn [hd] in Hf. unfold count. cbn [filter tl]. rewrite Hf.
  now destruct (sw s).
Qed.

End FindallFacts.

(** X9. The number of answers [simple_clean] prints, which it finds with
    [re.findall(r'^A:', ..., re.MULTILINE)], is the number of lines of the
    text written that start with [A:]. *)
Theorem X9_simple_clean_answer_count (content : str) :
  snd (SimpleCleanCounts.counts content)
  = Doc.count (Str.startswith (of_string "A:"))
      (Lines.lines_of (SimpleClean.simple_clean content)).
Proof. apply FindallFacts.findall_answers. Qed.

(** ** More on the reorder script *)

Module ReorderMore.
Import Re ReorderQuestions ReorderSpec Kept Groups.

Lemma sort_nondecreasing (A : Type) (key : A -> N) (l : list A) :
  nondecreasing (map key l) = true -> sort key l = l.
Proof.
  induction l as [|x l IH]; [reflexivity|].
  cbn [map nondecreasing]. intro H. apply andb_true_iff in H as [H1 H2].
  cbn [sort fold_right]. change (fold_right (insert key) [] l) with (sort key l).
  rewrite (IH H2). destruct l as [|y l]; [reflexivity|].
  cbn [map] in H1. cbn [insert]. now rewrite H1.
Qed.

(** *** Where a continuation is called *)

Lemma rep_greedy_reaches (p : char -> bool) (K : cont) (s : str) :
  forall bos cs x,
    rep_greedy p K bos s cs = Some x ->
    exists bos' pre s', s = pre ++ s' /\ K bos' s' cs = Some x.
Proof.
  induction s as [|c s IH]; intros bos cs x H.
  - exists bos, [], []. split; [reflexivity | exact H].
  - cbn [rep_greedy] in H. destruct (p c).
    + destruct (rep_greedy p K false s cs) as [y|] eqn:E.
      * injection H as <-. destruct (IH _ _ _ E) as (b' & pre & s' & -> & HK).
        exists b', (c :: pre), s'. split; [reflexivity | exact HK].
      * exists bos, [], (c :: s). split; [reflexivity | exact H].
    + exists bos, [], (c :: s). split; [reflexivity | exact H].
Qed.

Lemma rep_lazy_reaches (p : char -> bool) (K : cont) (s : str) :
  forall bos cs x,
    rep_lazy p K bos s cs = Some x ->
    exists bos' pre s', s = pre ++ s' /\ K bos' s' cs = Some x.
Proof.
  induction s as [|c s IH]; intros bos cs x H.
  - cbn [rep_lazy] in H. destruct (K bos [] cs) eqn:E; [|discriminate].
    injection H as <-. exists bos, [], []. split; [reflexivity | exact E].
  - cbn [rep_lazy] in H. destruct (K bos (c :: s) cs) eqn:E.
    + injection H as <-. exists bos, [], (c :: s). split; [reflexivity|exact E].
    + destruct (p c); [|discriminate].
      destruct (IH _ _ _ H) as (b' & pre & s' & -> & HK).
      exists b', (c :: pre), s'. split; [reflexivity | exact HK].
Qed.

Lemma one_reaches (p : char -> bool) (K : cont) (s : str) (cs : caps)
    (x : str * caps) :
  one p K s cs = Some x ->
  exists bos' pre s', s = pre ++ s' /\ K bos' s' cs = Some x.
Proof.
  unfold one. destruct s as [|c s]; [discriminate|].
  destruct (p c); [|discriminate].
  intro H. exists false, [c], s. split; [reflexivity | exact H].
Qed.

(** A match that goes on with [K] calls [K] on the rest of the text after
    some prefix. *)
Lemma exec_reaches (r : regex) :
  forall K bos s cs x,
    exec r K bos s cs = Some x ->
    exists bos' pre s' cs', s = pre ++ s' /\ K bos' s' cs' = Some x.
Proof.
  induction r as [|a|a|p|g p|r1 IH1 r2 IH2|r1 IH1 r2 IH2|i r1 IH1|r1 IH1| | |];
    intros K bos s cs x H; cbn [exec] in H.
  - exists bos, [], s, cs. split; [reflexivity | exact H].
  - destruct (one_reaches _ _ _ _ H) as (b & pre & s' & E & HK). eauto 6.
  - destruct (one_reaches _ _ _ _ H) as (b & pre & s' & E & HK). eauto 6.
  - destruct (one_reaches _ _ _ _ H) as (b & pre & s' & E & HK). eauto 6.
  - destruct g.
    + destruct (rep_greedy_reaches _ _ _ _ _ H) as (b & pre & s' & E & HK).
      eauto 6.
    + destruct (rep_lazy_reaches _ _ _ _ _ H) as (b & pre & s' & E & HK).
      eauto 6.
  - destruct (IH1 _ _ _ _ _ H) as (b1 & pre1 & s1 & cs1 & -> & H1).
    destruct (IH2 _ _ _ _ _ H1) as (b2 & pre2 & s2 & cs2 & -> & H2).
    exists b2, (pre1 ++ pre2), s2, cs2. split; [apply app_assoc | exact H2].
  - destruct (exec r1 K bos s cs) as [y|] eqn:E.
    + injection H as <-. apply (IH1 _ _ _ _ _ E).
    + apply (IH2 _ _ _ _ _ H).
  - destruct (IH1 _ _ _ _ _ H) as (b1 & pre1 & s1 & cs1 & -> & H1).
    eauto 6.
  - destruct (exec r1 (fun _ s' cs' => Some (s', cs')) bos s cs)
      as [[u cs']|]; [|discriminate].
    exists bos, [], s, cs'. split; [reflexivity | exact H].
  - destruct bos; [|discriminate].
    exists true, [], s, cs. split; [reflexivity | exact H].
  - exists bos, [], s, cs. split; [reflexivity|].
    destruct s as [|c [|d s]]; try discriminate; [exact H|].
    destruct (c =? Str.NL)%N; [exact H | discriminate].
  - destruct s; [|discriminate].
    exists bos, [], [], cs. split; [reflexivity | exact H].
Qed.

Lemma cat_reaches (r X : regex) (K : cont) (bos : bool) (s : str)
    (cs : caps) (x : str * caps) :
  exec (Cat r X) K bos s cs = Some x ->
  exists bos' pre s' cs', s = pre ++ s' /\ exec X K bos' s' cs' = Some x.
Proof. cbn [exec]. apply exec_reaches. Qed.

(** *** The text of a question *)

Lemma rep_greedy_always (p : char -> bool) (K : cont)
    (F : str -> caps -> str * caps) :
  (forall b u c, K b u c = Some (F u c)) ->
  forall s bos cs,
    rep_greedy p K bos s cs = Some (F (Text.drop_while p s) cs).
Proof.
  intros HK. induction s as [|c s IH]; intros bos cs.
  - apply HK.
  - cbn [rep_greedy Text.drop_while]. destruct (p c); [|apply HK].
    now rewrite IH.
Qed.

Lemma nonspace_not_nl (c : char) :
  Unicode.isspace c = false -> not_nl c = true.
Proof.
  unfold not_nl. intro H. destruct (c =? Str.NL)%N eqn:E; [|reflexivity].
  apply N.eqb_eq in E. subst c. discriminate H.
Qed.

(** The second group of the pattern of a question, from a character that
    is not a newline: it takes the rest of the line. *)
Lemma group2_from (bos : bool) (c : char) (u : str) (cs : caps) :
  not_nl c = true ->
  exists k,
    exec (Cat (Grp 2 (Plus true not_nl)) Empty) accept bos (c :: u) cs
    = Some (Text.drop_while not_nl u, set_cap 2 (c :: firstn k u) cs).
Proof.
  intro Hc. exists (Text.run_length not_nl u).
  cbn [exec]. unfold Plus. cbn [exec]. unfold one. rewrite Hc.
  rewrite (@rep_greedy_always not_nl _
             (fun s' cs' =>
                (s', set_cap 2
                       (firstn (List.length (c :: u) - List.length s') (c :: u))
                       cs')));
    [|reflexivity].
  pose proof (ReFacts.drop_while_length not_nl u) as Hl.
  replace (List.length (c :: u) - List.length (Text.drop_while not_nl u))
    with (S (Text.run_length not_nl u)) by (cbn [List.length]; lia).
  reflexivity.
Qed.

Lemma group2_empty (bos : bool) (cs : caps) :
  exec (Cat (Grp 2 (Plus true not_nl)) Empty) accept bos [] cs = None.
Proof. reflexivity. Qed.

Lemma tail_none_all_space (s : str) :
  forall bos cs,
    rep_greedy Unicode.isspace
      (exec (Cat (Grp 2 (Plus true not_nl)) Empty) accept) bos s cs = None ->
    forallb Unicode.isspace s = true.
Proof.
  induction s as [|c s IH]; intros bos cs H; [reflexivity|].
  cbn [rep_greedy] in H. cbn [forallb].
  destruct (Unicode.isspace c) eqn:Ec.
  - destruct (rep_greedy Unicode.isspace _ false s cs) eqn:E; [discriminate|].
    now rewrite (IH _ _ E).
  - destruct (@group2_from bos c s cs (nonspace_not_nl c Ec)) as [k Hk].
    rewrite Hk in H. discriminate.
Qed.

Lemma question_tail (s : str) :
  forall bos cs rest cs',
    ends_in_text s ->
    rep_greedy Unicode.isspace
      (exec (Cat (Grp 2 (Plus true not_nl)) Empty) accept) bos s cs
    = Some (rest, cs') ->
    exists g, group 2 cs' = Some g /\ Str.strip g <> [].
Proof.
  induction s as [|c s IH]; intros bos cs rest cs' He H.
  - cbn [rep_greedy] in H. discriminate.
  - cbn [rep_greedy] in H. destruct (Unicode.isspace c) eqn:Ec.
    + destruct (rep_greedy Unicode.isspace _ false s cs) as [y|] eqn:E.
      * injection H as ->. apply (IH false cs rest cs'); [|exact E].
        intros pre t Hs Ht. apply (He (c :: pre) t); [|exact Ht].
        now rewrite Hs.
      * apply tail_none_all_space in E.
        assert (Hn : c :: s = []).
        { apply (He [] (c :: s)); [reflexivity|].
          cbn [forallb]. now rewrite Ec, E. }
        discriminate Hn.
    + destruct (@group2_from bos c s cs (nonspace_not_nl c Ec)) as [k Hk].
      rewrite Hk in H. injection H as _ <-.
      exists (c :: firstn k s). split; [reflexivity|].
      intro Hs. apply StripFacts.strip_nil in Hs.
      cbn [forallb] in Hs. now rewrite Ec in Hs.
Qed.

Lemma stripped_ends_in_text (x pre s : str) :
  Str.strip x = pre ++ s -> ends_in_text s.
Proof.
  intros E pre' t Hs Ht.
  destruct t as [|a t0]; [reflexivity|].
  destruct (@exists_last _ (a :: t0)) as [t1 [c Hc]]; [discriminate|].
  assert (Hl : Unicode.isspace c = false).
  { apply (@StripFacts.strip_last x (pre ++ pre' ++ t1) c).
    rewrite E, Hs, Hc. now rewrite <- !app_assoc. }
  rewrite forallb_forall in Ht. rewrite Ht in Hl; [discriminate|].
  rewrite Hc. apply in_or_app. right. now left.
Qed.

(** A match of the pattern of a question in a stripped text gives a
    second group with a character that is not white space. *)
Lemma question_group2 (x rest : str) (cs : caps) :
  re_match question_re (Str.strip x) = Some (rest, cs) ->
  exists g, group 2 cs = Some g /\ Str.strip g <> [].
Proof.
  unfold re_match, match_at, question_re, seqs. cbn [fold_right].
  intro H.
  apply cat_reaches in H as (b1 & p1 & s1 & c1 & E1 & H).
  apply cat_reaches in H as (b2 & p2 & s2 & c2 & E2 & H).
  apply cat_reaches in H as (b3 & p3 & s3 & c3 & E3 & H).
  apply cat_reaches in H as (b4 & p4 & s4 & c4 & E4 & H).
  apply (@question_tail s4 b4 c4 rest cs); [|exact H].
  apply (@stripped_ends_in_text x (p1 ++ p2 ++ p3 ++ p4) s4).
  rewrite E1, E2, E3, E4. now rewrite <- !app_assoc.
Qed.

Lemma collect_stripped (parts : list str) :
  forall st,
    Forall (fun qa => exists x, qa = Str.strip x) (fst st) ->
    Forall (fun qa => exists x, qa = Str.strip x)
      (fst (fold_left collect parts st)).
Proof.
  induction parts as [|part parts IH]; intros st H; [exact H|].
  cbn [fold_left]. apply IH. destruct st as [qas cur]. unfold collect.
  destruct (matches marker_re part).
  - destruct (Str.nonempty (Str.strip cur)); cbn [fst]; [|exact H].
    apply Forall_app. split; [exact H|]. repeat constructor. eauto.
  - destruct (Str.nonempty (Str.strip part)); exact H.
Qed.

Lemma qa_pairs_stripped (content : str) :
  Forall (fun qa => exists x, qa = Str.strip x) (qa_pairs content).
Proof.
  unfold qa_pairs.
  pose proof (@collect_stripped (re_split marker_split_re content) ([], [])
                (Forall_nil _)) as H.
  destruct (fold_left collect (re_split marker_split_re content) ([], []))
    as [qas cur]. cbn [fst] in H.
  destruct (Str.nonempty (Str.strip cur)); [|exact H].
  apply Forall_app. split; [exact H|]. repeat constructor. eauto.
Qed.

(** *** The groups a match leaves alone *)

Lemma find_filter (A : Type) (f g : A -> bool) (l : list A) :
  (forall a, f a = true -> g a = true) -> find f (filter g l) = find f l.
Proof.
  intro H. induction l as [|a l IH]; [reflexivity|].
  cbn [filter find]. destruct (f a) eqn:Ef.
  - rewrite (H a Ef). cbn [find]. now rewrite Ef.
  - destruct (g a); [cbn [find]; now rewrite Ef | exact IH].
Qed.

Lemma group_set_same (i : nat) (v : str) (cs : caps) :
  group i (set_cap i v cs) = Some v.
Proof. unfold group, set_cap. cbn [find fst]. now rewrite Nat.eqb_refl. Qed.

Lemma group_set_other (i j : nat) (v : str) (cs : caps) :
  j <> i -> group i (set_cap j v cs) = group i cs.
Proof.
  intro H. unfold group, set_cap. cbn [find fst].
  destruct (j =? i)%nat eqn:E; [apply Nat.eqb_eq in E; contradiction|].
  rewrite find_filter; [reflexivity|].
  intros e He. apply Nat.eqb_eq in He. apply negb_true_iff.
  apply Nat.eqb_neq. congruence.
Qed.

Lemma accept_keeps (i : nat) : keeps i accept.
Proof. intros bos s cs x H. injection H as <-. reflexivity. Qed.

Lemma rep_greedy_keeps (i : nat) (p : char -> bool) (K : cont) :
  keeps i K -> keeps i (rep_greedy p K).
Proof.
  intros HK bos s. revert bos. induction s as [|c s IH]; intros bos cs x H.
  - exact (HK _ _ _ _ H).
  - cbn [rep_greedy] in H. destruct (p c); [|exact (HK _ _ _ _ H)].
    destruct (rep_greedy p K false s cs) as [y|] eqn:E.
    + injection H as <-. exact (IH _ _ _ E).
    + exact (HK _ _ _ _ H).
Qed.

Lemma rep_lazy_keeps (i : nat) (p : char -> bool) (K : cont) :
  keeps i K -> keeps i (rep_lazy p K).
Proof.
  intros HK bos s. revert bos. induction s as [|c s IH]; intros bos cs x H.
  - cbn [rep_lazy] in H. destruct (K bos [] cs) eqn:E; [|discriminate].
    injection H as <-. exact (HK _ _ _ _ E).
  - cbn [rep_lazy] in H. destruct (K bos (c :: s) cs) eqn:E.
    + injection H as <-. exact (HK _ _ _ _ E).
    + destruct (p c); [|discriminate]. exact (IH _ _ _ H).
Qed.

Lemma one_keeps (i : nat) (p : char -> bool) (K : cont) :
  keeps i K ->
  forall s cs x, one p K s cs = Some x -> group i (snd x) = group i cs.
Proof.
  intros HK s cs x. unfold one. destruct s as [|c s]; [discriminate|].
  destruct (p c); [|discriminate]. apply HK.
Qed.

(** A pattern without a group numbered [i] leaves group [i] as it is. *)
Lemma exec_keeps (i : nat) (r : regex) :
  binds i r = false -> forall K, keeps i K -> keeps i (exec r K).
Proof.
  induction r as [|a|a|p|g p|r1 IH1 r2 IH2|r1 IH1 r2 IH2|j r1 IH1|r1 IH1| | |];
    intros Hb K HK bos s cs x H; cbn [exec] in H; cbn [binds] in Hb.
  - exact (HK _ _ _ _ H).
  - exact (@one_keeps i _ K HK _ _ _ H).
  - exact (@one_keeps i _ K HK _ _ _ H).
  - exact (@one_keeps i _ K HK _ _ _ H).
  - destruct g.
    + exact (@rep_greedy_keeps i p K HK _ _ _ _ H).
    + exact (@rep_lazy_keeps i p K HK _ _ _ _ H).
  - apply orb_false_iff in Hb as [Hb1 Hb2].
    exact (IH1 Hb1 (exec r2 K) (IH2 Hb2 K HK) _ _ _ _ H).
  - apply orb_false_iff in Hb as [Hb1 Hb2].
    destruct (exec r1 K bos s cs) as [y|] eqn:E.
    + injection H as <-. exact (IH1 Hb1 K HK _ _ _ _ E).
    + exact (IH2 Hb2 K HK _ _ _ _ H).
  - apply orb_false_iff in Hb as [Hj Hb1]. apply Nat.eqb_neq in Hj.
    refine (IH1 Hb1 _ _ _ _ _ _ H).
    intros b' s' cs' x' H'. rewrite (HK _ _ _ _ H').
    now apply group_set_other.
  - destruct (exec r1 (fun _ s' cs' => Some (s', cs')) bos s cs)
      as [[u cs']|] eqn:E; [|discriminate].
    rewrite (HK _ _ _ _ H).
    refine (IH1 Hb _ _ _ _ _ _ E).
    intros b' s' cs0 x' H'. injection H' as <-. reflexivity.
  - destruct bos; [exact (HK _ _ _ _ H) | discriminate].
  - destruct s as [|c [|d s]]; try discriminate; [exact (HK _ _ _ _ H)|].
    destruct (c =? Str.NL)%N; [exact (HK _ _ _ _ H) | discriminate].
  - destruct s; [exact (HK _ _ _ _ H) | discriminate].
Qed.

(** *** The label of a question *)

Lemma rep_greedy_run (p : char -> bool) (K : cont) (s : str) :
  forall bos cs x,
    rep_greedy p K bos s cs = Some x ->
    exists bos' pre s',
      s = pre ++ s' /\ forallb p pre = true /\ K bos' s' cs = Some x.
Proof.
  induction s as [|c s IH]; intros bos cs x H.
  - exists bos, [], []. repeat split. exact H.
  - cbn [rep_greedy] in H. destruct (p c) eqn:Ep.
    + destruct (rep_greedy p K false s cs) as [y|] eqn:E.
      * injection H as <-.
        destruct (IH _ _ _ E) as (b' & pre & s' & -> & Hp & HK).
        exists b', (c :: pre), s'. cbn [forallb]. rewrite Ep, Hp.
        repeat split. exact HK.
      * exists bos, [], (c :: s). repeat split. exact H.
    + exists bos, [], (c :: s). repeat split. exact H.
Qed.

Lemma firstn_prefix (A : Type) (a b : list A) :
  firstn (List.length a) (a ++ b) = a.
Proof. induction a as [|x a IH]; [reflexivity|]. cbn. now rewrite IH. Qed.

(** A pattern that starts with the group [(p+)] numbered [i], and has no
    other group of that number, gives a group [i] that is a run of [p],
    not empty. *)
Lemma grp_plus_label (p : char -> bool) (X : regex) (i : nat)
    (qa rest : str) (cs : caps) :
  binds i X = false ->
  exec (Cat (Grp i (Plus true p)) X) accept true qa [] = Some (rest, cs) ->
  exists g, group i cs = Some g /\ g <> [] /\ forallb p g = true.
Proof.
  intros Hb H. unfold Plus in H. cbn [exec] in H. unfold one in H.
  destruct qa as [|c s]; [discriminate|].
  destruct (p c) eqn:Ec; [|discriminate].
  apply rep_greedy_run in H as (b & pre & s' & -> & Hpre & H).
  cbv beta in H.
  pose proof (@exec_keeps i X Hb accept (accept_keeps i) _ _ _ _ H) as Hk.
  cbn [snd] in Hk. rewrite group_set_same in Hk.
  replace (List.length (c :: pre ++ s') - List.length s')
    with (List.length (c :: pre)) in Hk
    by (cbn [List.length]; rewrite length_app; lia).
  change (c :: pre ++ s') with ((c :: pre) ++ s') in Hk.
  rewrite firstn_prefix in Hk.
  exists (c :: pre). split; [exact Hk|]. split; [discriminate|].
  cbn [forallb]. now rewrite Ec, Hpre.
Qed.

Lemma question_label (qa rest : str) (cs : caps) :
  re_match question_re qa = Some (rest, cs) ->
  exists g, group 1 cs = Some g /\ g <> []
            /\ forallb Unicode.isdecimal g = true.
Proof.
  unfold re_match, match_at, question_re, seqs. cbn [fold_right].
  apply grp_plus_label. reflexivity.
Qed.

Lemma int_acc_decimal (s : str) :
  forallb Unicode.isdecimal s = true ->
  forall a, exists n, Str.int_acc a s = Some n.
Proof.
  induction s as [|c s IH]; intros H a; [now exists a|].
  cbn [forallb] in H. apply andb_true_iff in H as [Hc Hs].
  unfold Unicode.isdecimal in Hc. cbn [Str.int_acc].
  destruct (Unicode.decimal c); [|discriminate]. now apply IH.
Qed.

(** [int] on a label: it raises when the label has more than
    [Str.int_max_str_digits] digits, and only then. *)
Lemma int_label (g : str) :
  g <> [] -> forallb Unicode.isdecimal g = true ->
  if (List.length g <=? Str.int_max_str_digits)%nat
  then exists n, Str.int g = Some n
  else Str.int g = None.
Proof.
  intros Hn Hd. unfold Str.int. rewrite Nat.ltb_antisym.
  destruct (List.length g <=? Str.int_max_str_digits)%nat; cbn [negb].
  - destruct g as [|c g]; [contradiction|]. now apply int_acc_decimal.
  - reflexivity.
Qed.

Lemma structure_fits (qa : str) :
  fits qa = true ->
  structure qa
  = match parse qa with
    | Some p => if has_answer p then Appended p else Nothing
    | None => Nothing
    end.
Proof.
  unfold fits, label, structure, parse, has_answer.
  destruct (re_match question_re qa) as [[rest cs]|] eqn:E; [|reflexivity].
  destruct (@question_label qa rest cs E) as (g & Hg & Hn & Hd). rewrite Hg.
  pose proof (@int_label g Hn Hd) as Hi. intro Hf. rewrite Hf in Hi.
  destruct Hi as [n Hi]. rewrite Hi.
  destruct (group 2 cs); [|reflexivity]. cbn [answer].
  destruct (Str.nonempty (extract_answer qa)); reflexivity.
Qed.

Lemma structure_unfit (qa : str) : fits qa = false -> structure qa = Raised.
Proof.
  unfold fits, label, structure.
  destruct (re_match question_re qa) as [[rest cs]|] eqn:E; [|discriminate].
  destruct (@question_label qa rest cs E) as (g & Hg & Hn & Hd). rewrite Hg.
  pose proof (@int_label g Hn Hd) as Hi. intro Hf. rewrite Hf in Hi.
  now rewrite Hi.
Qed.

(** When every label fits, the loop keeps the parsed pairs that have an
    answer. *)
Lemma structured_fit (qas : list str) :
  forallb fits qas = true ->
  structured_pairs_of qas = Some (filter has_answer (parsed_pairs_of qas)).
Proof.
  induction qas as [|qa qas IH]; [reflexivity|].
  cbn [forallb]. intro H. apply andb_true_iff in H as [Hq Hr].
  cbn [structured_pairs_of parsed_pairs_of]. rewrite (@structure_fits qa Hq).
  destruct (parse qa) as [p|]; [|exact (IH Hr)].
  cbn [filter]. destruct (has_answer p); [|exact (IH Hr)].
  now rewrite (IH Hr).
Qed.

(** When a label does not fit, the run raises. *)
Lemma structured_unfit (qas : list str) :
  forallb fits qas = false -> structured_pairs_of qas = None.
Proof.
  induction qas as [|qa qas IH]; [discriminate|].
  cbn [forallb structured_pairs_of]. destruct (fits qa) eqn:Ef.
  - cbn [andb]. intro H. rewrite (IH H).
    now destruct (structure qa).
  - intros _. now rewrite (@structure_unfit qa Ef).
Qed.

Lemma structured_some (qas : list str) (l : list pair) :
  structured_pairs_of qas = Some l ->
  forallb fits qas = true /\ l = filter has_answer (parsed_pairs_of qas).
Proof.
  intro H. destruct (forallb fits qas) eqn:E.
  - rewrite (@structured_fit qas E) in H. injection H as <-. now split.
  - rewrite (@structured_unfit qas E) in H. discriminate.
Qed.

Lemma structure_texts (x : str) (p : pair) :
  structure (Str.strip x) = Appended p ->
  question p <> [] /\ answer p <> [].
Proof.
  unfold structure.
  destruct (re_match question_re (Str.strip x)) as [[rest cs]|] eqn:E;
    [|discriminate].
  destruct (@question_group2 x rest cs E) as (g & Hg & Hs).
  destruct (group 1 cs) as [g1|]; [|discriminate].
  destruct (Str.int g1) as [n|]; [|discriminate].
  rewrite Hg.
  destruct (Str.nonempty (extract_answer (Str.strip x))) eqn:EA;
    [|discriminate].
  intro H. injection H as <-. cbn [question answer]. split; [exact Hs|].
  destruct (extract_answer (Str.strip x)); [discriminate | discriminate].
Qed.

Lemma structured_texts (qas : list str) :
  Forall (fun qa => exists x, qa = Str.strip x) qas ->
  forall l, structured_pairs_of qas = Some l ->
  Forall (fun p => question p <> [] /\ answer p <> []) l.
Proof.
  induction 1 as [|qa qas [x ->] _ IH]; intros l H.
  - injection H as <-. constructor.
  - cbn [structured_pairs_of] in H.
    destruct (structure (Str.strip x)) as [p| |] eqn:E.
    + destruct (structured_pairs_of qas) as [l'|]; [|discriminate].
      injection H as <-.
      constructor; [now apply (@structure_texts x) | now apply IH].
    + now apply IH.
    + discriminate.
Qed.

End ReorderMore.

(** C4 (as stated it fails). A document of one pair whose label has 4301
    digits: the piece matches the pattern of a question and has an answer,
    but [int] raises on the label, the run ends there and nothing is
    written. *)
Lemma C4_counterexample :
  map (fun qa => (Re.matches ReorderQuestions.question_re qa,
                  Str.nonempty (ReorderQuestions.extract_answer qa)))
    (ReorderQuestions.qa_pairs ReorderSpec.doc_long) = [(true, true)]
  /\ ReorderSpec.labels_fit ReorderSpec.doc_long = false
  /\ ReorderQuestions.reorder_questions ReorderSpec.doc_long = None.
Proof.
  split; [vm_compute; reflexivity|].
  split; [vm_compute; reflexivity|].
  unfold ReorderQuestions.reorder_questions, ReorderQuestions.output_lines,
    ReorderQuestions.sorted_pairs, ReorderQuestions.structured_pairs.
  rewrite ReorderMore.structured_unfit; [reflexivity|].
  vm_compute. reflexivity.
Qed.

(** C4 (amended). For every input document in which no label has more
    than 4300 digits, the reorder script keeps exactly the parsed pairs
    whose extracted answer is not empty (the others are left out, and
    nothing else happens for them), sorts the kept pairs by their original
    number in ascending order, and writes them with the numbers 1, 2, ...,
    N, whatever the original numbers were. *)
Theorem C4_reorder_sorts_and_renumbers (content : str) :
  ReorderSpec.labels_fit content = true ->
  let kept := filter ReorderSpec.has_answer (ReorderSpec.parsed_pairs content) in
  exists sorted,
    ReorderQuestions.structured_pairs content = Some kept
    /\ ReorderQuestions.sorted_pairs content = Some sorted
    /\ Permutation kept sorted
    /\ StronglySorted ReorderSpec.by_original_num sorted
    /\ ReorderQuestions.output_lines content
       = Some (flat_map ReorderSpec.pair_lines (ReorderSpec.numbered sorted))
    /\ map fst (ReorderSpec.numbered sorted) = seq 1 (List.length kept).
Proof.
  intros Hf kept.
  assert (Hk : ReorderQuestions.structured_pairs content = Some kept)
    by exact (@ReorderMore.structured_fit _ Hf).
  exists (ReorderQuestions.sort ReorderQuestions.original_num kept).
  unfold ReorderQuestions.output_lines, ReorderQuestions.sorted_pairs.
  rewrite Hk. cbn [option_map].
  split; [reflexivity|].
  split; [reflexivity|].
  split; [apply ReorderFacts.sort_perm|].
  split; [apply ReorderFacts.sort_sorted|].
  split; [now rewrite ReorderFacts.emit_numbered|].
  unfold ReorderSpec.numbered. rewrite ReorderFacts.numbered_fst.
  f_equal. apply ReorderFacts.sort_length.
Qed.

Lemma C4_reorder_sorts_and_renumbers_witness :
  let kept := filter ReorderSpec.has_answer
                (ReorderSpec.parsed_pairs ReorderSpec.doc_5229) in
  exists sorted,
    ReorderQuestions.structured_pairs ReorderSpec.doc_5229 = Some kept
    /\ ReorderQuestions.sorted_pairs ReorderSpec.doc_5229 = Some sorted
    /\ Permutation kept sorted
    /\ StronglySorted ReorderSpec.by_original_num sorted
    /\ ReorderQuestions.output_lines ReorderSpec.doc_5229
       = Some (flat_map ReorderSpec.pair_lines (ReorderSpec.numbered sorted))
    /\ map fst (ReorderSpec.numbered sorted) = seq 1 (List.length kept).
Proof.
  apply (C4_reorder_sorts_and_renumbers ReorderSpec.doc_5229).
  vm_compute. reflexivity.
Defined.

(** C10 (as stated it fails). A document with two pairs numbered 2, both
    with an answer, and a third pair whose label has 4301 digits: [int]
    raises on that label and neither of the two pairs is written. *)
Lemma C10_counterexample :
  filter (ReorderSpec.with_num 2)
    (filter ReorderSpec.has_answer
       (ReorderSpec.parsed_pairs ReorderSpec.doc_22_long))
  = [ReorderQuestions.mkPair 2 (of_string "b?") (of_string "ab");
     ReorderQuestions.mkPair 2 (of_string "c?") (of_string "ac")]
  /\ ReorderQuestions.output_lines ReorderSpec.doc_22_long = None
  /\ ReorderQuestions.reorder_questions ReorderSpec.doc_22_long = None.
Proof.
  assert (H : ReorderQuestions.structured_pairs ReorderSpec.doc_22_long = None).
  { apply ReorderMore.structured_unfit. vm_compute. reflexivity. }
  split; [vm_compute; reflexivity|].
  unfold ReorderQuestions.reorder_questions, ReorderQuestions.output_lines,
    ReorderQuestions.sorted_pairs.
  rewrite H. split; reflexivity.
Qed.

(** C10 (amended). The sort of the reorder script is stable: for every
    input document in which no label has more than 4300 digits and every
    original number [k], the pairs that carry [k] and have a non-empty
    answer are all in the sorted list, in the order in which they occur in
    the input, and the output is written from that list in its order. *)
Theorem C10_reorder_sort_stable (content : str) (k : N) :
  ReorderSpec.labels_fit content = true ->
  exists sorted,
    ReorderQuestions.sorted_pairs content = Some sorted
    /\ filter (ReorderSpec.with_num k) sorted
       = filter (ReorderSpec.with_num k)
           (filter ReorderSpec.has_answer (ReorderSpec.parsed_pairs content))
    /\ ReorderQuestions.output_lines content
       = Some (flat_map ReorderSpec.pair_lines (ReorderSpec.numbered sorted)).
Proof.
  intro Hf.
  pose proof (@ReorderMore.structured_fit _ Hf) as Hk.
  fold (ReorderQuestions.structured_pairs content) in Hk.
  fold (ReorderSpec.parsed_pairs content) in Hk.
  exists (ReorderQuestions.sort ReorderQuestions.original_num
            (filter ReorderSpec.has_answer (ReorderSpec.parsed_pairs content))).
  unfold ReorderQuestions.output_lines, ReorderQuestions.sorted_pairs.
  rewrite Hk. cbn [option_map].
  split; [reflexivity|].
  split.
  - unfold ReorderSpec.with_num.
    apply (ReorderFacts.sort_stable ReorderQuestions.original_num k).
  - now rewrite ReorderFacts.emit_numbered.
Qed.

Lemma C10_reorder_sort_stable_witness :
  exists sorted,
    ReorderQuestions.sorted_pairs ReorderSpec.doc_5229 = Some sorted
    /\ filter (ReorderSpec.with_num 2) sorted
       = filter (ReorderSpec.with_num 2)
           (filter ReorderSpec.has_answer
              (ReorderSpec.parsed_pairs ReorderSpec.doc_5229))
    /\ ReorderQuestions.output_lines ReorderSpec.doc_5229
       = Some (flat_map ReorderSpec.pair_lines (ReorderSpec.numbered sorted)).
Proof.
  apply (C10_reorder_sort_stable ReorderSpec.doc_5229 2).
  vm_compute. reflexivity.
Defined.

(** C3 (as stated it fails). On a document whose four pairs carry the
    numbers 5, 2, 2, 9 and all have an answer, the script writes four pairs,
    not three. *)
Lemma C3_counterexample :
  option_map (map ReorderQuestions.original_num)
    (ReorderQuestions.structured_pairs ReorderSpec.doc_5229)
  = Some [5; 2; 2; 9]%N
  /\ option_map (forallb ReorderSpec.has_answer)
       (ReorderQuestions.structured_pairs ReorderSpec.doc_5229) = Some true
  /\ ReorderQuestions.output_lines ReorderSpec.doc_5229
     = Some (map of_string
               ["1. Q: b?"; "A: ab"; ""; "2. Q: c?"; "A: ac"; "";
                "3. Q: e?"; "A: ae"; ""; "4. Q: i?"; "A: ai"; ""]%string)
  /\ option_map (fun sorted => List.length (ReorderSpec.numbered sorted))
       (ReorderQuestions.sorted_pairs ReorderSpec.doc_5229)
     <> Some 3.
Proof.
  split; [vm_compute; reflexivity|].
  split; [vm_compute; reflexivity|].
  split; [vm_compute; reflexivity|].
  vm_compute. discriminate.
Qed.

(** C3 (amended). When the run does not raise and the pairs kept from a
    document carry the original numbers 5, 2, 2, 9, the script writes all
    four of them, numbered 1, 2, 3, 4: first the two pairs numbered 2, in
    their order in the input, then the pair numbered 5, then the pair
    numbered 9. *)
Theorem C3_reorder_5229 (content : str) :
  option_map (map ReorderQuestions.original_num)
    (ReorderQuestions.structured_pairs content) = Some [5; 2; 2; 9]%N ->
  exists p5 p2 p2' p9,
    ReorderQuestions.structured_pairs content = Some [p5; p2; p2'; p9]
    /\ ReorderQuestions.sorted_pairs content = Some [p2; p2'; p5; p9]
    /\ ReorderQuestions.output_lines content
       = Some (flat_map ReorderSpec.pair_lines
                 [(1, p2); (2, p2'); (3, p5); (4, p9)]).
Proof.
  intro H.
  unfold ReorderQuestions.output_lines, ReorderQuestions.sorted_pairs.
  destruct (ReorderQuestions.structured_pairs content) as [pairs|];
    [|discriminate H].
  cbn [option_map] in H. injection H as H.
  destruct pairs as [|p5 [|p2 [|p2' [|p9 [|]]]]]; try discriminate H.
  injection H as H5 H2 H2' H9.
  exists p5, p2, p2', p9.
  assert (Hs : ReorderQuestions.sort ReorderQuestions.original_num
                 [p5; p2; p2'; p9] = [p2; p2'; p5; p9]).
  { unfold ReorderQuestions.sort.
    cbn [fold_right ReorderQuestions.insert].
    rewrite H9, H2'. cbn [ReorderQuestions.insert N.leb N.compare Pos.compare Pos.compare_cont].
    rewrite H9, H2, H2'. cbn [ReorderQuestions.insert N.leb N.compare Pos.compare Pos.compare_cont].
    rewrite H5, H2, H2', H9. reflexivity. }
  cbn [option_map]. rewrite Hs.
  split; [reflexivity|]. split; reflexivity.
Qed.

Lemma C3_reorder_5229_witness :
  exists p5 p2 p2' p9,
    ReorderQuestions.structured_pairs ReorderSpec.doc_5229
    = Some [p5; p2; p2'; p9]
    /\ ReorderQuestions.sorted_pairs ReorderSpec.doc_5229
       = Some [p2; p2'; p5; p9]
    /\ ReorderQuestions.output_lines ReorderSpec.doc_5229
       = Some (flat_map ReorderSpec.pair_lines
                 [(1, p2); (2, p2'); (3, p5); (4, p9)]).
Proof.
  apply (C3_reorder_5229 ReorderSpec.doc_5229).
  vm_compute. reflexivity.
Defined.

(** X10. When the run of the reorder script does not raise and the pairs
    it keeps carry original numbers that never decrease, the script writes
    them in the order of the input: it only renumbers them 1, 2, ..., N. *)
Theorem X10_reorder_keeps_an_ordered_document (content : str) :
  Kept.ordered_run content = true ->
  exists pairs,
    ReorderQuestions.structured_pairs content = Some pairs
    /\ ReorderQuestions.sorted_pairs content = Some pairs
    /\ ReorderQuestions.output_lines content
       = Some (flat_map ReorderSpec.pair_lines (ReorderSpec.numbered pairs)).
Proof.
  unfold Kept.ordered_run, ReorderQuestions.output_lines,
    ReorderQuestions.sorted_pairs.
  destruct (ReorderQuestions.structured_pairs content) as [pairs|];
    [|discriminate].
  intro H. exists pairs. cbn [option_map].
  rewrite (@ReorderMore.sort_nondecreasing _ _ _ H).
  split; [reflexivity|]. split; [reflexivity|].
  now rewrite ReorderFacts.emit_numbered.
Qed.

Lemma X10_reorder_keeps_an_ordered_document_witness :
  exists pairs,
    ReorderQuestions.structured_pairs Kept.doc_1337 = Some pairs
    /\ ReorderQuestions.sorted_pairs Kept.doc_1337 = Some pairs
    /\ ReorderQuestions.output_lines Kept.doc_1337
       = Some (flat_map ReorderSpec.pair_lines (ReorderSpec.numbered pairs)).
Proof.
  apply (X10_reorder_keeps_an_ordered_document Kept.doc_1337).
  vm_compute. reflexivity.
Defined.

(** X11. Every pair the reorder script writes has a question text and an
    answer text that are not empty: the question is the stripped rest of a
    line on which a character that is not white space follows the marker,
    and a pair whose answer is empty is left out.  (When the run raises,
    nothing is written.) *)
Theorem X11_reorder_texts_not_empty (content : str) (sorted : list ReorderQuestions.pair) :
  ReorderQuestions.sorted_pairs content = Some sorted ->
  Forall (fun p => ReorderQuestions.question p <> []
                   /\ ReorderQuestions.answer p <> []) sorted.
Proof.
  unfold ReorderQuestions.sorted_pairs, ReorderQuestions.structured_pairs.
  destruct (ReorderQuestions.structured_pairs_of
              (ReorderQuestions.qa_pairs content)) as [pairs|] eqn:E;
    [|discriminate].
  cbn [option_map]. intro H. injection H as <-.
  eapply Permutation_Forall; [apply ReorderFacts.sort_perm|].
  exact (@ReorderMore.structured_texts _
           (ReorderMore.qa_pairs_stripped content) _ E).
Qed.

Lemma X11_reorder_texts_not_empty_witness :
  Forall (fun p => ReorderQuestions.question p <> []
                   /\ ReorderQuestions.answer p <> [])
    [ReorderQuestions.mkPair 1 (of_string "a?") (of_string "x");
     ReorderQuestions.mkPair 3 (of_string "b?") (of_string "y");
     ReorderQuestions.mkPair 3 (of_string "c?") (of_string "z");
     ReorderQuestions.mkPair 7 (of_string "d?") (of_string "w")].
Proof.
  apply (X11_reorder_texts_not_empty Kept.doc_1337).
  vm_compute. reflexivity.
Defined.

(** ** A cleaning script on a file it has written *)

Module RerunFacts.
Import Re Doc Cleaner Text Lines LineFacts Kept.

Lemma lstrip_nonspace (c : char) (s : str) :
  Unicode.isspace c = false -> Str.lstrip (c :: s) = c :: s.
Proof. intro H. cbn [Str.lstrip]. now rewrite H. Qed.

(** Stripping keeps the text up to a character that is not white space. *)
Lemma strip_keeps (a0 : char) (a : str) (c : char) (x : str) :
  Unicode.isspace a0 = false -> Unicode.isspace c = false ->
  exists x', Str.strip ((a0 :: a) ++ c :: x) = (a0 :: a) ++ c :: x'.
Proof.
  intros Ha Hc. unfold Str.strip. cbn [app]. rewrite (@lstrip_nonspace a0 (a ++ c :: x) Ha).
  destruct (StripFacts.rstrip_prefix (a0 :: a ++ c :: x)) as [q [E Hq]].
  remember (Str.rstrip (a0 :: a ++ c :: x)) as r eqn:Er. clear Er.
  assert (E' : ((a0 :: a) ++ [c]) ++ x = r ++ q).
  { rewrite <- E. rewrite <- app_assoc. reflexivity. }
  clear E. apply app_eq_app in E' as [m [[E1 E2] | [E1 E2]]].
  - destruct m as [|m0 m _] using rev_ind.
    + rewrite app_nil_r in E1. exists []. rewrite <- E1. reflexivity.
    + rewrite app_assoc in E1. apply app_inj_tail in E1 as [_ <-].
      exfalso. rewrite forallb_forall in Hq.
      rewrite Hq in Hc; [discriminate|].
      rewrite E2. apply in_or_app. left. apply in_or_app. right. now left.
  - exists m. rewrite E1. rewrite <- app_assoc. reflexivity.
Qed.

Lemma strip_first (c : char) (s : str) :
  Unicode.isspace c = false -> exists r, Str.strip (c :: s) = c :: r.
Proof.
  intro Hc. unfold Str.strip. rewrite (@lstrip_nonspace c s Hc).
  destruct (StripFacts.rstrip_prefix (c :: s)) as [q [E Hq]].
  destruct (Str.rstrip (c :: s)) as [|c' r].
  - cbn [app] in E. subst q. cbn [forallb] in Hq. now rewrite Hc in Hq.
  - injection E as <- _. eauto.
Qed.

Lemma digit_nonspace (d : char) :
  Unicode.is_ascii_digit d = true -> Unicode.isspace d = false.
Proof.
  intro H. apply StrFacts.ascii_digit_cases in H.
  repeat (destruct H as [H|H]; [subst; reflexivity|]). subst. reflexivity.
Qed.

Lemma digit_not_Q (d : char) (x : str) :
  Unicode.is_ascii_digit d = true ->
  Str.startswith (of_string "Q:") (d :: x) = false.
Proof.
  intro H. apply StrFacts.ascii_digit_cases in H.
  repeat (destruct H as [H|H]; [subst; reflexivity|]). subst. reflexivity.
Qed.

(** A number, a period, a space and the marker are counted as a
    question, whatever follows. *)
Lemma numbered_marker_matches (d : char) (ds x : str) :
  Forall (fun c => Unicode.is_ascii_digit c = true) (d :: ds) ->
  matches numbered_q_re ((d :: ds) ++ of_string ". Q:" ++ x) = true.
Proof.
  intro H. inversion H as [|? ? Hd Hds]; subst.
  unfold matches, re_match, match_at, numbered_q_re, seqs, Plus.
  cbn [fold_right exec]. unfold one at 1. cbn [app].
  rewrite (StrFacts.ascii_digit_isdecimal d Hd).
  change (of_string ". Q:") with [46%N; 32%N; 81%N; 58%N].
  cbn [app].
  erewrite TallyFacts.rep_greedy_max; [reflexivity | | reflexivity |].
  - intro bos. vm_compute. reflexivity.
  - eapply Forall_impl; [|exact Hds]. apply StrFacts.ascii_digit_isdecimal.
Qed.

Lemma rep_greedy_stuck (p : char -> bool) (K : cont) (ds : str) (c : char)
    (rest : str) :
  p c = false ->
  (forall bos cs, K bos (c :: rest) cs = None) ->
  Forall (fun d => forall bos u cs, K bos (d :: u) cs = None) ds ->
  forall bos cs, rep_greedy p K bos (ds ++ c :: rest) cs = None.
Proof.
  intros Hp Hc. induction 1 as [|d ds Hd _ IH]; intros bos cs.
  - cbn [app rep_greedy]. rewrite Hp. apply Hc.
  - cbn [app rep_greedy]. rewrite IH, Hd. now destruct (p d).
Qed.

(** The heading pattern of [process_db_qa_improved] does not match a line
    that starts with a number and the marker: the colon is not in its
    class. *)
Lemma improved_topic_re_fails (d : char) (ds x : str) :
  Forall (fun c => Unicode.is_ascii_digit c = true) (d :: ds) ->
  matches ProcessDbQaImproved.topic_re ((d :: ds) ++ of_string ". Q:" ++ x)
  = false.
Proof.
  intro H. inversion H as [|? ? Hd Hds]; subst.
  unfold matches, re_match, match_at, ProcessDbQaImproved.topic_re, seqs, Plus.
  cbn [fold_right exec]. unfold one at 1. cbn [app].
  rewrite (StrFacts.ascii_digit_isdecimal d Hd).
  change (of_string ". Q:") with [46%N; 32%N; 81%N; 58%N].
  cbn [app].
  rewrite rep_greedy_stuck; [reflexivity | reflexivity | |].
  - intros bos cs. vm_compute. reflexivity.
  - eapply Forall_impl; [|exact Hds]. intros d' Hd' bos u cs.
    apply StrFacts.ascii_digit_cases in Hd'.
    repeat (destruct Hd' as [Hd'|Hd']; [subst; vm_compute; reflexivity|]).
    subst. vm_compute. reflexivity.
Qed.

Lemma strip_number_marker (d : char) (ds x : str) :
  Unicode.is_ascii_digit d = true ->
  exists x', Str.strip ((d :: ds) ++ of_string ". Q:" ++ x)
             = (d :: ds) ++ of_string ". Q:" ++ x'.
Proof.
  intro Hd.
  assert (E : forall y : str,
            (d :: ds) ++ of_string ". Q:" ++ y
            = (d :: ds ++ [46%N; 32%N; 81%N]) ++ 58%N :: y).
  { intro y. change (of_string ". Q:") with [46%N; 32%N; 81%N; 58%N].
    cbn [app]. rewrite <- app_assoc. reflexivity. }
  destruct (@strip_keeps d (ds ++ [46%N; 32%N; 81%N]) 58%N x
              (@digit_nonspace d Hd) eq_refl) as [x' Hx].
  exists x'. rewrite (E x), (E x'). exact Hx.
Qed.

(** A line a script writes by itself is no question and no heading for
    [clean_db_final] and [process_db_qa_improved]. *)
Lemma own_line_ignored (l : str) :
  own_line l ->
  is_question l = false
  /\ CleanDbFinal.is_topic (Str.strip l) = false
  /\ ProcessDbQaImproved.is_topic (Str.strip l) = false.
Proof.
  intros [-> | [[x ->] | [[x ->] | (d & ds & x & Hd & ->)]]].
  - split; [|split]; vm_compute; reflexivity.
  - destruct (@strip_first 35%N x eq_refl) as [r Hr].
    unfold is_question. rewrite Hr.
    split; [|split]; vm_compute; reflexivity.
  - destruct (@strip_first 65%N x eq_refl) as [r Hr].
    unfold is_question. rewrite Hr.
    split; [|split]; vm_compute; reflexivity.
  - inversion Hd as [|? ? Hd0 Hds]; subst.
    destruct (@strip_number_marker d ds x Hd0) as [x' Hx].
    unfold is_question. rewrite Hx.
    split; [|split].
    + apply (@digit_not_Q d _ Hd0).
    + unfold CleanDbFinal.is_topic.
      rewrite (@numbered_marker_matches d ds x' Hd). cbn [negb].
      now rewrite andb_false_r.
    + unfold ProcessDbQaImproved.is_topic.
      now rewrite (@improved_topic_re_fails d ds x' Hd).
Qed.

(** The lines of the string of an entry are lines of these kinds. *)
Lemma render_own_lines (v : variant) (fmt : str -> str)
    (lines0 : list str) (e : entry) :
  (forall line, fmt line = Str.NL :: of_string "## " ++ line
                \/ fmt line = Str.NL :: of_string "## " ++ line ++ [Str.NL]) ->
  (forall line, v_passes v line = false) ->
  (forall line, collapsed (v_clean_answer v line) = true) ->
  Forall (fun l => nl_free l = true) lines0 ->
  entry_from v lines0 e ->
  Forall own_line (Str.split Str.NL (render fmt e)).
Proof.
  intros Hfmt Hpass Hclean Hfree.
  assert (Hhead : forall line, nl_free line = true ->
                    Str.split Str.NL (of_string "## " ++ line)
                    = [35%N :: 35%N :: 32%N :: line]).
  { intros line Hl. apply split_free.
    change (nl_free (of_string "## " ++ line) = true).
    rewrite nl_free_app, Hl. reflexivity. }
  assert (Hnil : own_line []) by now left.
  assert (Hsharp : forall x, own_line (35%N :: x)) by (right; left; eauto).
  destruct e as [line| |n text|text|line]; cbn [entry_from render].
  - intros (raw & Hin & -> & _).
    pose proof (@SkipFacts.from_line_free lines0 raw Hfree Hin) as Hl.
    destruct (Hfmt (Str.strip raw)) as [-> | ->].
    + rewrite split_eq. cbn [N.eqb Str.NL Pos.eqb].
      rewrite (Hhead _ Hl).
      apply Forall_cons; [exact Hnil|].
      apply Forall_cons; [apply Hsharp | apply Forall_nil].
    + rewrite split_eq. cbn [N.eqb Str.NL Pos.eqb].
      rewrite app_assoc.
      change [Str.NL] with (Str.NL :: []).
      rewrite split_app_sep, (Hhead _ Hl). cbn [app Str.split].
      apply Forall_cons; [exact Hnil|].
      apply Forall_cons; [apply Hsharp|].
      apply Forall_cons; [exact Hnil | apply Forall_nil].
  - intros _. cbn [Str.split].
    apply Forall_cons; [exact Hnil | apply Forall_nil].
  - intros [_ (raw & Hin & _ & ->)].
    destruct (StrFacts.show_head n) as (d & ds & E & Hd & Hds).
    assert (Hdd : Forall (fun c => Unicode.is_ascii_digit c = true) (d :: ds))
      by now constructor.
    rewrite split_free.
    + apply Forall_cons; [|apply Forall_nil]. right; right; right.
      exists d, ds, (32%N :: Str.strip (skipn 2 (Str.strip raw))).
      split; [exact Hdd|]. now rewrite E.
    + rewrite E, nl_free_app, (@digits_nl_free (d :: ds) Hdd), nl_free_app.
      rewrite (@nl_free_strip _ (@nl_free_skipn 2 _
                 (@SkipFacts.from_line_free lines0 raw Hfree Hin))).
      reflexivity.
  - intros [_ (raw & Hin & _ & ->)].
    rewrite split_free.
    + apply Forall_cons; [|apply Forall_nil]. right; right; left.
      change (of_string "A: ") with [65%N; 58%N; 32%N]. cbn [app]. eauto.
    + rewrite nl_free_app, (@collapsed_nl_free _ (Hclean _)). reflexivity.
  - intros (raw & _ & _ & H). now rewrite Hpass in H.
Qed.

Lemma written_own_lines (v : variant) (fmt : str -> str) (lines0 : list str)
    (qn : nat) (acc : list entry) :
  topic_shape v ->
  (forall line, fmt line = Str.NL :: of_string "## " ++ line
                \/ fmt line = Str.NL :: of_string "## " ++ line ++ [Str.NL]) ->
  (forall line, v_passes v line = false) ->
  (forall line, collapsed (v_clean_answer v line) = true) ->
  Forall (fun l => nl_free l = true) lines0 ->
  reach v lines0 qn acc ->
  Forall own_line (Str.split Str.NL (written (map (render fmt) acc))).
Proof.
  intros Hv Hfmt Hpass Hclean Hfree Hr.
  apply (Invariants.reach_entry_from Hv) in Hr as [_ Hr].
  unfold written. destruct acc as [|e acc].
  - cbn [map Str.join Str.split].
    apply Forall_cons; [now left | apply Forall_nil].
  - rewrite split_join by discriminate. rewrite TallyFacts.flat_map_map.
    apply Forall_flat_map. eapply Forall_impl; [|exact Hr].
    intros e' He'.
    exact (@render_own_lines v fmt lines0 e' Hfmt Hpass Hclean Hfree He').
Qed.

Lemma own_lines_nothing (ls : list str) :
  Forall own_line ls ->
  forallb (fun raw => negb (is_question raw)
                      && negb (CleanDbFinal.is_topic (Str.strip raw))) ls = true
  /\ forallb (fun raw => negb (is_question raw)
                         && negb (ProcessDbQaImproved.is_topic (Str.strip raw)))
       ls = true.
Proof.
  induction 1 as [|l ls Hl _ [IH1 IH2]]; [split; reflexivity|].
  destruct (own_line_ignored Hl) as (HQ & HT1 & HT2).
  cbn [forallb]. rewrite HQ, HT1, HT2, IH1, IH2. split; reflexivity.
Qed.

End RerunFacts.

(** X12. Neither [clean_db_final] nor [process_db_qa_improved] reads
    the format it writes.  Each script by itself: given as content a text
    it has written, in which none of its fluff patterns has a match, it
    writes the empty file and prints the counts 0, 0, 0.  The numbered
    question lines start with a digit and not with [Q:], and no written
    line is a heading for the script. *)
Theorem X12_cleaners_do_not_read_their_output (content : str) :
  let out1 := fst (CleanDbFinal.clean_db_final content) in
  let out2 := fst (ProcessDbQaImproved.process_db_qa_improved content) in
  (Text.no_match CleanDbFinal.major_fluff out1 = true ->
   CleanDbFinal.clean_db_final out1 = ([], (0, 0, 0)))
  /\ (Text.no_match ProcessDbQaImproved.fluff_patterns out2 = true ->
      ProcessDbQaImproved.process_db_qa_improved out2 = ([], (0, 0, 0))).
Proof.
  intros out1 out2. split.
  - intro H1.
    destruct (CleanerFacts.final_entries_reach content) as [qn1 R1].
    pose proof (@RerunFacts.written_own_lines Cleaner.clean_db_final_v
                  CleanDbFinal.topic_fmt _ qn1 _ Invariants.final_topic_shape
                  (fun line => or_introl eq_refl) (fun _ => eq_refl)
                  AnswerTextFacts.final_clean_collapsed
                  (LineFacts.split_lines_free _) R1) as L1.
    destruct (RerunFacts.own_lines_nothing L1) as [N1 _].
    pose proof (RunFacts.final_entries_run out1) as Run1.
    unfold CleanDbFinal.remove_fluff in Run1.
    rewrite (ReFacts.remove_no_match _ _ H1) in Run1.
    pose proof (@PassFacts.run_nothing _ _ _ _ _ Run1 N1) as E1.
    unfold CleanDbFinal.clean_db_final at 1, CleanDbFinal.processed_lines.
    now rewrite E1.
  - intro H2.
    destruct (CleanerFacts.improved_entries_reach content) as [qn2 R2].
    pose proof (@RerunFacts.written_own_lines Cleaner.process_db_qa_improved_v
                  ProcessDbQaImproved.topic_fmt _ qn2 _
                  Invariants.improved_topic_shape
                  (fun line => or_intror eq_refl) (fun _ => eq_refl)
                  AnswerTextFacts.improved_clean_collapsed
                  (LineFacts.split_lines_free _) R2) as L2.
    destruct (RerunFacts.own_lines_nothing L2) as [_ N2].
    pose proof (RunFacts.improved_entries_run out2) as Run2.
    unfold ProcessDbQaImproved.remove_fluff in Run2.
    rewrite (ReFacts.remove_no_match _ _ H2) in Run2.
    pose proof (@PassFacts.run_nothing _ _ _ _ _ Run2 N2) as E2.
    unfold ProcessDbQaImproved.process_db_qa_improved at 1,
      ProcessDbQaImproved.processed_lines.
    now rewrite E2.
Qed.

(** In what [process_db_qa_improved] writes for the second text one of its
    fluff patterns has a match, in what [clean_db_final] writes none. *)
Lemma X12_cleaners_do_not_read_their_output_witness :
  let content := of_string "1. Database Operations & Reliability
Q: how is a backup restored?
A: from the   last snapshot" in
  let joined := of_string "Q: Do you Do you want me towant me to x" in
  CleanDbFinal.clean_db_final (fst (CleanDbFinal.clean_db_final content))
  = ([], (0, 0, 0))
  /\ ProcessDbQaImproved.process_db_qa_improved
       (fst (ProcessDbQaImproved.process_db_qa_improved content))
     = ([], (0, 0, 0))
  /\ CleanDbFinal.clean_db_final (fst (CleanDbFinal.clean_db_final joined))
     = ([], (0, 0, 0))
  /\ Text.no_match ProcessDbQaImproved.fluff_patterns
       (fst (ProcessDbQaImproved.process_db_qa_improved joined)) = false.
Proof.
  intros content joined.
  split.
  { apply (proj1 (X12_cleaners_do_not_read_their_output content)).
    vm_compute. reflexivity. }
  split.
  { apply (proj2 (X12_cleaners_do_not_read_their_output content)).
    vm_compute. reflexivity. }
  split.
  { apply (proj1 (X12_cleaners_do_not_read_their_output joined)).
    vm_compute. reflexivity. }
  vm_compute. reflexivity.
Defined.

(** ** process_db_qa, line by line *)

Module LineByLine.
Import Doc Cleaner Kept.

Lemma blank_line_entries (raw : str) :
  Str.nonempty (Str.strip raw) = false -> line_entries raw = [].
Proof.
  unfold line_entries. destruct (Str.strip raw); [reflexivity | discriminate].
Qed.

Lemma long_nonempty (line : str) :
  Str.nonempty line && (3 <? List.length line) = (3 <? List.length line).
Proof. destruct line; reflexivity. Qed.

Lemma qa_step_line (st : nat * list entry) (raw : str) :
  map unnumbered (snd (ProcessDbQa.step st raw))
  = map unnumbered (snd st) ++ line_entries raw.
Proof.
  destruct st as [qn acc]. unfold ProcessDbQa.step. cbn [snd].
  destruct (negb (Str.nonempty (Str.strip raw)) && is_nil acc) eqn:EL.
  { apply andb_true_iff in EL as [EB _]. apply negb_true_iff in EB.
    rewrite (blank_line_entries raw EB). now rewrite app_nil_r. }
  unfold line_entries. rewrite long_nonempty.
  destruct (ProcessDbQa.is_topic (Str.strip raw)).
  { cbn [snd]. now rewrite map_app. }
  destruct (Str.startswith (of_string "Q:") (Str.strip raw)).
  { cbn [snd]. now rewrite map_app. }
  destruct (Str.startswith (of_string "A:") (Str.strip raw)).
  { destruct (Str.nonempty (ProcessDbQa.clean_answer (Str.strip raw)));
      cbn [snd]; [now rewrite map_app | now rewrite app_nil_r]. }
  destruct (ProcessDbQa.should_skip (Str.strip raw));
    [cbn [snd]; now rewrite app_nil_r|].
  destruct (3 <? List.length (Str.strip raw)); cbn [snd];
    [now rewrite map_app | now rewrite app_nil_r].
Qed.

Lemma qa_fold_lines (lines : list str) (st : nat * list entry) :
  map unnumbered (snd (fold_left ProcessDbQa.step lines st))
  = map unnumbered (snd st) ++ flat_map line_entries lines.
Proof.
  revert st. induction lines as [|raw rest IH]; intro st.
  - cbn [fold_left flat_map]. now rewrite app_nil_r.
  - cbn [fold_left flat_map]. rewrite IH, qa_step_line, <- app_assoc.
    reflexivity.
Qed.

End LineByLine.

(** X13. [process_db_qa] reads every line by itself: apart from the
    question numbers, its entries are those of the single lines, in the
    order of the lines.  A line gives a heading, a question, an answer with
    a blank entry, or itself when it is none of these, matches no skip
    pattern and is longer than three characters; the rule that skips empty
    lines before the first entry changes nothing. *)
Theorem X13_process_db_qa_line_by_line (content : str) :
  map Kept.unnumbered (ProcessDbQa.entries content)
  = flat_map Kept.line_entries
      (Str.split Str.NL (ProcessDbQa.remove_fluff content)).
Proof.
  unfold ProcessDbQa.entries, ProcessDbQa.scan.
  apply (LineByLine.qa_fold_lines _ (1, [])).
Qed.
